(** * SyncStream: the client-side synchronisation engine of [static/script.js]

    A shallow embedding of the browser script and of the part of the browser
    it talks to (timers, WebSocket objects, the media element, the YouTube
    widget, a few DOM nodes), followed by the properties of the engine.

    Conventions of the embedding.
    - JavaScript numbers are exact rationals ([Q]); rounding, NaN and the
      infinities of IEEE doubles are outside the model.  [Date.now()] is an
      integer number of milliseconds ([Z]).
    - Strings are sequences of code units below 256; the empty string stands
      for an absent (falsy) string field of a JSON message.
    - Every function of the script is a computation in the monad [M]: it
      threads the whole page state ([World]) and may end in a JavaScript
      exception, which aborts the running event handler only.
    - [trace] is the list, in program order, of what the engine did that can be
      observed from outside a handler: operations on the playback adapter,
      writes of the echo-suppression flag, timers, frames sent, sockets opened
      and closed, toasts and status changes.
    - The invite and policy dialogs touch nothing but their own nodes and are
      left out. *)

From Stdlib Require Import ZArith QArith Qabs Qround Lqa String Ascii List Bool Lia.
From stdpp Require Import base option list gmap strings.

Local Open Scope string_scope.
Local Open Scope Z_scope.

(** ** Numbers and strings as JavaScript sees them *)

Definition Qgtb (x y : Q) : bool := negb (Qle_bool x y).

Definition truthy (s : string) : bool := negb (String.eqb s "").

(** [a || b] on strings. *)
Definition orElse (a b : string) : string := if truthy a then a else b.

Definition code_of (c : ascii) : nat := nat_of_ascii c.

(** White space removed by [String.prototype.trim], restricted to code units
    below 256: TAB, LF, VT, FF, CR, SPACE and NBSP. *)
Definition is_space (c : ascii) : bool :=
  let n := code_of c in
  ((9 <=? n) && (n <=? 13) || (n =? 32) || (n =? 160))%nat.

Fixpoint trimStart (s : string) : string :=
  match s with
  | String c s' => if is_space c then trimStart s' else s
  | EmptyString => EmptyString
  end.

Fixpoint rev_string (acc s : string) : string :=
  match s with
  | String c s' => rev_string (String c acc) s'
  | EmptyString => acc
  end.

Definition trim (s : string) : string :=
  rev_string "" (trimStart (rev_string "" (trimStart s))).

(** [s.slice(0, n)]. *)
Fixpoint slice0 (n : nat) (s : string) : string :=
  match n, s with
  | S n', String c s' => String c (slice0 n' s')
  | _, _ => EmptyString
  end.

Fixpoint filter_string (p : ascii -> bool) (s : string) : string :=
  match s with
  | String c s' => if p c then String c (filter_string p s') else filter_string p s'
  | EmptyString => EmptyString
  end.

Fixpoint forall_string (p : ascii -> bool) (s : string) : bool :=
  match s with
  | String c s' => p c && forall_string p s'
  | EmptyString => true
  end.

Definition is_digit (c : ascii) : bool := ((48 <=? code_of c) && (code_of c <=? 57))%nat.
Definition is_upper (c : ascii) : bool := ((65 <=? code_of c) && (code_of c <=? 90))%nat.
Definition is_lower (c : ascii) : bool := ((97 <=? code_of c) && (code_of c <=? 122))%nat.

(** The character class [[0-9A-Z]]. *)
Definition is_code_char (c : ascii) : bool := is_digit c || is_upper c.

(** [String.prototype.toUpperCase] on code units below 256.  The sharp s
    becomes two letters; the micro sign and y-diaeresis map above 255 in the
    browser and are kept as they are here (neither they nor their images are in
    [[0-9A-Z]]). *)
Definition upper_char (c : ascii) : string :=
  let n := code_of c in
  if is_lower c then String (ascii_of_nat (n - 32)) ""
  else if (n =? 223)%nat then "SS"
  else if ((224 <=? n) && (n <=? 254) && negb (n =? 247))%nat
       then String (ascii_of_nat (n - 32)) ""
  else String c "".

Fixpoint toUpperCase (s : string) : string :=
  match s with
  | String c s' => upper_char c ++ toUpperCase s'
  | EmptyString => EmptyString
  end.

(** ** Data model *)

(** [media.type]: the three embed kinds the script names; anything else is
    played as a direct file. *)
Inductive MediaType := youtube | twitch_vod | twitch_live | direct_file.

Record MediaItem := {
  m_type : MediaType;
  m_id : string;
  m_url : string;
  m_display : string
}.

(** Frames from the relay, after [JSON.parse]. *)
Inductive Msg :=
| MPong (t : Q)
| MState (viewers : Q) (q : option (list MediaItem)) (host : option bool)
         (current : option MediaItem) (position : Q) (playing : bool)
| MHostUpdate (host : option bool)
| MLoad (q : option (list MediaItem)) (current : option MediaItem)
| MQueueUpdate (q : option (list MediaItem)) (nick : string)
| MPlay (position : Q) (nick : string)
| MPause (position : Q) (nick : string)
| MSeek (position : Q)
| MSyncResponse (position : Q) (playing : bool)
| MViewers (count : Q)
| MChat (nick text : string)
| MSystem (text : string)
| MUnknown (type : string).

(** Frames to the relay, before [JSON.stringify]. *)
Inductive OutMsg :=
| OJoin (nick : string)
| OPing (t : Z)
| OQueue (url nick : string)
| OSkip (nick : string)
| OChat (text nick : string)
| OPlay (position : Q) (nick : string)
| OPause (position : Q) (nick : string)
| OSeek (position : Q)
| OEnded
| OHostPosition (position : Q)
| OSyncRequest.

(** The closures handed to [setTimeout] and [setInterval]. *)
Inductive Callback :=
| CbConnect          (* setTimeout(connect, 100) *)
| CbHideToast        (* () => syncToast.classList.remove('show') *)
| CbPing             (* heartbeat *)
| CbHostReport       (* host cadence *)
| CbSyncPoll         (* non-host cadence *)
| CbClearRemote.     (* () => isRemoteAction = false *)

Record Timer := {
  t_cb : Callback;
  t_due : Z;                 (* earliest time of the next run *)
  t_period : option Z        (* None for setTimeout *)
}.

Inductive ReadyState := CONNECTING | OPEN | CLOSING | CLOSED.

Record WebSocket := { ws_url : string; readyState : ReadyState }.

(** The [<video id="directVideo">] element. [v_allowed] is the browser's
    autoplay permission: when it is off, [play()] returns a rejected
    promise, which the script swallows, and the element stays paused. *)
Record Video := {
  v_src : string;
  currentTime : Q;
  paused : bool;
  v_allowed : bool
}.

Inductive YTCmd := playVideo | pauseVideo | YTseekTo (t : Q) (allowSeekAhead : bool).

(** A [YT.Player] object.  Its methods exist only once the widget has
    reported ready ([yt_api]); commands are posted to the widget's frame
    ([yt_posted]) and the state and time it reports are cached values. *)
Record YTPlayer := {
  yt_videoId : string;
  yt_api : bool;
  yt_time : Q;
  yt_state : Z;
  yt_posted : list YTCmd
}.

(** [YT.PlayerState] *)
Definition YT_ENDED : Z := 0.
Definition YT_PLAYING : Z := 1.
Definition YT_PAUSED : Z := 2.
Definition YT_CUED : Z := 5.

(** What [playerContainer] holds. *)
Inductive Content :=
| CEmpty
| CYTPlayer                      (* the #ytplayer node driven by [ytPlayer] *)
| CYTEmbed (id : string)         (* bare YouTube frame, no control *)
| CTwitchVod (id : string)
| CTwitchLive (id : string)
| CVideo (v : Video).

Inductive StatusState := StConnected | StError | StDisconnected.

Record QueueRow := {
  qr_playing : bool;
  qr_index : nat;
  qr_title : string;
  qr_text : string
}.

Record ChatDiv := {
  cd_system : bool;
  cd_nick : option string;
  cd_text : string
}.

(** Observable actions, in the order the engine performs them. *)
Inductive Action :=
| ASuppress (b : bool)                          (* isRemoteAction = b *)
| ASeekTo (t : Q)                               (* seekTo(t) *)
| APlay                                         (* playMedia() *)
| APause                                        (* pauseMedia() *)
| AToast (text : string)
| AStatus (text : string) (st : StatusState)
| ASetTimeout (id : nat) (cb : Callback) (ms : Z)
| ASetInterval (id : nat) (cb : Callback) (ms : Z)
| AClearInterval (h : option nat)
| ANewSocket (s : nat) (url : string)
| ACloseSocket (s : nat)
| ASend (s : nat) (m : OutMsg).

(** ** The page state *)

(** The script's top-level [let] variables. *)
Record Globals := {
  socket : option nat;
  isRemoteAction : bool;
  lastSentSeek : Z;
  pingInterval : option nat;
  syncInterval : option nat;
  latency : Q;
  queue : list MediaItem;
  currentMedia : option MediaItem;
  ytPlayer : option YTPlayer;
  ytReady : bool;
  isHost : bool
}.

(** The DOM nodes the script reads and writes. *)
Record Dom := {
  roomInput : string;
  nickInput : string;
  urlInput : string;
  chatInput : string;
  statusText : string;
  statusDot : StatusState;
  addBtnDisabled : bool;
  chatPanelActive : bool;
  queuePanelActive : bool;
  queueList : list QueueRow;
  playerWrapperActive : bool;
  playerContainer : Content;
  syncToast : string;
  syncToastShown : bool;
  viewersEl : option (Q * string);
  chatMessages : list ChatDiv
}.

(** The browser: clock, timer table, WebSocket objects, location. *)
Record Browser := {
  clock : Z;
  timers : gmap nat Timer;
  nextTimer : nat;
  sockets : gmap nat WebSocket;
  nextSocket : nat;
  locationProtocol : string;
  locationHost : string;
  trace : list Action
}.

Record World := { js : Globals; dom : Dom; env : Browser }.

Definition set_socket (v : option nat) (r : Globals) : Globals :=
  {| socket := v; isRemoteAction := isRemoteAction r; lastSentSeek := lastSentSeek r;
     pingInterval := pingInterval r; syncInterval := syncInterval r; latency := latency r;
     queue := queue r; currentMedia := currentMedia r; ytPlayer := ytPlayer r;
     ytReady := ytReady r; isHost := isHost r |}.
Definition set_isRemoteAction (v : bool) (r : Globals) : Globals :=
  {| socket := socket r; isRemoteAction := v; lastSentSeek := lastSentSeek r;
     pingInterval := pingInterval r; syncInterval := syncInterval r; latency := latency r;
     queue := queue r; currentMedia := currentMedia r; ytPlayer := ytPlayer r;
     ytReady := ytReady r; isHost := isHost r |}.
Definition set_lastSentSeek (v : Z) (r : Globals) : Globals :=
  {| socket := socket r; isRemoteAction := isRemoteAction r; lastSentSeek := v;
     pingInterval := pingInterval r; syncInterval := syncInterval r; latency := latency r;
     queue := queue r; currentMedia := currentMedia r; ytPlayer := ytPlayer r;
     ytReady := ytReady r; isHost := isHost r |}.
Definition set_pingInterval (v : option nat) (r : Globals) : Globals :=
  {| socket := socket r; isRemoteAction := isRemoteAction r; lastSentSeek := lastSentSeek r;
     pingInterval := v; syncInterval := syncInterval r; latency := latency r; queue := queue r;
     currentMedia := currentMedia r; ytPlayer := ytPlayer r; ytReady := ytReady r;
     isHost := isHost r |}.
Definition set_syncInterval (v : option nat) (r : Globals) : Globals :=
  {| socket := socket r; isRemoteAction := isRemoteAction r; lastSentSeek := lastSentSeek r;
     pingInterval := pingInterval r; syncInterval := v; latency := latency r; queue := queue r;
     currentMedia := currentMedia r; ytPlayer := ytPlayer r; ytReady := ytReady r;
     isHost := isHost r |}.
Definition set_latency (v : Q) (r : Globals) : Globals :=
  {| socket := socket r; isRemoteAction := isRemoteAction r; lastSentSeek := lastSentSeek r;
     pingInterval := pingInterval r; syncInterval := syncInterval r; latency := v;
     queue := queue r; currentMedia := currentMedia r; ytPlayer := ytPlayer r;
     ytReady := ytReady r; isHost := isHost r |}.
Definition set_queue (v : list MediaItem) (r : Globals) : Globals :=
  {| socket := socket r; isRemoteAction := isRemoteAction r; lastSentSeek := lastSentSeek r;
     pingInterval := pingInterval r; syncInterval := syncInterval r; latency := latency r;
     queue := v; currentMedia := currentMedia r; ytPlayer := ytPlayer r; ytReady := ytReady r;
     isHost := isHost r |}.
Definition set_currentMedia (v : option MediaItem) (r : Globals) : Globals :=
  {| socket := socket r; isRemoteAction := isRemoteAction r; lastSentSeek := lastSentSeek r;
     pingInterval := pingInterval r; syncInterval := syncInterval r; latency := latency r;
     queue := queue r; currentMedia := v; ytPlayer := ytPlayer r; ytReady := ytReady r;
     isHost := isHost r |}.
Definition set_ytPlayer (v : option YTPlayer) (r : Globals) : Globals :=
  {| socket := socket r; isRemoteAction := isRemoteAction r; lastSentSeek := lastSentSeek r;
     pingInterval := pingInterval r; syncInterval := syncInterval r; latency := latency r;
     queue := queue r; currentMedia := currentMedia r; ytPlayer := v; ytReady := ytReady r;
     isHost := isHost r |}.
Definition set_ytReady (v : bool) (r : Globals) : Globals :=
  {| socket := socket r; isRemoteAction := isRemoteAction r; lastSentSeek := lastSentSeek r;
     pingInterval := pingInterval r; syncInterval := syncInterval r; latency := latency r;
     queue := queue r; currentMedia := currentMedia r; ytPlayer := ytPlayer r; ytReady := v;
     isHost := isHost r |}.
Definition set_isHost (v : bool) (r : Globals) : Globals :=
  {| socket := socket r; isRemoteAction := isRemoteAction r; lastSentSeek := lastSentSeek r;
     pingInterval := pingInterval r; syncInterval := syncInterval r; latency := latency r;
     queue := queue r; currentMedia := currentMedia r; ytPlayer := ytPlayer r;
     ytReady := ytReady r; isHost := v |}.

Definition set_roomInput (v : string) (r : Dom) : Dom :=
  {| roomInput := v; nickInput := nickInput r; urlInput := urlInput r;
     chatInput := chatInput r; statusText := statusText r; statusDot := statusDot r;
     addBtnDisabled := addBtnDisabled r; chatPanelActive := chatPanelActive r;
     queuePanelActive := queuePanelActive r; queueList := queueList r;
     playerWrapperActive := playerWrapperActive r; playerContainer := playerContainer r;
     syncToast := syncToast r; syncToastShown := syncToastShown r; viewersEl := viewersEl r;
     chatMessages := chatMessages r |}.
Definition set_nickInput (v : string) (r : Dom) : Dom :=
  {| roomInput := roomInput r; nickInput := v; urlInput := urlInput r;
     chatInput := chatInput r; statusText := statusText r; statusDot := statusDot r;
     addBtnDisabled := addBtnDisabled r; chatPanelActive := chatPanelActive r;
     queuePanelActive := queuePanelActive r; queueList := queueList r;
     playerWrapperActive := playerWrapperActive r; playerContainer := playerContainer r;
     syncToast := syncToast r; syncToastShown := syncToastShown r; viewersEl := viewersEl r;
     chatMessages := chatMessages r |}.
Definition set_urlInput (v : string) (r : Dom) : Dom :=
  {| roomInput := roomInput r; nickInput := nickInput r; urlInput := v;
     chatInput := chatInput r; statusText := statusText r; statusDot := statusDot r;
     addBtnDisabled := addBtnDisabled r; chatPanelActive := chatPanelActive r;
     queuePanelActive := queuePanelActive r; queueList := queueList r;
     playerWrapperActive := playerWrapperActive r; playerContainer := playerContainer r;
     syncToast := syncToast r; syncToastShown := syncToastShown r; viewersEl := viewersEl r;
     chatMessages := chatMessages r |}.
Definition set_chatInput (v : string) (r : Dom) : Dom :=
  {| roomInput := roomInput r; nickInput := nickInput r; urlInput := urlInput r;
     chatInput := v; statusText := statusText r; statusDot := statusDot r;
     addBtnDisabled := addBtnDisabled r; chatPanelActive := chatPanelActive r;
     queuePanelActive := queuePanelActive r; queueList := queueList r;
     playerWrapperActive := playerWrapperActive r; playerContainer := playerContainer r;
     syncToast := syncToast r; syncToastShown := syncToastShown r; viewersEl := viewersEl r;
     chatMessages := chatMessages r |}.
Definition set_statusText (v : string) (r : Dom) : Dom :=
  {| roomInput := roomInput r; nickInput := nickInput r; urlInput := urlInput r;
     chatInput := chatInput r; statusText := v; statusDot := statusDot r;
     addBtnDisabled := addBtnDisabled r; chatPanelActive := chatPanelActive r;
     queuePanelActive := queuePanelActive r; queueList := queueList r;
     playerWrapperActive := playerWrapperActive r; playerContainer := playerContainer r;
     syncToast := syncToast r; syncToastShown := syncToastShown r; viewersEl := viewersEl r;
     chatMessages := chatMessages r |}.
Definition set_statusDot (v : StatusState) (r : Dom) : Dom :=
  {| roomInput := roomInput r; nickInput := nickInput r; urlInput := urlInput r;
     chatInput := chatInput r; statusText := statusText r; statusDot := v;
     addBtnDisabled := addBtnDisabled r; chatPanelActive := chatPanelActive r;
     queuePanelActive := queuePanelActive r; queueList := queueList r;
     playerWrapperActive := playerWrapperActive r; playerContainer := playerContainer r;
     syncToast := syncToast r; syncToastShown := syncToastShown r; viewersEl := viewersEl r;
     chatMessages := chatMessages r |}.
Definition set_addBtnDisabled (v : bool) (r : Dom) : Dom :=
  {| roomInput := roomInput r; nickInput := nickInput r; urlInput := urlInput r;
     chatInput := chatInput r; statusText := statusText r; statusDot := statusDot r;
     addBtnDisabled := v; chatPanelActive := chatPanelActive r;
     queuePanelActive := queuePanelActive r; queueList := queueList r;
     playerWrapperActive := playerWrapperActive r; playerContainer := playerContainer r;
     syncToast := syncToast r; syncToastShown := syncToastShown r; viewersEl := viewersEl r;
     chatMessages := chatMessages r |}.
Definition set_chatPanelActive (v : bool) (r : Dom) : Dom :=
  {| roomInput := roomInput r; nickInput := nickInput r; urlInput := urlInput r;
     chatInput := chatInput r; statusText := statusText r; statusDot := statusDot r;
     addBtnDisabled := addBtnDisabled r; chatPanelActive := v;
     queuePanelActive := queuePanelActive r; queueList := queueList r;
     playerWrapperActive := playerWrapperActive r; playerContainer := playerContainer r;
     syncToast := syncToast r; syncToastShown := syncToastShown r; viewersEl := viewersEl r;
     chatMessages := chatMessages r |}.
Definition set_queuePanelActive (v : bool) (r : Dom) : Dom :=
  {| roomInput := roomInput r; nickInput := nickInput r; urlInput := urlInput r;
     chatInput := chatInput r; statusText := statusText r; statusDot := statusDot r;
     addBtnDisabled := addBtnDisabled r; chatPanelActive := chatPanelActive r;
     queuePanelActive := v; queueList := queueList r;
     playerWrapperActive := playerWrapperActive r; playerContainer := playerContainer r;
     syncToast := syncToast r; syncToastShown := syncToastShown r; viewersEl := viewersEl r;
     chatMessages := chatMessages r |}.
Definition set_queueList (v : list QueueRow) (r : Dom) : Dom :=
  {| roomInput := roomInput r; nickInput := nickInput r; urlInput := urlInput r;
     chatInput := chatInput r; statusText := statusText r; statusDot := statusDot r;
     addBtnDisabled := addBtnDisabled r; chatPanelActive := chatPanelActive r;
     queuePanelActive := queuePanelActive r; queueList := v;
     playerWrapperActive := playerWrapperActive r; playerContainer := playerContainer r;
     syncToast := syncToast r; syncToastShown := syncToastShown r; viewersEl := viewersEl r;
     chatMessages := chatMessages r |}.
Definition set_playerWrapperActive (v : bool) (r : Dom) : Dom :=
  {| roomInput := roomInput r; nickInput := nickInput r; urlInput := urlInput r;
     chatInput := chatInput r; statusText := statusText r; statusDot := statusDot r;
     addBtnDisabled := addBtnDisabled r; chatPanelActive := chatPanelActive r;
     queuePanelActive := queuePanelActive r; queueList := queueList r;
     playerWrapperActive := v; playerContainer := playerContainer r; syncToast := syncToast r;
     syncToastShown := syncToastShown r; viewersEl := viewersEl r;
     chatMessages := chatMessages r |}.
Definition set_playerContainer (v : Content) (r : Dom) : Dom :=
  {| roomInput := roomInput r; nickInput := nickInput r; urlInput := urlInput r;
     chatInput := chatInput r; statusText := statusText r; statusDot := statusDot r;
     addBtnDisabled := addBtnDisabled r; chatPanelActive := chatPanelActive r;
     queuePanelActive := queuePanelActive r; queueList := queueList r;
     playerWrapperActive := playerWrapperActive r; playerContainer := v;
     syncToast := syncToast r; syncToastShown := syncToastShown r; viewersEl := viewersEl r;
     chatMessages := chatMessages r |}.
Definition set_syncToast (v : string) (r : Dom) : Dom :=
  {| roomInput := roomInput r; nickInput := nickInput r; urlInput := urlInput r;
     chatInput := chatInput r; statusText := statusText r; statusDot := statusDot r;
     addBtnDisabled := addBtnDisabled r; chatPanelActive := chatPanelActive r;
     queuePanelActive := queuePanelActive r; queueList := queueList r;
     playerWrapperActive := playerWrapperActive r; playerContainer := playerContainer r;
     syncToast := v; syncToastShown := syncToastShown r; viewersEl := viewersEl r;
     chatMessages := chatMessages r |}.
Definition set_syncToastShown (v : bool) (r : Dom) : Dom :=
  {| roomInput := roomInput r; nickInput := nickInput r; urlInput := urlInput r;
     chatInput := chatInput r; statusText := statusText r; statusDot := statusDot r;
     addBtnDisabled := addBtnDisabled r; chatPanelActive := chatPanelActive r;
     queuePanelActive := queuePanelActive r; queueList := queueList r;
     playerWrapperActive := playerWrapperActive r; playerContainer := playerContainer r;
     syncToast := syncToast r; syncToastShown := v; viewersEl := viewersEl r;
     chatMessages := chatMessages r |}.
Definition set_viewersEl (v : option (Q * string)) (r : Dom) : Dom :=
  {| roomInput := roomInput r; nickInput := nickInput r; urlInput := urlInput r;
     chatInput := chatInput r; statusText := statusText r; statusDot := statusDot r;
     addBtnDisabled := addBtnDisabled r; chatPanelActive := chatPanelActive r;
     queuePanelActive := queuePanelActive r; queueList := queueList r;
     playerWrapperActive := playerWrapperActive r; playerContainer := playerContainer r;
     syncToast := syncToast r; syncToastShown := syncToastShown r; viewersEl := v;
     chatMessages := chatMessages r |}.
Definition set_chatMessages (v : list ChatDiv) (r : Dom) : Dom :=
  {| roomInput := roomInput r; nickInput := nickInput r; urlInput := urlInput r;
     chatInput := chatInput r; statusText := statusText r; statusDot := statusDot r;
     addBtnDisabled := addBtnDisabled r; chatPanelActive := chatPanelActive r;
     queuePanelActive := queuePanelActive r; queueList := queueList r;
     playerWrapperActive := playerWrapperActive r; playerContainer := playerContainer r;
     syncToast := syncToast r; syncToastShown := syncToastShown r; viewersEl := viewersEl r;
     chatMessages := v |}.

Definition set_clock (v : Z) (r : Browser) : Browser :=
  {| clock := v; timers := timers r; nextTimer := nextTimer r; sockets := sockets r;
     nextSocket := nextSocket r; locationProtocol := locationProtocol r;
     locationHost := locationHost r; trace := trace r |}.
Definition set_timers (v : gmap nat Timer) (r : Browser) : Browser :=
  {| clock := clock r; timers := v; nextTimer := nextTimer r; sockets := sockets r;
     nextSocket := nextSocket r; locationProtocol := locationProtocol r;
     locationHost := locationHost r; trace := trace r |}.
Definition set_nextTimer (v : nat) (r : Browser) : Browser :=
  {| clock := clock r; timers := timers r; nextTimer := v; sockets := sockets r;
     nextSocket := nextSocket r; locationProtocol := locationProtocol r;
     locationHost := locationHost r; trace := trace r |}.
Definition set_sockets (v : gmap nat WebSocket) (r : Browser) : Browser :=
  {| clock := clock r; timers := timers r; nextTimer := nextTimer r; sockets := v;
     nextSocket := nextSocket r; locationProtocol := locationProtocol r;
     locationHost := locationHost r; trace := trace r |}.
Definition set_nextSocket (v : nat) (r : Browser) : Browser :=
  {| clock := clock r; timers := timers r; nextTimer := nextTimer r; sockets := sockets r;
     nextSocket := v; locationProtocol := locationProtocol r; locationHost := locationHost r;
     trace := trace r |}.
Definition set_locationProtocol (v : string) (r : Browser) : Browser :=
  {| clock := clock r; timers := timers r; nextTimer := nextTimer r; sockets := sockets r;
     nextSocket := nextSocket r; locationProtocol := v; locationHost := locationHost r;
     trace := trace r |}.
Definition set_locationHost (v : string) (r : Browser) : Browser :=
  {| clock := clock r; timers := timers r; nextTimer := nextTimer r; sockets := sockets r;
     nextSocket := nextSocket r; locationProtocol := locationProtocol r; locationHost := v;
     trace := trace r |}.
Definition set_trace (v : list Action) (r : Browser) : Browser :=
  {| clock := clock r; timers := timers r; nextTimer := nextTimer r; sockets := sockets r;
     nextSocket := nextSocket r; locationProtocol := locationProtocol r;
     locationHost := locationHost r; trace := v |}.


Definition on_js (f : Globals -> Globals) (w : World) : World :=
  {| js := f (js w); dom := dom w; env := env w |}.
Definition on_dom (f : Dom -> Dom) (w : World) : World :=
  {| js := js w; dom := f (dom w); env := env w |}.
Definition on_env (f : Browser -> Browser) (w : World) : World :=
  {| js := js w; dom := dom w; env := f (env w) |}.

(** ** The handler monad: state and JavaScript exceptions *)

Inductive Exn := TypeError | InvalidStateError | SyntaxError.

Inductive Outcome (A : Type) :=
| Ok (a : A)
| Throw (e : Exn).
Arguments Ok {A} a.
Arguments Throw {A} e.

(** A computation runs from a page state to a page state and either returns
    or throws; what it changed before throwing stays changed. *)
Definition M (A : Type) : Type := World -> World * Outcome A.

Definition ret {A} (a : A) : M A := fun w => (w, Ok a).

Definition bind {A B} (m : M A) (f : A -> M B) : M B :=
  fun w => match m w with
           | (w', Ok a) => f a w'
           | (w', Throw e) => (w', Throw e)
           end.

Definition throw {A} (e : Exn) : M A := fun w => (w, Throw e).
Definition gets {A} (f : World -> A) : M A := fun w => (w, Ok (f w)).
Definition modify (f : World -> World) : M unit := fun w => (f w, Ok tt).

Declare Scope js_scope.
Delimit Scope js_scope with js.
Notation "x <- m ;; k" := (bind m (fun x => k))
  (at level 100, m at next level, right associativity) : js_scope.
Notation "m ;; k" := (bind m (fun _ => k))
  (at level 100, right associativity) : js_scope.
Local Open Scope js_scope.

(** [if (b) m] *)
Definition when (b : bool) (m : M unit) : M unit := if b then m else ret tt.

(** The page after a handler has run, whether it returned or threw. *)
Definition exec {A} (m : M A) (w : World) : World := fst (m w).

(** What a computation appended to the trace. *)
Definition did {A} (m : M A) (w : World) : list Action :=
  drop (length (trace (env w))) (trace (env (exec m w))).

(** Records an action at the end of the trace. *)
Definition log (a : Action) : M unit :=
  modify (on_env (fun b => set_trace (trace b ++ [a]) b)).

(** ** Browser services *)

Definition Date_now : M Z := gets (fun w => clock (env w)).

Definition setTimeout (cb : Callback) (ms : Z) : M nat :=
  id <- gets (fun w => nextTimer (env w)) ;;
  modify (on_env (fun b =>
    set_nextTimer (S id)
      (set_timers (<[id := {| t_cb := cb; t_due := clock b + ms; t_period := None |}]>
                     (timers b)) b))) ;;
  log (ASetTimeout id cb ms) ;;
  ret id.

Definition setInterval (cb : Callback) (ms : Z) : M nat :=
  id <- gets (fun w => nextTimer (env w)) ;;
  modify (on_env (fun b =>
    set_nextTimer (S id)
      (set_timers (<[id := {| t_cb := cb; t_due := clock b + ms; t_period := Some ms |}]>
                     (timers b)) b))) ;;
  log (ASetInterval id cb ms) ;;
  ret id.

(** [clearInterval(h)]; a null or stale handle clears nothing. *)
Definition clearInterval (h : option nat) : M unit :=
  match h with
  | Some id => modify (on_env (fun b => set_timers (delete id (timers b)) b))
  | None => ret tt
  end ;;
  log (AClearInterval h).

(** The URL has a [#] in it. *)
Definition has_fragment (url : string) : bool :=
  match String.index 0 "#" url with Some _ => true | None => false end.

(** [new WebSocket(url)]: refused with a SyntaxError when the URL carries a
    fragment. *)
Definition newWebSocket (url : string) : M nat :=
  if has_fragment url then throw SyntaxError
  else
    s <- gets (fun w => nextSocket (env w)) ;;
    modify (on_env (fun b =>
      set_nextSocket (S s)
        (set_sockets (<[s := {| ws_url := url; readyState := CONNECTING |}]> (sockets b)) b))) ;;
    log (ANewSocket s url) ;;
    ret s.

Definition stateOf (w : World) (s : nat) : option ReadyState :=
  readyState <$> sockets (env w) !! s.

Definition set_readyState (s : nat) (st : ReadyState) (b : Browser) : Browser :=
  set_sockets (alter (fun k => {| ws_url := ws_url k; readyState := st |}) s (sockets b)) b.

(** [s.close()]: an open or connecting socket starts closing. *)
Definition ws_close (s : nat) : M unit :=
  st <- gets (fun w => stateOf w s) ;;
  match st with
  | Some CONNECTING | Some OPEN => modify (on_env (set_readyState s CLOSING))
  | _ => ret tt
  end ;;
  log (ACloseSocket s).

(** [socket?.readyState === WebSocket.OPEN] *)
Definition socketOpen (w : World) : bool :=
  match socket (js w) with
  | Some s => match stateOf w s with Some OPEN => true | _ => false end
  | None => false
  end.

(** [socket.send(JSON.stringify(m))] on the current value of [socket]: throws
    on null and on a socket still connecting, drops the frame on a socket that
    is closing or closed. *)
Definition socket_send (m : OutMsg) : M unit :=
  so <- gets (fun w => socket (js w)) ;;
  match so with
  | None => throw TypeError
  | Some s =>
    st <- gets (fun w => stateOf w s) ;;
    match st with
    | Some OPEN => log (ASend s m)
    | Some CONNECTING => throw InvalidStateError
    | _ => ret tt
    end
  end.

(** ** The script *)

Definition SYNC_TOLERANCE : Q := 3.
Definition HOST_REPORT_INTERVAL : Z := 5000.
Definition SYNC_CHECK_INTERVAL : Z := 10000.

Definition chars : string := "0123456789ABCDEFGHIJKLMNOPQRSTUVWXYZ".

(** [chars[Math.floor(r * 36)]] as [join] renders it: an index out of range
    gives [undefined], which [join] turns into the empty string. *)
Definition pick (r : Q) : string :=
  match String.get (Z.to_nat (Qfloor (r * 36))) chars with
  | Some c => String c ""
  | None => ""
  end.

(** [generateCode], given the values [Math.random()] returns. *)

Definition generateCode (rs : list Q) : string :=
  String.concat "" (map pick (take 6 rs)).

Definition getNick (w : World) : string := orElse (trim (nickInput (dom w))) "Guest".

Definition setStatus (text : string) (state : StatusState) : M unit :=
  modify (on_dom (fun d => set_statusDot state (set_statusText text d))) ;;
  log (AStatus text state).

Definition showToast (msg : string) : M unit :=
  modify (on_dom (fun d => set_syncToastShown true (set_syncToast msg d))) ;;
  log (AToast msg) ;;
  _ <- setTimeout CbHideToast 2000 ;;
  ret tt.

Definition updateHostIndicator : M unit :=
  open <- gets socketOpen ;;
  when open (
    host <- gets (fun w => isHost (js w)) ;;
    let hostText := if host then " (Host)" else "" in
    setStatus ("Connected" ++ hostText) StConnected).

Definition addToQueue : M unit :=
  url <- gets (fun w => trim (urlInput (dom w))) ;;
  open <- gets socketOpen ;;
  if negb (truthy url) || negb open then ret tt
  else
    nick <- gets getNick ;;
    socket_send (OQueue url nick) ;;
    modify (on_dom (set_urlInput "")).

Definition sendChat : M unit :=
  text <- gets (fun w => trim (chatInput (dom w))) ;;
  open <- gets socketOpen ;;
  if negb (truthy text) || negb open then ret tt
  else
    nick <- gets getNick ;;
    socket_send (OChat text nick) ;;
    modify (on_dom (set_chatInput "")).

(** [while (children.length > 100) removeChild(firstChild)] *)
Fixpoint trimChat (l : list ChatDiv) : list ChatDiv :=
  match l with
  | [] => []
  | _ :: l' => if (100 <? length l)%nat then trimChat l' else l
  end.

Definition addChatMessage (nick : option string) (text : string) (isSystem : bool) : M unit :=
  let div := {| cd_system := isSystem;
                cd_nick := if isSystem then None else nick;
                cd_text := text |} in
  modify (on_dom (fun d => set_chatMessages (chatMessages d ++ [div]) d)) ;;
  modify (on_dom (fun d => set_chatMessages (trimChat (chatMessages d)) d)).

Definition queueRow (i : nat) (item : MediaItem) : QueueRow :=
  let display := orElse (m_display item) (orElse (m_url item) "Unknown") in
  let shortDisplay :=
    if (45 <? String.length display)%nat then slice0 42 display ++ "..." else display in
  {| qr_playing := (i =? 0)%nat; qr_index := i + 1; qr_title := display;
     qr_text := shortDisplay |}.

Definition renderQueue : M unit :=
  q <- gets (fun w => queue (js w)) ;;
  open <- gets socketOpen ;;
  modify (on_dom (set_queuePanelActive ((0 <? length q)%nat || open))) ;;
  modify (on_dom (set_queueList (imap queueRow q))).

Definition startSyncIntervals : M unit :=
  h <- gets (fun w => syncInterval (js w)) ;;
  clearInterval h ;;
  host <- gets (fun w => isHost (js w)) ;;
  if host then
    id <- setInterval CbHostReport HOST_REPORT_INTERVAL ;;
    modify (on_js (set_syncInterval (Some id)))
  else
    id <- setInterval CbSyncPoll SYNC_CHECK_INTERVAL ;;
    modify (on_js (set_syncInterval (Some id))).

Definition connect : M unit :=
  code <- gets (fun w => trim (roomInput (dom w))) ;;
  if negb (String.length code =? 6)%nat then setStatus "Enter 6-char code" StError
  else
    old <- gets (fun w => socket (js w)) ;;
    match old with Some s => ws_close s | None => ret tt end ;;
    setStatus "Connecting..." StDisconnected ;;
    proto <- gets (fun w => locationProtocol (env w)) ;;
    host <- gets (fun w => locationHost (env w)) ;;
    let protocol := if String.eqb proto "https:" then "wss:" else "ws:" in
    s <- newWebSocket (protocol ++ "//" ++ host ++ "/ws/" ++ code) ;;
    modify (on_js (set_socket (Some s))).

(** [$('directVideo')] *)
Definition directVideo (w : World) : option Video :=
  match playerContainer (dom w) with
  | CVideo v => Some v
  | _ => None
  end.

(** [if (v) ...]: act on the element when there is one. *)
Definition set_video (f : Video -> Video) : M unit :=
  modify (on_dom (fun d =>
    match playerContainer d with
    | CVideo v => set_playerContainer (CVideo (f v)) d
    | _ => d
    end)).

(** [ytPlayer?.method]: the player exists and its methods are installed. *)
Definition ytMethods (w : World) : option YTPlayer :=
  match ytPlayer (js w) with
  | Some p => if yt_api p then Some p else None
  | None => None
  end.

(** [if (ytPlayer?.method) ytPlayer.method(...)]: the command is posted to
    the widget; the state and time the player object reports do not change
    until the widget answers. *)
Definition yt_post (c : YTCmd) : M unit :=
  modify (on_js (fun g =>
    match ytPlayer g with
    | Some p =>
      if yt_api p then
        set_ytPlayer (Some {| yt_videoId := yt_videoId p; yt_api := yt_api p;
                              yt_time := yt_time p; yt_state := yt_state p;
                              yt_posted := yt_posted p ++ [c] |}) g
      else g
    | None => g
    end)).

(** [v.play().catch(() => {})], [v.pause()], [v.currentTime = t] *)
Definition v_play (v : Video) : Video :=
  {| v_src := v_src v; currentTime := currentTime v;
     paused := if v_allowed v then false else paused v; v_allowed := v_allowed v |}.
Definition v_pause (v : Video) : Video :=
  {| v_src := v_src v; currentTime := currentTime v; paused := true;
     v_allowed := v_allowed v |}.
Definition v_seek (t : Q) (v : Video) : Video :=
  {| v_src := v_src v; currentTime := t; paused := paused v; v_allowed := v_allowed v |}.

Definition playMedia : M unit :=
  log APlay ;;
  yt_post playVideo ;;
  set_video v_play.

Definition pauseMedia : M unit :=
  log APause ;;
  yt_post pauseVideo ;;
  set_video v_pause.

Definition seekTo (time : Q) : M unit :=
  log (ASeekTo time) ;;
  yt_post (YTseekTo time true) ;;
  set_video (v_seek time).

Definition getPosition (w : World) : Q :=
  match ytMethods w with
  | Some p => yt_time p
  | None => match directVideo w with
            | Some v => currentTime v
            | None => 0%Q
            end
  end.

Definition isPaused (w : World) : bool :=
  match ytMethods w with
  | Some p =>
    let state := yt_state p in
    (state =? YT_PAUSED) || (state =? YT_CUED) || (state =? -1)
  | None => match directVideo w with
            | Some v => paused v
            | None => true
            end
  end.

(** [isRemoteAction = b] *)
Definition setRemote (b : bool) : M unit :=
  modify (on_js (set_isRemoteAction b)) ;;
  log (ASuppress b).

(** [setTimeout(() => isRemoteAction = false, 100)] *)
Definition clearRemoteLater : M unit :=
  _ <- setTimeout CbClearRemote 100 ;;
  ret tt.

Definition loadMedia (media : MediaItem) : M unit :=
  modify (on_js (set_currentMedia (Some media))) ;;
  modify (on_dom (set_playerWrapperActive true)) ;;
  modify (on_dom (set_playerContainer CEmpty)) ;;
  match m_type media with
  | youtube =>
    ready <- gets (fun w => ytReady (js w)) ;;
    if ready then
      modify (on_dom (set_playerContainer CYTPlayer)) ;;
      modify (on_js (set_ytPlayer
        (Some {| yt_videoId := m_id media; yt_api := false; yt_time := 0%Q;
                 yt_state := -1; yt_posted := [] |})))
    else modify (on_dom (set_playerContainer (CYTEmbed (m_id media))))
  | twitch_vod => modify (on_dom (set_playerContainer (CTwitchVod (m_id media))))
  | twitch_live => modify (on_dom (set_playerContainer (CTwitchLive (m_id media))))
  | direct_file =>
    modify (on_dom (set_playerContainer
      (CVideo {| v_src := m_url media; currentTime := 0%Q; paused := true;
                 v_allowed := true |})))
  end.

Definition clearPlayer : M unit :=
  modify (on_dom (set_playerContainer CEmpty)) ;;
  modify (on_dom (set_playerWrapperActive false)) ;;
  modify (on_js (set_ytPlayer None)) ;;
  modify (on_js (set_currentMedia None)).

(** [' viewer' + (n === 1 ? '' : 's')] *)
Definition plural (n : Q) : string := if Qeq_bool n 1 then " viewer" else " viewers".

Definition handleMessage (msg : Msg) : M unit :=
  match msg with
  | MPong t =>
    now <- Date_now ;;
    modify (on_js (set_latency ((inject_Z now - t) / 2)%Q))

  | MState viewers q host current position playing =>
    modify (on_dom (set_viewersEl (Some (viewers, plural viewers)))) ;;
    modify (on_js (set_queue (default [] q))) ;;
    modify (on_js (set_isHost (default false host))) ;;
    updateHostIndicator ;;
    startSyncIntervals ;;
    renderQueue ;;
    match current with
    | Some media =>
      loadMedia media ;;
      when (Qgtb position 0) (seekTo position) ;;
      when playing playMedia
    | None => ret tt
    end

  | MHostUpdate host =>
    wasHost <- gets (fun w => isHost (js w)) ;;
    modify (on_js (set_isHost (default false host))) ;;
    updateHostIndicator ;;
    nowHost <- gets (fun w => isHost (js w)) ;;
    when (negb (eqb wasHost nowHost)) (
      startSyncIntervals ;;
      when nowHost (showToast "You are now the host"))

  | MLoad q current =>
    modify (on_js (set_queue (default [] q))) ;;
    renderQueue ;;
    match current with
    | Some media => loadMedia media ;; showToast "Now playing"
    | None => clearPlayer ;; showToast "Queue empty"
    end

  | MQueueUpdate q nick =>
    modify (on_js (set_queue (default [] q))) ;;
    renderQueue ;;
    when (truthy nick) (addChatMessage None (nick ++ " added to queue") true)

  | MPlay position nick =>
    setRemote true ;;
    lat <- gets (fun w => latency (js w)) ;;
    seekTo (position + lat / 1000)%Q ;;
    playMedia ;;
    showToast (if truthy nick then nick ++ " played" else "Playing") ;;
    clearRemoteLater

  | MPause position nick =>
    setRemote true ;;
    pauseMedia ;;
    seekTo position ;;
    showToast (if truthy nick then nick ++ " paused" else "Paused") ;;
    clearRemoteLater

  | MSeek position =>
    pos <- gets getPosition ;;
    when (Qgtb (Qabs (pos - position)) SYNC_TOLERANCE) (
      setRemote true ;;
      seekTo position ;;
      showToast "Synced" ;;
      clearRemoteLater)

  | MSyncResponse position playing =>
    host <- gets (fun w => isHost (js w)) ;;
    cur <- gets (fun w => currentMedia (js w)) ;;
    when (negb host && bool_decide (is_Some cur)) (
      pos <- gets getPosition ;;
      let diff := Qabs (pos - position) in
      when (Qgtb diff SYNC_TOLERANCE) (
        setRemote true ;;
        seekTo position ;;
        showToast "Synced to host" ;;
        clearRemoteLater) ;;
      p <- gets isPaused ;;
      if playing && p then
        setRemote true ;;
        playMedia ;;
        clearRemoteLater
      else
        p' <- gets isPaused ;;
        when (negb playing && negb p') (
          setRemote true ;;
          pauseMedia ;;
          clearRemoteLater))

  | MViewers count =>
    modify (on_dom (set_viewersEl (Some (count, plural count))))

  | MChat nick text => addChatMessage (Some nick) text false
  | MSystem text => addChatMessage None text true
  | MUnknown _ => ret tt
  end.

(** *** Listeners of the direct-file element; [video] is the element the
    listener was attached to. *)

Definition onVideoPlay (video : Video) : M unit :=
  remote <- gets (fun w => isRemoteAction (js w)) ;;
  open <- gets socketOpen ;;
  when (negb remote && open) (
    nick <- gets getNick ;;
    socket_send (OPlay (currentTime video) nick)).

Definition onVideoPause (video : Video) : M unit :=
  remote <- gets (fun w => isRemoteAction (js w)) ;;
  open <- gets socketOpen ;;
  when (negb remote && open) (
    nick <- gets getNick ;;
    socket_send (OPause (currentTime video) nick)).

Definition onVideoSeeked (video : Video) : M unit :=
  now <- Date_now ;;
  remote <- gets (fun w => isRemoteAction (js w)) ;;
  open <- gets socketOpen ;;
  last <- gets (fun w => lastSentSeek (js w)) ;;
  when (negb remote && open && (300 <? now - last)) (
    modify (on_js (set_lastSentSeek now)) ;;
    socket_send (OSeek (currentTime video))).

Definition onVideoEnded : M unit :=
  open <- gets socketOpen ;;
  when open (socket_send OEnded).

(** [ytPlayer.getCurrentTime()], unguarded. *)
Definition yt_getCurrentTime : M Q :=
  p <- gets ytMethods ;;
  match p with
  | Some p => ret (yt_time p)
  | None => throw TypeError
  end.

Definition onYTStateChange (data : Z) : M unit :=
  remote <- gets (fun w => isRemoteAction (js w)) ;;
  open <- gets socketOpen ;;
  if remote || negb open then ret tt
  else if data =? YT_PLAYING then
    t <- yt_getCurrentTime ;;
    nick <- gets getNick ;;
    socket_send (OPlay t nick)
  else if data =? YT_PAUSED then
    t <- yt_getCurrentTime ;;
    nick <- gets getNick ;;
    socket_send (OPause t nick)
  else if data =? YT_ENDED then socket_send OEnded
  else ret tt.

(** *** Handlers installed on every socket by [connect] *)

Definition onopen : M unit :=
  setStatus "Connected" StConnected ;;
  modify (on_dom (set_addBtnDisabled false)) ;;
  modify (on_dom (set_chatPanelActive true)) ;;
  renderQueue ;;
  nick <- gets getNick ;;
  socket_send (OJoin nick) ;;
  id <- setInterval CbPing 5000 ;;
  modify (on_js (set_pingInterval (Some id))) ;;
  now <- Date_now ;;
  socket_send (OPing now).

Definition onclose : M unit :=
  setStatus "Disconnected" StDisconnected ;;
  modify (on_dom (set_addBtnDisabled true)) ;;
  p <- gets (fun w => pingInterval (js w)) ;;
  clearInterval p ;;
  s <- gets (fun w => syncInterval (js w)) ;;
  clearInterval s ;;
  modify (on_js (set_isHost false)).

Definition onerror : M unit := setStatus "Connection failed" StError.

Definition onmessage (msg : Msg) : M unit := handleMessage msg.

(** *** Timer callbacks *)

Definition runCallback (cb : Callback) : M unit :=
  match cb with
  | CbConnect => connect
  | CbHideToast => modify (on_dom (set_syncToastShown false))
  | CbPing =>
    open <- gets socketOpen ;;
    when open (now <- Date_now ;; socket_send (OPing now))
  | CbHostReport =>
    open <- gets socketOpen ;;
    cur <- gets (fun w => currentMedia (js w)) ;;
    when (open && bool_decide (is_Some cur)) (
      pos <- gets getPosition ;;
      socket_send (OHostPosition pos))
  | CbSyncPoll =>
    open <- gets socketOpen ;;
    cur <- gets (fun w => currentMedia (js w)) ;;
    when (open && bool_decide (is_Some cur)) (socket_send OSyncRequest)
  | CbClearRemote => setRemote false
  end.

(** *** Listeners of the page controls *)

(** [value.toUpperCase().replace(/[^0-9A-Z]/g, '').slice(0, 6)] *)
Definition sanitize (value : string) : string :=
  slice0 6 (filter_string is_code_char (toUpperCase value)).

Definition onRoomInput : M unit :=
  modify (on_dom (fun d => set_roomInput (sanitize (roomInput d)) d)).

Definition onNewRoom (rs : list Q) : M unit :=
  modify (on_dom (set_roomInput (generateCode rs))) ;;
  connect.

Definition onSkip : M unit :=
  open <- gets socketOpen ;;
  when open (nick <- gets getNick ;; socket_send (OSkip nick)).

Definition onChatKey (key : string) : M unit := when (String.eqb key "Enter") sendChat.
Definition onUrlKey (key : string) : M unit := when (String.eqb key "Enter") addToQueue.

(** [/^[0-9A-Z]{6}$/i.test(s)] *)
Definition roomParamOk (s : string) : bool :=
  (String.length s =? 6)%nat
  && forall_string (fun c => is_digit c || is_upper c || is_lower c) s.

(** The top level of the script: the room field is filled from the [room]
    query parameter or with a fresh code, and the first [connect] is
    scheduled. *)
Definition main (roomParam : option string) (rs : list Q) : M unit :=
  match roomParam with
  | Some r =>
    if truthy r && roomParamOk r then modify (on_dom (set_roomInput (toUpperCase r)))
    else modify (on_dom (set_roomInput (generateCode rs)))
  | None => modify (on_dom (set_roomInput (generateCode rs)))
  end ;;
  _ <- setTimeout CbConnect 100 ;;
  ret tt.

(** *** Chat lines: the colour of a nickname and the markup *)

(** [ToInt32]: the signed 32-bit integer the bit operators of JavaScript
    work on. *)
Definition ToInt32 (z : Z) : Z := (z + 2 ^ 31) mod 2 ^ 32 - 2 ^ 31.

(** [a << n] *)
Definition shl32 (a n : Z) : Z := ToInt32 (Z.shiftl (ToInt32 a) (n mod 32)).

(** [a & b] *)
Definition and32 (a b : Z) : Z := ToInt32 (Z.land (ToInt32 a) (ToInt32 b)).

Definition palette : list string :=
  ["#ff79c6"; "#bd93f9"; "#8be9fd"; "#50fa7b"; "#ffb86c"; "#ff5555"; "#f1fa8c"; "#6272a4"].

(** The loop of [nickColor], from the value of [hash] on entry.  The values
    are integers far below 2^53, where the arithmetic of doubles is exact. *)
Fixpoint nickHash (hash : Z) (nick : string) : Z :=
  match nick with
  | EmptyString => hash
  | String c rest =>
    let hash1 := (shl32 hash 5 - hash) + Z.of_nat (code_of c) in
    let hash2 := and32 hash1 hash1 in
    nickHash hash2 rest
  end.

(** [nickColor(nick)]; [None] is [undefined]. *)
Definition nickColor (nick : string) : option string :=
  let hash := nickHash 0 nick in
  palette !! Z.to_nat (Z.rem (Z.abs hash) (Z.of_nat (length palette))).

(** What the browser writes for one character of a text node when it
    serialises it ([innerHTML]): the ampersand, the two angle brackets and the
    no-break space become entities, every other character is copied. *)
Definition escapeHtml_char (c : ascii) : string :=
  if Ascii.eqb c "&" then "&amp;"
  else if Ascii.eqb c "<" then "&lt;"
  else if Ascii.eqb c ">" then "&gt;"
  else if (code_of c =? 160)%nat then "&nbsp;"
  else String c "".

(** [escapeHtml(text)]: [div.textContent = text; return div.innerHTML]. *)
Fixpoint escapeHtml (text : string) : string :=
  match text with
  | EmptyString => EmptyString
  | String c rest => escapeHtml_char c ++ escapeHtml rest
  end.

(** The double quote, as a string. *)
Definition dquote : string := String (ascii_of_nat 34) "".

(** The markup [addChatMessage] assigns to [div.innerHTML] for a message that
    is not a system message. *)
Definition chatMsgHtml (nick text : string) : string :=
  let color := default "undefined" (nickColor nick) in
  "<span class=" ++ dquote ++ "nick" ++ dquote ++ " style=" ++ dquote ++ "color:" ++ color
  ++ dquote ++ ">" ++ escapeHtml nick ++ ":</span> <span class=" ++ dquote ++ "text"
  ++ dquote ++ ">" ++ escapeHtml text ++ "</span>".

(** ** The event loop *)

Inductive VideoEvent := VPlay | VPause | VSeeked | VEnded.

(** What the browser can deliver to the page.  Sockets, the media element and
    the YouTube widget are driven by the outside world; the loop runs one
    listener to completion per event.  A connection that fails is closed by
    the browser, which then fires [error] and [close] on the socket, one
    after the other: [EvError] stands for the two. *)
Inductive Event :=
| EvTick (dt : Z)                              (* time passes *)
| EvTimer (id : nat)                           (* a due timer runs *)
| EvOpen (s : nat)
| EvClose (s : nat)                            (* the connection is closed *)
| EvError (s : nat)                            (* the connection fails: error, then close *)
| EvMessage (s : nat) (m : Msg)
| EvYTApiReady                                 (* onYouTubeIframeAPIReady *)
| EvYTReady                                    (* the widget installs the player's methods *)
| EvYTState (data : Z) (t : Q)                 (* the widget reports a state change *)
| EvYTTime (t : Q)                             (* the widget reports progress *)
| EvVideoChange (t : Q) (p allowed : bool)     (* the element plays on, or the viewer acts *)
| EvVideo (e : VideoEvent)
| EvRoomInput (value : string)
| EvNickInput (value : string)
| EvUrlInput (value : string)
| EvChatInput (value : string)
| EvNewRoom (rs : list Q)
| EvJoin
| EvAdd
| EvSkip
| EvSend
| EvChatKey (key : string)
| EvUrlKey (key : string).

(** Six results of [Math.random()], each in [0, 1). *)
Definition draws_ok (rs : list Q) : bool :=
  (length rs =? 6)%nat && forallb (fun r => Qle_bool 0 r && negb (Qle_bool 1 r)) rs.

Definition rearm (id : nat) (t : Timer) (b : Browser) : Browser :=
  match t_period t with
  | Some p =>
    set_timers (<[id := {| t_cb := t_cb t; t_due := t_due t + p; t_period := Some p |}]>
                  (timers b)) b
  | None => set_timers (delete id (timers b)) b
  end.

Definition yt_update (f : YTPlayer -> YTPlayer) (g : Globals) : Globals :=
  match ytPlayer g with
  | Some p => set_ytPlayer (Some (f p)) g
  | None => g
  end.

Definition ytLive (w : World) : bool :=
  match playerContainer (dom w), ytPlayer (js w) with
  | CYTPlayer, Some _ => true
  | _, _ => false
  end.

Definition onVideo (e : VideoEvent) (video : Video) : M unit :=
  match e with
  | VPlay => onVideoPlay video
  | VPause => onVideoPause video
  | VSeeked => onVideoSeeked video
  | VEnded => onVideoEnded
  end.

Definition yt_ready_now (p : YTPlayer) : YTPlayer :=
  {| yt_videoId := yt_videoId p; yt_api := true; yt_time := yt_time p;
     yt_state := yt_state p; yt_posted := yt_posted p |}.

Definition yt_report (data : Z) (t : Q) (p : YTPlayer) : YTPlayer :=
  {| yt_videoId := yt_videoId p; yt_api := yt_api p; yt_time := t;
     yt_state := data; yt_posted := yt_posted p |}.

Definition yt_progress (t : Q) (p : YTPlayer) : YTPlayer :=
  {| yt_videoId := yt_videoId p; yt_api := yt_api p; yt_time := t;
     yt_state := yt_state p; yt_posted := yt_posted p |}.

Definition video_change (t : Q) (p allowed : bool) (d : Dom) : Dom :=
  match playerContainer d with
  | CVideo v =>
    set_playerContainer
      (CVideo {| v_src := v_src v; currentTime := t; paused := p; v_allowed := allowed |}) d
  | _ => d
  end.

(** Whether the event can occur in [w]: time runs forward, a timer runs when
    it is due, a socket opens once, delivers frames while open and is closed
    once, by a close or by a failure, the widget and the element report only
    while they are on the page. *)
Definition enabled (e : Event) (w : World) : bool :=
  match e with
  | EvTick dt => 0 <=? dt
  | EvTimer id =>
    match timers (env w) !! id with
    | Some t => t_due t <=? clock (env w)
    | None => false
    end
  | EvOpen s => match stateOf w s with Some CONNECTING => true | _ => false end
  | EvClose s | EvError s =>
    match stateOf w s with Some CLOSED | None => false | Some _ => true end
  | EvMessage s _ => match stateOf w s with Some OPEN => true | _ => false end
  | EvYTReady => ytLive w
  | EvYTState _ _ | EvYTTime _ => ytLive w && bool_decide (is_Some (ytMethods w))
  | EvVideoChange _ _ _ | EvVideo _ => bool_decide (is_Some (directVideo w))
  | EvNewRoom rs => draws_ok rs
  | _ => true
  end.

(** What the browser itself changes when the event occurs, before any
    listener runs. *)
Definition arrive (e : Event) (w : World) : World :=
  match e with
  | EvTick dt => on_env (fun b => set_clock (clock b + dt) b) w
  | EvTimer id =>
    match timers (env w) !! id with
    | Some t => on_env (rearm id t) w
    | None => w
    end
  | EvOpen s => on_env (set_readyState s OPEN) w
  | EvClose s | EvError s => on_env (set_readyState s CLOSED) w
  | EvYTReady => on_js (yt_update yt_ready_now) w
  | EvYTState data t => on_js (yt_update (yt_report data t)) w
  | EvYTTime t => on_js (yt_update (yt_progress t)) w
  | EvVideoChange t p allowed => on_dom (video_change t p allowed) w
  | EvRoomInput value => on_dom (set_roomInput value) w
  | EvNickInput value => on_dom (set_nickInput value) w
  | EvUrlInput value => on_dom (set_urlInput value) w
  | EvChatInput value => on_dom (set_chatInput value) w
  | _ => w
  end.

(** The listener the script has registered for the event. *)
Definition listener (e : Event) (w : World) : M unit :=
  match e with
  | EvTimer id =>
    match timers (env w) !! id with
    | Some t => runCallback (t_cb t)
    | None => ret tt
    end
  | EvOpen _ => onopen
  | EvClose _ => onclose
  | EvError _ => onerror ;; onclose
  | EvMessage _ m => onmessage m
  | EvYTApiReady => modify (on_js (set_ytReady true))
  | EvYTState data _ => onYTStateChange data
  | EvVideo e =>
    match directVideo w with
    | Some v => onVideo e v
    | None => ret tt
    end
  | EvRoomInput _ => onRoomInput
  | EvNewRoom rs => onNewRoom rs
  | EvJoin => connect
  | EvAdd => addToQueue
  | EvSkip => onSkip
  | EvSend => sendChat
  | EvChatKey key => onChatKey key
  | EvUrlKey key => onUrlKey key
  | _ => ret tt
  end.

(** One turn of the loop; [None] when the event cannot occur in [w]. *)
Definition step (e : Event) (w : World) : option World :=
  if enabled e w then Some (exec (listener e w) (arrive e w)) else None.

Fixpoint run (es : list Event) (w : World) : option World :=
  match es with
  | [] => Some w
  | e :: es' => match step e w with
                | Some w' => run es' w'
                | None => None
                end
  end.

(** The page as the browser hands it to the script. *)
Record Page := {
  pg_now : Z;
  pg_protocol : string;
  pg_host : string;
  pg_room : option string;       (* the [room] query parameter *)
  pg_nick : string;              (* what the nickname field holds *)
  pg_random : list Q             (* the values [Math.random()] will return first *)
}.

Definition blank (p : Page) : World :=
  {| js := {| socket := None; isRemoteAction := false; lastSentSeek := 0;
              pingInterval := None; syncInterval := None; latency := 0%Q; queue := [];
              currentMedia := None; ytPlayer := None; ytReady := false; isHost := false |};
     dom := {| roomInput := ""; nickInput := pg_nick p; urlInput := ""; chatInput := "";
               statusText := ""; statusDot := StDisconnected; addBtnDisabled := true;
               chatPanelActive := false; queuePanelActive := false; queueList := [];
               playerWrapperActive := false; playerContainer := CEmpty; syncToast := "";
               syncToastShown := false; viewersEl := None; chatMessages := [] |};
     env := {| clock := pg_now p; timers := ∅; nextTimer := 1; sockets := ∅;
               nextSocket := 0; locationProtocol := pg_protocol p;
               locationHost := pg_host p; trace := [] |} |}.

Definition boot (p : Page) : World := exec (main (pg_room p) (pg_random p)) (blank p).

Inductive reachable : World -> Prop :=
| reach_boot p : draws_ok (pg_random p) = true -> reachable (boot p)
| reach_step e w w' : reachable w -> step e w = Some w' -> reachable w'.

(** * What the properties are stated with *)

(** ** Reading traces *)

(** Every adapter operation in [l] is performed while the suppression flag is
    set, the flag being [flag] when [l] starts. *)
Fixpoint suppressed (flag : bool) (l : list Action) : bool :=
  match l with
  | [] => true
  | ASuppress b :: l' => suppressed b l'
  | (ASeekTo _ | APlay | APause) :: l' => flag && suppressed flag l'
  | _ :: l' => suppressed flag l'
  end.

(** The targets of the seeks in a trace. *)
Fixpoint seeks (l : list Action) : list Q :=
  match l with
  | [] => []
  | ASeekTo t :: l' => t :: seeks l'
  | _ :: l' => seeks l'
  end.

(** The frames sent in a trace. *)
Fixpoint sent (l : list Action) : list OutMsg :=
  match l with
  | [] => []
  | ASend _ m :: l' => m :: sent l'
  | _ :: l' => sent l'
  end.

(** What a turn of the loop, or a run, has appended to the trace. *)
Definition added (w w' : World) : list Action :=
  drop (length (trace (env w))) (trace (env w')).

(** The suppression window a handler leaves behind in [w]: timer [id] cannot
    run before [ms] milliseconds have passed, and when it runs the flag is
    cleared. *)
Definition clears_after (ms : Z) (id : nat) (w : World) : Prop :=
  forall dt, 0 <= dt ->
    match run [EvTick dt; EvTimer id] w with
    | Some w' => ms <= dt /\ isRemoteAction (js w') = false
    | None => dt < ms
    end.

(** ** Frames

    A frame is a preorder on pages that says what a piece of code leaves
    alone. *)

(** [keeps R m]: whatever [m] does to the page, and however it ends, the page
    before and the page after are related by [R]. *)
Definition keeps (R : relation World) {A} (m : M A) : Prop :=
  forall w, R w (exec m w).

(** The clock never goes back, and [lastSentSeek] is either left alone or
    set to a time read from the clock in between. *)
Definition seek_stamp : relation World := fun w w' =>
  clock (env w) <= clock (env w')
  /\ (lastSentSeek (js w') = lastSentSeek (js w)
      \/ clock (env w) <= lastSentSeek (js w') <= clock (env w')).

(** ** The suppression window *)

(** The suppression window that ends at time [T] is open: the flag is set
    and no pending timer can clear it before [T]. *)
Definition window_open (T : Z) (w : World) : Prop :=
  isRemoteAction (js w) = true
  /\ T <= clock (env w) + 100
  /\ (forall id t, timers (env w) !! id = Some t -> t_cb t = CbClearRemote ->
        T <= t_due t).

(** No suppression window that is pending in [w] ends before [T]. *)
Definition windows_end_from (T : Z) (w : World) : bool :=
  forallb (fun it => match t_cb it.2 with
                     | CbClearRemote => T <=? t_due it.2
                     | _ => true
                     end)
          (map_to_list (timers (env w))).

(** Nothing has cleared the flag, the clock stands still, and a timer that
    will clear the flag is an old one or is due 100 ms from now. *)
Definition window_frame : relation World := fun w w' =>
  (isRemoteAction (js w) = true -> isRemoteAction (js w') = true)
  /\ clock (env w') = clock (env w)
  /\ (forall id t', timers (env w') !! id = Some t' -> t_cb t' = CbClearRemote ->
        timers (env w) !! id = Some t' \/ t_due t' = clock (env w) + 100).

(** ** The cadence *)

Definition is_cadence (cb : Callback) : bool :=
  match cb with
  | CbHostReport | CbSyncPoll => true
  | _ => false
  end.

(** The cadence of a role: what runs, and how often. *)
Definition roleCallback (host : bool) : Callback :=
  if host then CbHostReport else CbSyncPoll.
Definition rolePeriod (host : bool) : Z :=
  if host then HOST_REPORT_INTERVAL else SYNC_CHECK_INTERVAL.

(** Handles are below the allocator, and every cadence timer in the table is
    the one [syncInterval] points to ... *)
Definition cadence_tracked (w : World) : Prop :=
  (forall id t, timers (env w) !! id = Some t -> (id < nextTimer (env w))%nat)
  /\ (forall id, syncInterval (js w) = Some id -> (id < nextTimer (env w))%nat)
  /\ (forall id t, timers (env w) !! id = Some t -> is_cadence (t_cb t) = true ->
        syncInterval (js w) = Some id).

(** ... and it is the cadence of the current role. *)
Definition cadence_ok (w : World) : Prop :=
  cadence_tracked w
  /\ (forall id t, timers (env w) !! id = Some t -> is_cadence (t_cb t) = true ->
        t_cb t = roleCallback (isHost (js w))).

(** [w'] has no cadence timer that [w] did not have, and the same
    [syncInterval]; timers that are new were freshly allocated. *)
Definition cad_frame : relation World := fun w w' =>
  (nextTimer (env w) <= nextTimer (env w'))%nat
  /\ syncInterval (js w') = syncInterval (js w)
  /\ (forall id t', timers (env w') !! id = Some t' ->
        (exists t, timers (env w) !! id = Some t /\ t_cb t = t_cb t')
        \/ ((nextTimer (env w) <= id < nextTimer (env w'))%nat
            /\ is_cadence (t_cb t') = false)).

(** The same, and the role has not changed either. *)
Definition cad_neutral : relation World := fun w w' =>
  cad_frame w w' /\ isHost (js w') = isHost (js w).

(** Frames that do not carry a role. *)
Definition carries_role (m : Msg) : bool :=
  match m with
  | MState _ _ _ _ _ _ | MHostUpdate _ => true
  | _ => false
  end.

(** A stronger frame, for what runs after [startSyncIntervals]: in addition,
    every timer allocated so far is untouched. *)
Definition cad_keep : relation World := fun w w' =>
  cad_neutral w w'
  /\ (forall id, (id < nextTimer (env w))%nat ->
        timers (env w') !! id = timers (env w) !! id).

(** The cadence right after a role was adopted from [w]: handle, timer and
    the fate of the previous handle. *)
Definition rearmed (w w' : World) : Prop :=
  let id := nextTimer (env w) in
  let host := isHost (js w') in
  syncInterval (js w') = Some id
  /\ timers (env w') !! id =
       Some {| t_cb := roleCallback host; t_due := clock (env w) + rolePeriod host;
               t_period := Some (rolePeriod host) |}
  /\ (forall old, syncInterval (js w) = Some old -> timers (env w') !! old = None).

(** The events whose listener may change the role. *)
Definition sets_role (e : Event) : bool :=
  match e with
  | EvClose _ | EvError _ => true
  | EvMessage _ m => carries_role m
  | _ => false
  end.


(** ** The transcript and the room code *)

(** A page whose transcript is the old one, or is within the bound. *)
Definition chat_bound : relation World := fun w w' =>
  (length (chatMessages (dom w')) <= 100)%nat
  \/ chatMessages (dom w') = chatMessages (dom w).

(** The format a room code is meant to have: six characters, each a digit
    or a capital letter. *)
Definition roomCodeFormat (s : string) : bool :=
  (String.length s =? 6)%nat && forall_string is_code_char s.

(** What the room field can hold: digits and capital letters, at most six. *)
Definition room_ok (s : string) : Prop :=
  forall_string is_code_char s = true /\ (String.length s <= 6)%nat.

(** Only the input listener, the new-room button and the start-up code write
    the room field. *)
Definition room_same : relation World := fun w w' =>
  roomInput (dom w') = roomInput (dom w).

(** The events whose listener writes the room field. *)
Definition writes_room (e : Event) : bool :=
  match e with
  | EvRoomInput _ | EvNewRoom _ => true
  | _ => false
  end.

(** The URL [connect] builds from the page location and the room field. *)
Definition socketUrl (w : World) : string :=
  (if String.eqb (locationProtocol (env w)) "https:" then "wss:" else "ws:")
  ++ "//" ++ locationHost (env w) ++ "/ws/" ++ trim (roomInput (dom w)).

(** ** Chat lines *)

(** The polynomial the loop computes when nothing wraps. *)
Fixpoint poly31 (h : Z) (s : string) : Z :=
  match s with
  | EmptyString => h
  | String c rest => poly31 (31 * h + Z.of_nat (code_of c)) rest
  end.

Definition int32 (z : Z) : Prop := - 2 ^ 31 <= z < 2 ^ 31.

Definition is_angle (c : ascii) : bool := Ascii.eqb c "<" || Ascii.eqb c ">".

(** Reads the four entities back. *)
Fixpoint unescapeHtml (s : string) : string :=
  match s with
  | EmptyString => EmptyString
  | String c r =>
    if Ascii.eqb c "&" then
      match r with
      | String "a" (String "m" (String "p" (String ";" r'))) =>
        String "&" (unescapeHtml r')
      | String "l" (String "t" (String ";" r')) => String "<" (unescapeHtml r')
      | String "g" (String "t" (String ";" r')) => String ">" (unescapeHtml r')
      | String "n" (String "b" (String "s" (String "p" (String ";" r')))) =>
        String (ascii_of_nat 160) (unescapeHtml r')
      | _ => String c (unescapeHtml r)
      end
    else String c (unescapeHtml r)
  end.

(** Whether a string starts with white space. *)
Definition head_space (s : string) : bool :=
  match s with
  | String c _ => is_space c
  | EmptyString => false
  end.

Definition is_hash (c : ascii) : bool := Ascii.eqb c "#".

(** ** What a turn of the loop adds to the trace *)

(** The trace of [w'] is the trace of [w] followed by actions none of which
    is of the kind [p]. *)
Definition without (p : Action -> bool) : relation World := fun w w' =>
  exists l, trace (env w') = (trace (env w) ++ l)%list /\ forallb (fun a => negb (p a)) l = true.

Definition is_adapter (a : Action) : bool :=
  match a with
  | ASeekTo _ | APlay | APause => true
  | _ => false
  end.

Definition is_cadence_frame (a : Action) : bool :=
  match a with
  | ASend _ (OHostPosition _) | ASend _ OSyncRequest => true
  | _ => false
  end.

Definition is_new_socket (a : Action) : bool :=
  match a with
  | ANewSocket _ _ => true
  | _ => false
  end.

Definition is_suppress (a : Action) : bool :=
  match a with
  | ASuppress _ => true
  | _ => false
  end.

Definition is_toast (a : Action) : bool :=
  match a with
  | AToast _ => true
  | _ => false
  end.

Definition is_seek_frame (m : OutMsg) : bool :=
  match m with
  | OSeek _ => true
  | _ => false
  end.

Definition clears_flag (a : Action) : bool :=
  match a with
  | ASuppress false => true
  | _ => false
  end.

(** Every playback operation added to the trace comes after the flag was
    set in the same stretch. *)
Definition calm : relation World := fun w w' =>
  exists l, trace (env w') = (trace (env w) ++ l)%list /\ suppressed false l = true.

(** The stretch may operate playback, and does not clear the flag. *)
Definition flagged : relation World := fun w w' =>
  exists l, trace (env w') = (trace (env w) ++ l)%list
            /\ suppressed true l = true
            /\ forallb (fun a => negb (clears_flag a)) l = true.

Definition is_state (m : Msg) : bool :=
  match m with
  | MState _ _ _ _ _ _ => true
  | _ => false
  end.

Definition is_state_frame (e : Event) : bool :=
  match e with
  | EvMessage _ m => is_state m
  | _ => false
  end.

(** ** Handlers that return *)

(** [m] returns: it never ends in an exception. *)
Definition returns {A} (m : M A) : Prop := forall w, exists a, m w = (exec m w, Ok a).


(** What the play listener of the element reads besides the element: the
    flag, the socket and the nickname field. *)
Definition steady : relation World := fun w w' =>
  isRemoteAction (js w') = isRemoteAction (js w)
  /\ socket (js w') = socket (js w)
  /\ sockets (env w') = sockets (env w)
  /\ nickInput (dom w') = nickInput (dom w).

(** What the [state] handler does before it turns to the player. *)
Definition state_adopt (viewers : Q) (q : option (list MediaItem)) (host : option bool) : M unit :=
  modify (on_dom (set_viewersEl (Some (viewers, plural viewers)))) ;;
  modify (on_js (set_queue (default [] q))) ;;
  modify (on_js (set_isHost (default false host))) ;;
  updateHostIndicator ;;
  startSyncIntervals ;;
  renderQueue.

(** ** Sockets *)

(** A socket that is connecting or open. *)
Definition live (st : ReadyState) : bool :=
  match st with
  | CONNECTING | OPEN => true
  | _ => false
  end.

(** Socket handles are below the allocator, and a live socket is the one
    the [socket] variable holds. *)
Definition one_socket (w : World) : Prop :=
  (forall s k, sockets (env w) !! s = Some k -> (s < nextSocket (env w))%nat)
  /\ (forall s k, sockets (env w) !! s = Some k -> live (readyState k) = true ->
        socket (js w) = Some s).

(** A piece of code that maintains [one_socket]. *)
Definition wired : relation World := fun w w' => one_socket w -> one_socket w'.

(** Handles are below the allocator and no socket is live. *)
Definition all_down (w : World) : Prop :=
  (forall s k, sockets (env w) !! s = Some k -> (s < nextSocket (env w))%nat)
  /\ (forall s k, sockets (env w) !! s = Some k -> live (readyState k) = false).

(** ** Who connects *)

(** Every timer of [w'] that runs [connect] was already there in [w]. *)
Definition connect_timers : relation World := fun w w' =>
  forall id t', timers (env w') !! id = Some t' -> t_cb t' = CbConnect ->
    exists t, timers (env w) !! id = Some t /\ t_cb t = CbConnect
              /\ t_period t = t_period t'.

(** The only timer that runs [connect] is the one armed at start-up, and
    it runs once. *)
Definition startup_only (w : World) : Prop :=
  forall id t, timers (env w) !! id = Some t -> t_cb t = CbConnect ->
    id = 1%nat /\ t_period t = None.

Definition calls_connect (e : Event) (w : World) : bool :=
  match e with
  | EvJoin | EvNewRoom _ => true
  | EvTimer id =>
    match timers (env w) !! id with
    | Some t => match t_cb t with CbConnect => true | _ => false end
    | None => false
    end
  | _ => false
  end.

(** ** The heartbeat *)



(** ** Scenarios *)

Definition page0 : Page :=
  {| pg_now := 1700000000000; pg_protocol := "https:"; pg_host := "watch.example";
     pg_room := Some "abc123"; pg_nick := "Ann"; pg_random := [0; 0; 0; 0; 0; 0]%Q |}.

Definition film : MediaItem :=
  {| m_type := direct_file; m_id := ""; m_url := "film.mp4"; m_display := "Film" |}.

(** The page after the events [es], from the start. *)
Definition after (es : list Event) : World := default (boot page0) (run es (boot page0)).

(** The first [connect] runs and the socket opens. *)
Definition joining : list Event := [EvTick 100; EvTimer 1; EvOpen 0].

(** The relay makes this viewer the host of a room showing a file. *)
Definition hosting : list Event :=
  joining ++ [EvMessage 0 (MState 2 (Some [film]) (Some true) (Some film) 0 false)].

(** A guest watching the file, locally at 10 s and playing. *)
Definition watching : list Event :=
  joining ++ [EvMessage 0 (MState 2 (Some [film]) (Some false) (Some film) 0 true);
              EvVideoChange 10 false true].

Definition w_host : World := after hosting.
Definition w_guest : World := after watching.

(** The guest after a pong that took 400 ms to come back. *)
Definition w_measured : World := after (watching ++ [EvMessage 0 (MPong 1699999999700)]).

(** The guest right after a remote play. *)
Definition w_played : World := after (watching ++ [EvMessage 0 (MPlay 5 "Bob")]).

(** The guest scrubs: one seek is forwarded, and exactly 300 ms pass. *)
Definition w_scrubbed : World := after (watching ++ [EvVideo VSeeked; EvTick 300]).

(** The host presses Join again; the new socket opens and the relay confirms
    the role on it before the old socket reports that it has closed. *)
Definition rejoining : list Event :=
  hosting ++ [EvJoin; EvOpen 1;
              EvMessage 1 (MState 2 (Some [film]) (Some true) (Some film) 0 false)].
Definition w_rejoined : World := after rejoining.

(** The viewer has joined and typed a chat line and an address, both with
    blanks around them. *)
Definition w_typing : World :=
  after (joining ++ [EvChatInput "  hi  "; EvUrlInput " film.mp4 "]).

(** The viewer has joined; nothing is loaded. *)
Definition w_joined : World := after joining.

Definition tube : MediaItem :=
  {| m_type := youtube; m_id := "dQw4w9WgXcQ"; m_url := ""; m_display := "Clip" |}.

(** A guest watching a YouTube item in a widget that has reported ready and
    is at 7 s. *)
Definition tubing : list Event :=
  joining ++ [EvYTApiReady;
              EvMessage 0 (MState 2 (Some [tube]) (Some false) (Some tube) 0 false);
              EvYTReady; EvYTTime 7].
Definition w_tube : World := after tubing.

(** Whether the events [es] can occur in this order from the start. *)
Definition runs (es : list Event) : bool :=
  match run es (boot page0) with Some _ => true | None => false end.

(** * Proofs *)

(** ** Tools *)

Lemma Qgtb_true (x y : Q) : (y < x)%Q -> Qgtb x y = true.
Proof.
  intros H. unfold Qgtb. destruct (Qle_bool x y) eqn:E; [|reflexivity].
  apply Qle_bool_iff in E. exfalso. apply (Qlt_not_le _ _ H E).
Qed.

Lemma Qgtb_false (x y : Q) : (x <= y)%Q -> Qgtb x y = false.
Proof.
  intros H. unfold Qgtb. apply Qle_bool_iff in H. now rewrite H.
Qed.

Lemma Qgtb_spec (x y : Q) : Qgtb x y = true <-> (y < x)%Q.
Proof.
  split; [|apply Qgtb_true].
  unfold Qgtb. intros H. apply Qnot_le_lt. intros L.
  apply Qle_bool_iff in L. rewrite L in H. discriminate.
Qed.

Lemma Qgtb_wd (x x' y : Q) : (x == x')%Q -> Qgtb x y = Qgtb x' y.
Proof.
  intros E. destruct (Qgtb x' y) eqn:H.
  - apply Qgtb_true. apply Qgtb_spec in H. now rewrite E.
  - apply Qgtb_false. apply Qnot_lt_le. intros L. rewrite E in L.
    apply Qgtb_true in L. congruence.
Qed.

(** Splitting a world into the parts the adapter looks at: the [ytPlayer]
    variable and the content of [playerContainer]. *)
Ltac open_world w :=
  let g := fresh "g" in let d := fresh "d" in let b := fresh "b" in
  destruct w as [g d b];
  destruct g as [sock rem last ping sync lat q cur yp yr host];
  destruct d as [room nick0 url chat stxt sdot addb chatp queuep rows wrap pc
                 toast shown viewers msgs];
  destruct yp as [[vid api tm st posted]|]; [destruct api|];
  destruct pc as [| | | | |v]; cbn in *.

Ltac trace_eq :=
  unfold did, exec; cbn; rewrite <- ?app_assoc; rewrite ?drop_app_length; cbn.

Lemma did_nil {A} (m : M A) (w : World) : exec m w = w -> did m w = [].
Proof. unfold did. intros ->. apply drop_all. Qed.

(** A pending timeout of the suppression window runs exactly when it is due. *)
Lemma clear_timer (w : World) (id : nat) (due : Z) :
  timers (env w) !! id = Some {| t_cb := CbClearRemote; t_due := due; t_period := None |} ->
  clears_after (due - clock (env w)) id w.
Proof.
  intros H dt Hdt. unfold run.
  assert (S1 : step (EvTick dt) w = Some (on_env (fun b => set_clock (clock b + dt) b) w)).
  { unfold step. cbn [enabled]. destruct (0 <=? dt) eqn:E0; [reflexivity|lia]. }
  rewrite S1. unfold step. cbn [enabled arrive listener].
  change (timers (env (on_env (fun b => set_clock (clock b + dt) b) w)))
    with (timers (env w)).
  rewrite H. cbn.
  destruct (due <=? clock (env w) + dt) eqn:E; cbn.
  - split; [lia | reflexivity].
  - lia.
Qed.

(** ** Remote instructions *)

(** C9. A remote pause sets the suppression flag, pauses, then seeks to the
    asserted position exactly as received (no latency term), and arms the
    timer that clears the flag 100 ms later. *)
Theorem remote_pause_sequence (w : World) (position : Q) (nick : string) :
  let h := handleMessage (MPause position nick) in
  let id := nextTimer (env w) in
  did h w = [ASuppress true; APause; ASeekTo position;
             AToast (if truthy nick then nick ++ " paused" else "Paused");
             ASetTimeout id CbHideToast 2000;
             ASetTimeout (S id) CbClearRemote 100]
  /\ suppressed false (did h w) = true
  /\ isRemoteAction (js (exec h w)) = true
  /\ clears_after 100 (S id) (exec h w).
Proof.
  cbn zeta.
  assert (T : did (handleMessage (MPause position nick)) w =
              [ASuppress true; APause; ASeekTo position;
               AToast (if truthy nick then nick ++ " paused" else "Paused");
               ASetTimeout (nextTimer (env w)) CbHideToast 2000;
               ASetTimeout (S (nextTimer (env w))) CbClearRemote 100]).
  { trace_eq. reflexivity. }
  rewrite T. repeat split.
  - open_world w; reflexivity.
  - replace 100 with (clock (env w) + 100 - clock (env (exec (handleMessage (MPause position nick)) w)))
      by (unfold exec; cbn; lia).
    apply clear_timer. unfold exec; cbn. apply lookup_insert_eq.
Qed.

(** What a remote play appends to the trace, and the flag it leaves set. *)
Lemma remote_play_run (w : World) (position : Q) (nick : string) :
  did (handleMessage (MPlay position nick)) w =
    [ASuppress true; ASeekTo (position + latency (js w) / 1000); APlay;
     AToast (if truthy nick then nick ++ " played" else "Playing");
     ASetTimeout (nextTimer (env w)) CbHideToast 2000;
     ASetTimeout (S (nextTimer (env w))) CbClearRemote 100]
  /\ isRemoteAction (js (exec (handleMessage (MPlay position nick)) w)) = true.
Proof.
  split.
  - trace_eq. reflexivity.
  - open_world w; reflexivity.
Qed.

(** C2. A remote play sets the suppression flag, seeks to the asserted
    position plus the one-way latency in seconds ([latency] holds
    milliseconds: half the round trip measured by the last pong), then plays,
    and arms the timer that clears the flag 100 ms later.  With position 5
    and a latency of 200 ms the adapter receives a seek to 5.2 and then the
    play. *)
Theorem remote_play_sequence (w : World) (position : Q) (nick : string) :
  let h := handleMessage (MPlay position nick) in
  let id := nextTimer (env w) in
  (did h w = [ASuppress true; ASeekTo (position + latency (js w) / 1000); APlay;
              AToast (if truthy nick then nick ++ " played" else "Playing");
              ASetTimeout id CbHideToast 2000;
              ASetTimeout (S id) CbClearRemote 100]
   /\ suppressed false (did h w) = true
   /\ isRemoteAction (js (exec h w)) = true
   /\ clears_after 100 (S id) (exec h w))
  /\ (forall t, latency (js (exec (handleMessage (MPong t)) w))
                = ((inject_Z (clock (env w)) - t) / 2)%Q)
  /\ (position = 5%Q -> (latency (js w) == 200)%Q ->
      exists t, (t == 26 # 5)%Q
        /\ did h w = [ASuppress true; ASeekTo t; APlay;
                      AToast (if truthy nick then nick ++ " played" else "Playing");
                      ASetTimeout id CbHideToast 2000;
                      ASetTimeout (S id) CbClearRemote 100]).
Proof.
  cbn zeta. destruct (remote_play_run w position nick) as [T Fl].
  rewrite T. split; [repeat split|split].
  - exact Fl.
  - replace 100 with (clock (env w) + 100 - clock (env (exec (handleMessage (MPlay position nick)) w)))
      by (unfold exec; cbn; lia).
    apply clear_timer. unfold exec; cbn. apply lookup_insert_eq.
  - intros t. reflexivity.
  - intros -> L. eexists. split; [|reflexivity]. rewrite L. reflexivity.
Qed.

(** C1. A remote seek within the 3 s tolerance changes nothing at all; beyond
    it the engine sets the suppression flag, seeks once, to the asserted
    position, and arms the timer that clears the flag 100 ms later. *)
Theorem remote_seek_tolerance (w : World) (position : Q) :
  let h := handleMessage (MSeek position) in
  let id := nextTimer (env w) in
  ((Qabs (getPosition w - position) <= 3)%Q -> exec h w = w /\ seeks (did h w) = [])
  /\ ((3 < Qabs (getPosition w - position))%Q ->
      did h w = [ASuppress true; ASeekTo position; AToast "Synced";
                 ASetTimeout id CbHideToast 2000;
                 ASetTimeout (S id) CbClearRemote 100]
      /\ seeks (did h w) = [position]
      /\ suppressed false (did h w) = true
      /\ isRemoteAction (js (exec h w)) = true
      /\ clears_after 100 (S id) (exec h w)).
Proof.
  cbn zeta.
  assert (U : handleMessage (MSeek position) w =
              when (Qgtb (Qabs (getPosition w - position)) 3)
                (setRemote true ;; seekTo position ;; showToast "Synced" ;;
                 clearRemoteLater) w) by reflexivity.
  split; intros H.
  - assert (E : exec (handleMessage (MSeek position)) w = w).
    { unfold exec. rewrite U, (Qgtb_false _ _ H). reflexivity. }
    split; [exact E|]. rewrite (did_nil _ _ E). reflexivity.
  - assert (E : exec (handleMessage (MSeek position)) w =
                exec (setRemote true ;; seekTo position ;; showToast "Synced" ;;
                      clearRemoteLater) w).
    { unfold exec. rewrite U, (Qgtb_true _ _ H). reflexivity. }
    assert (T : did (handleMessage (MSeek position)) w =
                [ASuppress true; ASeekTo position; AToast "Synced";
                 ASetTimeout (nextTimer (env w)) CbHideToast 2000;
                 ASetTimeout (S (nextTimer (env w))) CbClearRemote 100]).
    { unfold did. rewrite E. unfold exec; cbn.
      rewrite <- ?app_assoc, drop_app_length. reflexivity. }
    rewrite T, E. repeat split.
    + clear. open_world w; reflexivity.
    + replace 100 with
        (clock (env w) + 100
         - clock (env (exec (setRemote true ;; seekTo position ;; showToast "Synced" ;;
                             clearRemoteLater) w)))
        by (unfold exec; cbn; lia).
      apply clear_timer. unfold exec; cbn. apply lookup_insert_eq.
Qed.

Lemma bind_ok {A B} (m : M A) (f : A -> M B) (w w1 : World) (a : A) :
  m w = (w1, Ok a) -> bind m f w = f a w1.
Proof. unfold bind. now intros ->. Qed.

Lemma drop_trace (t l : list Action) : drop (length t) (t ++ l) = l.
Proof. apply drop_app_length. Qed.

(** The three corrective blocks of [handleMessage]: what they append to the
    trace, and that a seek does not change what [isPaused] answers. *)
Lemma seek_block (w : World) (position : Q) (text : string) :
  exists w1,
    (setRemote true ;; seekTo position ;; showToast text ;; clearRemoteLater) w = (w1, Ok tt)
    /\ isPaused w1 = isPaused w
    /\ nextTimer (env w1) = S (S (nextTimer (env w)))
    /\ trace (env w1) =
         (trace (env w) ++
          [ASuppress true; ASeekTo position; AToast text;
           ASetTimeout (nextTimer (env w)) CbHideToast 2000;
           ASetTimeout (S (nextTimer (env w))) CbClearRemote 100])%list.
Proof.
  eexists. split; [reflexivity|]. split; [|split].
  - open_world w; reflexivity.
  - reflexivity.
  - cbn. now rewrite <- !app_assoc.
Qed.

Lemma play_block (w : World) :
  exists w1,
    (setRemote true ;; playMedia ;; clearRemoteLater) w = (w1, Ok tt)
    /\ trace (env w1) =
         (trace (env w) ++
          [ASuppress true; APlay; ASetTimeout (nextTimer (env w)) CbClearRemote 100])%list.
Proof.
  eexists. split; [reflexivity|]. cbn. now rewrite <- !app_assoc.
Qed.

Lemma pause_block (w : World) :
  exists w1,
    (setRemote true ;; pauseMedia ;; clearRemoteLater) w = (w1, Ok tt)
    /\ trace (env w1) =
         (trace (env w) ++
          [ASuppress true; APause; ASetTimeout (nextTimer (env w)) CbClearRemote 100])%list.
Proof.
  eexists. split; [reflexivity|]. cbn. now rewrite <- !app_assoc.
Qed.

(** C4. A sync-poll response received by a non-host with a current item is
    answered in two independent parts.  First, when the drift exceeds the
    tolerance, a seek to the asserted position.  Second, decided on the local
    paused state alone: a play when the host plays and the local player is
    paused, a pause when the host does not play and the local player is not
    paused, nothing when the two agree.  Every adapter operation happens with
    the suppression flag set.  Local position 10, locally playing, response
    (15, not playing): a seek to 15 and a pause. *)
Theorem sync_response_corrects (w : World) (position : Q) (playing : bool) :
  isHost (js w) = false ->
  is_Some (currentMedia (js w)) ->
  let h := handleMessage (MSyncResponse position playing) in
  let id := nextTimer (env w) in
  let drifted := Qgtb (Qabs (getPosition w - position)) SYNC_TOLERANCE in
  let id' := if drifted then S (S id) else id in
  (did h w =
     ((if drifted
      then [ASuppress true; ASeekTo position; AToast "Synced to host";
            ASetTimeout id CbHideToast 2000; ASetTimeout (S id) CbClearRemote 100]
      else [])
     ++ (if playing && isPaused w
         then [ASuppress true; APlay; ASetTimeout id' CbClearRemote 100]
         else if negb playing && negb (isPaused w)
         then [ASuppress true; APause; ASetTimeout id' CbClearRemote 100]
         else []))%list)
  /\ suppressed false (did h w) = true
  /\ ((getPosition w == 10)%Q -> position = 15%Q -> playing = false ->
      isPaused w = false ->
      did h w = [ASuppress true; ASeekTo 15; AToast "Synced to host";
                 ASetTimeout id CbHideToast 2000; ASetTimeout (S id) CbClearRemote 100;
                 ASuppress true; APause; ASetTimeout (S (S id)) CbClearRemote 100]).
Proof.
  intros Hhost [m Hcur]. cbn zeta.
  assert (T : did (handleMessage (MSyncResponse position playing)) w =
     ((if Qgtb (Qabs (getPosition w - position)) SYNC_TOLERANCE
      then [ASuppress true; ASeekTo position; AToast "Synced to host";
            ASetTimeout (nextTimer (env w)) CbHideToast 2000;
            ASetTimeout (S (nextTimer (env w))) CbClearRemote 100]
      else [])
     ++ (if playing && isPaused w
         then [ASuppress true; APlay;
               ASetTimeout (if Qgtb (Qabs (getPosition w - position)) SYNC_TOLERANCE
                            then S (S (nextTimer (env w))) else nextTimer (env w))
                           CbClearRemote 100]
         else if negb playing && negb (isPaused w)
         then [ASuppress true; APause;
               ASetTimeout (if Qgtb (Qabs (getPosition w - position)) SYNC_TOLERANCE
                            then S (S (nextTimer (env w))) else nextTimer (env w))
                           CbClearRemote 100]
         else []))%list).
  { unfold did, exec, handleMessage.
    unfold bind at 1; unfold gets at 1; cbv beta iota.
    unfold bind at 1; unfold gets at 1; cbv beta iota.
    rewrite Hhost, Hcur.
    change (negb false && bool_decide (is_Some (Some m))) with true. unfold when at 1.
    unfold bind at 1; unfold gets at 1; cbv beta iota zeta.
    assert (S1 : exists w1 l,
      when (Qgtb (Qabs (getPosition w - position)) SYNC_TOLERANCE)
        (setRemote true ;; seekTo position ;; showToast "Synced to host" ;;
         clearRemoteLater) w = (w1, Ok tt)
      /\ isPaused w1 = isPaused w
      /\ nextTimer (env w1) =
          (if Qgtb (Qabs (getPosition w - position)) SYNC_TOLERANCE
           then S (S (nextTimer (env w))) else nextTimer (env w))
      /\ trace (env w1) = (trace (env w) ++ l)%list
      /\ l = if Qgtb (Qabs (getPosition w - position)) SYNC_TOLERANCE
             then [ASuppress true; ASeekTo position; AToast "Synced to host";
                   ASetTimeout (nextTimer (env w)) CbHideToast 2000;
                   ASetTimeout (S (nextTimer (env w))) CbClearRemote 100]
             else []).
    { destruct (Qgtb _ _).
      - destruct (seek_block w position "Synced to host") as (w1 & E & P & N & Tr).
        exists w1. eexists. repeat split; eauto.
      - exists w, []. repeat split; auto. now rewrite app_nil_r. }
    destruct S1 as (w1 & l & E1 & P1 & N1 & T1 & ->).
    rewrite (bind_ok _ _ _ _ _ E1).
    unfold bind at 1; unfold gets at 1; cbv beta iota. rewrite P1.
    destruct playing, (isPaused w) eqn:P; cbn [andb negb].
    - destruct (play_block w1) as (w2 & -> & T2). cbn [fst].
      rewrite T2, T1, N1, <- app_assoc. apply drop_trace.
    - unfold bind at 1; unfold gets at 1; cbv beta iota.
      unfold when, ret. cbn [fst]. rewrite T1, app_nil_r. apply drop_trace.
    - unfold bind at 1; unfold gets at 1; cbv beta iota. rewrite P1.
      unfold when, ret. cbn [fst negb andb]. rewrite T1, app_nil_r. apply drop_trace.
    - unfold bind at 1; unfold gets at 1; cbv beta iota. rewrite P1.
      cbn [andb negb when].
      destruct (pause_block w1) as (w2 & -> & T2). cbn [fst].
      rewrite T2, T1, N1, <- app_assoc. apply drop_trace. }
  rewrite T. split; [reflexivity|split].
  - destruct (Qgtb _ _), playing, (isPaused w); reflexivity.
  - intros Hpos -> -> ->.
    assert (D : Qgtb (Qabs (getPosition w - 15)) SYNC_TOLERANCE = true).
    { rewrite (Qgtb_wd _ (Qabs (10 - 15))); [reflexivity|]. now rewrite Hpos. }
    rewrite D. reflexivity.
Qed.

(** ** Frame reasoning

    Handlers are sequences of primitive updates, so [keeps R] is proved once
    per primitive and carried through [bind], for a preorder [R]. *)
Section Keeps.
Variable R : relation World.
Hypothesis HR : PreOrder R.

Lemma keeps_ret {A} (a : A) : keeps R (ret a).
Proof. intros w. reflexivity. Qed.

Lemma keeps_gets {A} (f : World -> A) : keeps R (gets f).
Proof. intros w. reflexivity. Qed.

Lemma keeps_throw {A} (e : Exn) : keeps R (@throw A e).
Proof. intros w. reflexivity. Qed.

Lemma keeps_modify (f : World -> World) : (forall w, R w (f w)) -> keeps R (modify f).
Proof. intros H w. apply H. Qed.

Lemma keeps_bind {A B} (m : M A) (f : A -> M B) :
  keeps R m -> (forall a, keeps R (f a)) -> keeps R (bind m f).
Proof.
  intros Hm Hf w. unfold exec, bind. specialize (Hm w). unfold exec in Hm.
  destruct (m w) as [w1 [a|e]]; cbn in *; [|exact Hm].
  etransitivity; [exact Hm|]. apply Hf.
Qed.

(** If the browser's own part of every event and every listener respect
    [R], so does every turn of the loop, and every run. *)
Hypothesis arrive_R : forall e w, enabled e w = true -> R w (arrive e w).
Hypothesis listener_R : forall e w, keeps R (listener e w).

Lemma keeps_step (e : Event) (w w' : World) : step e w = Some w' -> R w w'.
Proof.
  unfold step. destruct (enabled e w) eqn:E; [|discriminate].
  intros [= <-]. etransitivity; [apply arrive_R, E|apply listener_R].
Qed.

Lemma keeps_run (es : list Event) (w w' : World) : run es w = Some w' -> R w w'.
Proof.
  revert w. induction es as [|e es IH]; intros w; cbn.
  - intros [= <-]. reflexivity.
  - destruct (step e w) as [w1|] eqn:S; [|discriminate].
    intros H. etransitivity; [apply (keeps_step _ _ _ S)|apply IH, H].
Qed.
End Keeps.

Ltac head_of t := match t with ?f _ => head_of f | _ => t end.

(** Walks a handler down to its primitive updates: [known] recognises
    functions already dealt with, [leaf] settles a [modify]. *)
Ltac keeps_walk HR known leaf :=
  repeat match goal with
         | |- keeps _ (ret _) => apply (keeps_ret _ HR)
         | |- keeps _ (gets _) => apply (keeps_gets _ HR)
         | |- keeps _ (throw _) => apply (keeps_throw _ HR)
         | |- keeps _ (bind _ _) => apply (keeps_bind _ HR); [|intros ?]
         | |- keeps _ (modify _) => apply keeps_modify; intros ?; solve [leaf]
         | |- keeps _ (if ?b then _ else _) => destruct b
         | |- keeps _ (match ?x with _ => _ end) => destruct x
         | |- keeps _ _ => known
         | |- keeps _ ?m => let h := head_of m in progress unfold h
         end.

(** *** The clock and the time of the last forwarded seek *)

Lemma seek_stamp_preorder : PreOrder seek_stamp.
Proof.
  split.
  - intros w. split; [lia|auto].
  - intros a b c [C1 L1] [C2 L2]. split; [lia|].
    destruct L1 as [L1|L1], L2 as [L2|L2]; [left; congruence|right; lia..].
Qed.

Ltac stamp_now :=
  unfold seek_stamp; cbn;
  repeat match goal with
         | |- context [match ?x with _ => _ end] => destruct x; cbn
         end;
  (split; [lia|auto]).

Lemma stamp_onVideoSeeked (v : Video) : keeps seek_stamp (onVideoSeeked v).
Proof.
  intros w. unfold seek_stamp, exec, onVideoSeeked, bind, gets, Date_now, when, modify.
  cbn. destruct (_ && _); cbn; [|split; [lia|auto]].
  unfold socket_send, bind, gets. cbn.
  destruct (socket (js w)); cbn; [|split; [lia|right; lia]].
  destruct (stateOf _ _) as [[]|]; cbn; (split; [lia|right; lia]).
Qed.

Ltac stamp_known :=
  idtac; match goal with
  | |- keeps _ (onVideoSeeked _) => apply stamp_onVideoSeeked
  end.

Lemma stamp_connect : keeps seek_stamp connect.
Proof. keeps_walk seek_stamp_preorder stamp_known stamp_now. Qed.

Lemma stamp_handleMessage (m : Msg) : keeps seek_stamp (handleMessage m).
Proof. keeps_walk seek_stamp_preorder stamp_known stamp_now. Qed.

Ltac stamp_known' :=
  idtac; match goal with
  | |- keeps _ (onVideoSeeked _) => apply stamp_onVideoSeeked
  | |- keeps _ connect => apply stamp_connect
  | |- keeps _ (handleMessage _) => apply stamp_handleMessage
  end.

Lemma stamp_listener (e : Event) (w : World) : keeps seek_stamp (listener e w).
Proof. keeps_walk seek_stamp_preorder stamp_known' stamp_now. Qed.

Lemma stamp_arrive (e : Event) (w : World) :
  enabled e w = true -> seek_stamp w (arrive e w).
Proof.
  destruct e; cbn [enabled arrive]; intros H.
  - apply Z.leb_le in H. unfold seek_stamp; cbn. split; [lia|auto].
  - destruct (_ !! _) as [t|]; [|discriminate].
    unfold rearm. destruct (t_period t); stamp_now.
  - stamp_now.
  - stamp_now.
  - stamp_now.
  - stamp_now.
  - stamp_now.
  - unfold yt_update. stamp_now.
  - unfold yt_update. stamp_now.
  - unfold yt_update. stamp_now.
  - stamp_now.
  - stamp_now.
  - stamp_now.
  - stamp_now.
  - stamp_now.
  - stamp_now.
  - stamp_now.
  - stamp_now.
  - stamp_now.
  - stamp_now.
  - stamp_now.
  - stamp_now.
  - stamp_now.
Qed.

(** Along any run the clock moves forward and [lastSentSeek] stays between
    its old value and the clock. *)
Lemma stamp_run (es : list Event) (w w' : World) :
  run es w = Some w' -> seek_stamp w w'.
Proof.
  apply (keeps_run _ seek_stamp_preorder); [apply stamp_arrive|apply stamp_listener].
Qed.

(** ** Local seeks *)

Lemma socketOpen_inv (w : World) :
  socketOpen w = true ->
  exists s, socket (js w) = Some s /\ stateOf w s = Some OPEN.
Proof.
  unfold socketOpen. destruct (socket (js w)) as [s|]; [|discriminate].
  destruct (stateOf w s) as [[]|] eqn:E; try discriminate. eauto.
Qed.

Lemma seeked_eq (w : World) (video : Video) :
  onVideoSeeked video w =
  when (negb (isRemoteAction (js w)) && socketOpen w
        && (300 <? clock (env w) - lastSentSeek (js w)))
    (modify (on_js (set_lastSentSeek (clock (env w)))) ;;
     socket_send (OSeek (currentTime video))) w.
Proof. reflexivity. Qed.

Lemma seeked_off (w : World) (video : Video) :
  negb (isRemoteAction (js w)) && socketOpen w
    && (300 <? clock (env w) - lastSentSeek (js w)) = false ->
  exec (onVideoSeeked video) w = w /\ sent (did (onVideoSeeked video) w) = [].
Proof.
  intros G.
  assert (E : exec (onVideoSeeked video) w = w).
  { unfold exec. rewrite seeked_eq, G. reflexivity. }
  split; [exact E|]. now rewrite (did_nil _ _ E).
Qed.

(** C8 (as the code has it). A local seek on the direct-file element is
    forwarded exactly when the suppression flag is clear, the socket is open
    and MORE than 300 ms have passed since the last forwarded seek; it then
    becomes the last forwarded seek.  Otherwise nothing happens.  After a
    forwarded seek, no local seek is forwarded during the next 300 ms,
    whatever else happens in between. *)
Theorem seek_debounce (w : World) (video : Video) :
  let h := onVideoSeeked video in
  let go := negb (isRemoteAction (js w)) && socketOpen w
            && (300 <? clock (env w) - lastSentSeek (js w)) in
  (go = true ->
     sent (did h w) = [OSeek (currentTime video)]
     /\ lastSentSeek (js (exec h w)) = clock (env w))
  /\ (go = false -> exec h w = w /\ sent (did h w) = [])
  /\ (go = true ->
      forall es w2 video2,
        run es (exec h w) = Some w2 ->
        clock (env w2) - clock (env w) <= 300 ->
        exec (onVideoSeeked video2) w2 = w2
        /\ sent (did (onVideoSeeked video2) w2) = []).
Proof.
  cbn zeta.
  pose proof seeked_off as Off.
  assert (On : negb (isRemoteAction (js w)) && socketOpen w
      && (300 <? clock (env w) - lastSentSeek (js w)) = true ->
    sent (did (onVideoSeeked video) w) = [OSeek (currentTime video)]
    /\ lastSentSeek (js (exec (onVideoSeeked video) w)) = clock (env w)
    /\ clock (env (exec (onVideoSeeked video) w)) = clock (env w)).
  { intros G. unfold did, exec. rewrite seeked_eq, G.
    apply andb_prop in G as [G _]. apply andb_prop in G as [_ G].
    apply socketOpen_inv in G as (s & Hs & Hst).
    unfold when, bind, modify, socket_send, gets, stateOf in *. cbn in *.
    rewrite Hs. cbn. rewrite Hst. cbn.
    rewrite drop_app_length. auto. }
  split; [|split].
  - intros G. destruct (On G) as (A & B & _). auto.
  - apply Off.
  - intros G es w2 video2 Hrun Hclk.
    destruct (On G) as (_ & L & C).
    apply stamp_run in Hrun. destruct Hrun as [C2 L2]. rewrite L, C in *.
    apply Off. apply andb_false_intro2. apply Z.ltb_ge.
    destruct L2 as [L2|L2]; lia.
Qed.

(** ** The cadence timer *)

Lemma cad_frame_preorder : PreOrder cad_frame.
Proof.
  split.
  - intros w. repeat split; auto. intros id t H. left. eauto.
  - intros a b c (N1 & S1 & T1) (N2 & S2 & T2). repeat split; [lia|congruence|].
    intros id t'' H. destruct (T2 _ _ H) as [(t' & H' & E')|[R C]].
    + destruct (T1 _ _ H') as [(t & H0 & E)|[R C]].
      * left. exists t. split; [exact H0|congruence].
      * right. split; [lia|congruence].
    + right. split; [lia|exact C].
Qed.

Lemma cad_neutral_preorder : PreOrder cad_neutral.
Proof.
  destruct cad_frame_preorder as [Rf Tr]. split.
  - intros w. split; [apply Rf|reflexivity].
  - intros a b c [F1 H1] [F2 H2]. split; [exact (Tr _ _ _ F1 F2)|congruence].
Qed.

Lemma frame_tracked (w w' : World) :
  cad_frame w w' -> cadence_tracked w -> cadence_tracked w'.
Proof.
  intros (N & S & T) (F & H & C). repeat split.
  - intros id t' L. destruct (T _ _ L) as [(t & L0 & _)|[R _]]; [|lia].
    specialize (F _ _ L0). lia.
  - intros id E. rewrite S in E. specialize (H _ E). lia.
  - intros id t' L Cd. rewrite S. destruct (T _ _ L) as [(t & L0 & E)|[_ X]].
    + apply (C _ _ L0). congruence.
    + congruence.
Qed.

Lemma neutral_ok (w w' : World) : cad_neutral w w' -> cadence_ok w -> cadence_ok w'.
Proof.
  intros [Fr Hh] [Tk Ro]. split; [exact (frame_tracked _ _ Fr Tk)|].
  intros id t' L Cd. rewrite Hh. destruct Fr as (_ & _ & T).
  destruct (T _ _ L) as [(t & L0 & E)|[_ X]]; [|congruence].
  rewrite <- E. apply (Ro _ _ L0). congruence.
Qed.

(** Primitive updates that leave the timer table, [syncInterval] and
    [isHost] alone. *)
Ltac cad_now :=
  unfold cad_neutral, cad_frame; cbn;
  repeat match goal with
         | |- context [match ?x with _ => _ end] => destruct x; cbn
         end;
  (split; [split; [lia|split; [reflexivity|intros ? ? ?; left; eauto]]|reflexivity]).

Lemma neutral_setTimeout (cb : Callback) (ms : Z) :
  is_cadence cb = false -> keeps cad_neutral (setTimeout cb ms).
Proof.
  intros Hcb w. unfold cad_neutral, cad_frame, exec. cbn.
  split; [split; [lia|split; [reflexivity|]]|reflexivity].
  intros id t' L. destruct (decide (id = nextTimer (env w))) as [->|Ne].
  - rewrite lookup_insert_eq in L. injection L as <-. right. cbn. split; [lia|exact Hcb].
  - rewrite lookup_insert_ne in L by congruence. left. eauto.
Qed.

Lemma neutral_setInterval (cb : Callback) (ms : Z) :
  is_cadence cb = false -> keeps cad_neutral (setInterval cb ms).
Proof.
  intros Hcb w. unfold cad_neutral, cad_frame, exec. cbn.
  split; [split; [lia|split; [reflexivity|]]|reflexivity].
  intros id t' L. destruct (decide (id = nextTimer (env w))) as [->|Ne].
  - rewrite lookup_insert_eq in L. injection L as <-. right. cbn. split; [lia|exact Hcb].
  - rewrite lookup_insert_ne in L by congruence. left. eauto.
Qed.

Lemma neutral_clearInterval (h : option nat) : keeps cad_neutral (clearInterval h).
Proof.
  intros w. unfold cad_neutral, cad_frame, exec. destruct h as [i|]; cbn.
  - split; [split; [lia|split; [reflexivity|]]|reflexivity].
    intros id t' L. apply lookup_delete_Some in L as [_ L]. left. eauto.
  - split; [split; [lia|split; [reflexivity|]]|reflexivity].
    intros id t' L. left. eauto.
Qed.

Ltac cad_known :=
  idtac;
  match goal with
  | |- keeps _ (setTimeout _ _) => apply neutral_setTimeout; reflexivity
  | |- keeps _ (setInterval _ _) => apply neutral_setInterval; reflexivity
  | |- keeps _ (clearInterval _) => apply neutral_clearInterval
  end.

Lemma neutral_connect : keeps cad_neutral connect.
Proof. keeps_walk cad_neutral_preorder cad_known cad_now. Qed.

Lemma neutral_updateHostIndicator : keeps cad_neutral updateHostIndicator.
Proof. keeps_walk cad_neutral_preorder cad_known cad_now. Qed.

Lemma neutral_renderQueue : keeps cad_neutral renderQueue.
Proof. keeps_walk cad_neutral_preorder cad_known cad_now. Qed.

Lemma neutral_loadMedia (m : MediaItem) : keeps cad_neutral (loadMedia m).
Proof. keeps_walk cad_neutral_preorder cad_known cad_now. Qed.

Lemma neutral_showToast (s : string) : keeps cad_neutral (showToast s).
Proof. keeps_walk cad_neutral_preorder cad_known cad_now. Qed.

Lemma neutral_seekTo (t : Q) : keeps cad_neutral (seekTo t).
Proof. keeps_walk cad_neutral_preorder cad_known cad_now. Qed.

Lemma neutral_playMedia : keeps cad_neutral playMedia.
Proof. keeps_walk cad_neutral_preorder cad_known cad_now. Qed.

Ltac cad_known' :=
  idtac;
  match goal with
  | |- keeps _ (setTimeout _ _) => apply neutral_setTimeout; reflexivity
  | |- keeps _ (setInterval _ _) => apply neutral_setInterval; reflexivity
  | |- keeps _ (clearInterval _) => apply neutral_clearInterval
  | |- keeps _ connect => apply neutral_connect
  | |- keeps _ updateHostIndicator => apply neutral_updateHostIndicator
  | |- keeps _ renderQueue => apply neutral_renderQueue
  | |- keeps _ (loadMedia _) => apply neutral_loadMedia
  | |- keeps _ (showToast _) => apply neutral_showToast
  | |- keeps _ (seekTo _) => apply neutral_seekTo
  | |- keeps _ playMedia => apply neutral_playMedia
  end.

Lemma neutral_handleMessage (m : Msg) :
  carries_role m = false -> keeps cad_neutral (handleMessage m).
Proof.
  destruct m; try discriminate; intros _;
    keeps_walk cad_neutral_preorder cad_known' cad_now.
Qed.

(** [startSyncIntervals] discards the timer [syncInterval] points to and arms
    the cadence of the current role under a fresh handle. *)
Lemma start_rearms (w : World) :
  cadence_tracked w ->
  exists w1,
    startSyncIntervals w = (w1, Ok tt)
    /\ cadence_ok w1
    /\ isHost (js w1) = isHost (js w)
    /\ syncInterval (js w1) = Some (nextTimer (env w))
    /\ timers (env w1) !! nextTimer (env w) =
         Some {| t_cb := roleCallback (isHost (js w));
                 t_due := clock (env w) + rolePeriod (isHost (js w));
                 t_period := Some (rolePeriod (isHost (js w))) |}
    /\ (forall old, syncInterval (js w) = Some old -> timers (env w1) !! old = None).
Proof.
  intros (F & H & C).
  set (n := nextTimer (env w)).
  set (new := {| t_cb := roleCallback (isHost (js w));
                 t_due := clock (env w) + rolePeriod (isHost (js w));
                 t_period := Some (rolePeriod (isHost (js w))) |}).
  set (base := match syncInterval (js w) with
               | Some old => delete old (timers (env w))
               | None => timers (env w)
               end).
  assert (Run : startSyncIntervals w = (exec startSyncIntervals w, Ok tt)
                /\ timers (env (exec startSyncIntervals w)) = <[n := new]> base
                /\ nextTimer (env (exec startSyncIntervals w)) = S n
                /\ syncInterval (js (exec startSyncIntervals w)) = Some n
                /\ isHost (js (exec startSyncIntervals w)) = isHost (js w)).
  { subst n new base. clear.
    destruct w as [[? ? ? ? [old|] ? ? ? ? ? [|]] d b]; repeat split. }
  destruct Run as (Run & Tm & Nx & Sy & Ho).
  assert (Base : forall id t, base !! id = Some t ->
                   timers (env w) !! id = Some t /\ syncInterval (js w) <> Some id).
  { subst base. intros id t L. destruct (syncInterval (js w)) as [old|].
    - apply lookup_delete_Some in L as [Ne L]. split; [exact L|congruence].
    - split; [exact L|discriminate]. }
  assert (NoCad : forall id t, base !! id = Some t -> is_cadence (t_cb t) = false).
  { intros id t L. destruct (Base _ _ L) as [L0 Ns].
    destruct (is_cadence (t_cb t)) eqn:Cd; [|reflexivity].
    exfalso. exact (Ns (C _ _ L0 Cd)). }
  exists (exec startSyncIntervals w). split; [exact Run|].
  split; [|split; [exact Ho|split; [exact Sy|split]]].
  - (* the invariant *)
    unfold cadence_ok, cadence_tracked. rewrite Tm, Nx, Sy, Ho.
    split; [split; [|split]|].
    + intros id t L. apply lookup_insert_Some in L as [[<- _]|[_ L]]; [lia|].
      destruct (Base _ _ L) as [L0 _]. specialize (F _ _ L0). fold n in F. lia.
    + intros id [= <-]. lia.
    + intros id t L Cd. apply lookup_insert_Some in L as [[<- _]|[_ L]]; [reflexivity|].
      rewrite (NoCad _ _ L) in Cd. discriminate.
    + intros id t L Cd. apply lookup_insert_Some in L as [[_ <-]|[_ L]]; [reflexivity|].
      rewrite (NoCad _ _ L) in Cd. discriminate.
  - rewrite Tm. apply lookup_insert_eq.
  - intros old E. rewrite Tm. specialize (H _ E). fold n in H.
    rewrite lookup_insert_ne by lia. subst base. rewrite E. apply lookup_delete_eq.
Qed.

Lemma cad_keep_preorder : PreOrder cad_keep.
Proof.
  destruct cad_neutral_preorder as [Rf Tr]. split.
  - intros w. split; [apply Rf|auto].
  - intros a b c [N1 K1] [N2 K2]. split; [exact (Tr _ _ _ N1 N2)|].
    intros id L. destruct N1 as [(M & _) _]. rewrite K2 by lia. now apply K1.
Qed.

Ltac keep_now :=
  unfold cad_keep; split; [cad_now|cbn; auto].

Lemma keep_setTimeout (cb : Callback) (ms : Z) :
  is_cadence cb = false -> keeps cad_keep (setTimeout cb ms).
Proof.
  intros Hcb w. split; [now apply neutral_setTimeout|].
  intros id L. unfold exec; cbn. apply lookup_insert_ne. lia.
Qed.

Ltac keep_known :=
  idtac;
  match goal with
  | |- keeps _ (setTimeout _ _) => apply keep_setTimeout; reflexivity
  end.

Lemma keep_updateHostIndicator : keeps cad_keep updateHostIndicator.
Proof. keeps_walk cad_keep_preorder keep_known keep_now. Qed.

Lemma keep_showToast (s : string) : keeps cad_keep (showToast s).
Proof. keeps_walk cad_keep_preorder keep_known keep_now. Qed.

Lemma keep_state_tail (current : option MediaItem) (position : Q) (playing : bool) :
  keeps cad_keep
    (renderQueue ;;
     match current with
     | Some media =>
       loadMedia media ;; when (Qgtb position 0) (seekTo position) ;; when playing playMedia
     | None => ret tt
     end).
Proof. keeps_walk cad_keep_preorder keep_known keep_now. Qed.

Lemma updateHostIndicator_returns (w : World) :
  updateHostIndicator w = (exec updateHostIndicator w, Ok tt).
Proof.
  unfold exec, updateHostIndicator, bind, gets, when. cbn.
  destruct (socketOpen w); reflexivity.
Qed.

(** Adopting a role, showing it, and re-arming. *)
Lemma adopt_rearms (w : World) (host : bool) (rest : M unit) :
  cadence_tracked w ->
  keeps cad_keep rest ->
  let w' := exec (updateHostIndicator ;; startSyncIntervals ;; rest)
                 (on_js (set_isHost host) w) in
  cadence_ok w' /\ isHost (js w') = host /\ rearmed w w'.
Proof.
  intros Tk Hrest. cbn zeta.
  set (w0 := on_js (set_isHost host) w).
  assert (T0 : cadence_tracked w0) by exact Tk.
  pose proof (keep_updateHostIndicator w0) as [[Fr Hh] K1].
  pose proof (updateHostIndicator_returns w0) as E1.
  set (w1 := exec updateHostIndicator w0) in *.
  assert (T1 : cadence_tracked w1) by exact (frame_tracked _ _ Fr T0).
  destruct (start_rearms w1 T1) as (w2 & E2 & Ok2 & Hh2 & S2 & L2 & O2).
  assert (E : exec (updateHostIndicator ;; startSyncIntervals ;; rest) w0 = exec rest w2).
  { unfold exec. rewrite (bind_ok _ _ _ _ _ E1), (bind_ok _ _ _ _ _ E2). reflexivity. }
  rewrite E. destruct (Hrest w2) as [N3 K3].
  assert (Nx : nextTimer (env w1) = nextTimer (env w)).
  { unfold w1, w0, exec, updateHostIndicator, bind, gets, when. cbn.
    destruct (socketOpen _); reflexivity. }
  assert (Ck : clock (env w1) = clock (env w)).
  { unfold w1, w0, exec, updateHostIndicator, bind, gets, when. cbn.
    destruct (socketOpen _); reflexivity. }
  assert (Sy : syncInterval (js w1) = syncInterval (js w)).
  { destruct Fr as (_ & -> & _). reflexivity. }
  assert (Ho : isHost (js w1) = host) by (rewrite Hh; reflexivity).
  assert (Nn : (nextTimer (env w1) < nextTimer (env w2))%nat).
  { destruct Ok2 as [(F2 & _) _]. apply (F2 _ _ L2). }
  split; [exact (neutral_ok _ _ N3 Ok2)|].
  destruct N3 as [(_ & S3 & _) H3].
  split; [congruence|]. unfold rearmed; cbn zeta. rewrite H3, Hh2, Ho.
  split; [congruence|split].
  - rewrite K3 by lia. rewrite <- Nx, <- Ck, <- Ho. exact L2.
  - intros old Eo. rewrite <- Sy in Eo.
    assert (old < nextTimer (env w1))%nat by (destruct T1 as (_ & H1 & _); auto).
    rewrite K3 by lia. auto.
Qed.

Lemma state_rearms (w : World) viewers q host current position playing :
  cadence_tracked w ->
  let w' := exec (handleMessage (MState viewers q host current position playing)) w in
  cadence_ok w' /\ isHost (js w') = default false host /\ rearmed w w'.
Proof.
  intros Tk.
  set (w0 := on_js (set_queue (default [] q))
               (on_dom (set_viewersEl (Some (viewers, plural viewers))) w)).
  assert (T0 : cadence_tracked w0) by exact Tk.
  exact (adopt_rearms w0 (default false host) _ T0
           (keep_state_tail current position playing)).
Qed.

Lemma keep_host_tail (b : bool) :
  keeps cad_keep (when b (showToast "You are now the host")).
Proof. keeps_walk cad_keep_preorder keep_known keep_now. Qed.

Lemma host_update_rearms (w : World) (host : option bool) :
  cadence_ok w ->
  let w' := exec (handleMessage (MHostUpdate host)) w in
  cadence_ok w' /\ isHost (js w') = default false host
  /\ (isHost (js w') <> isHost (js w) -> rearmed w w').
Proof.
  intros [Tk Ro]. cbn zeta.
  set (h := default false host).
  destruct (Bool.eqb (isHost (js w)) h) eqn:Eq.
  - (* the role is the one we have: nothing but the indicator *)
    apply Bool.eqb_prop in Eq.
    assert (E : exec (handleMessage (MHostUpdate host)) w
                = exec updateHostIndicator (on_js (set_isHost h) w)).
    { unfold exec, handleMessage.
      unfold bind at 1; unfold gets at 1; cbv beta iota.
      unfold bind at 1; unfold modify at 1; cbv beta iota.
      rewrite (bind_ok _ _ _ _ _ (updateHostIndicator_returns _)).
      unfold bind at 1; unfold gets at 1; cbv beta iota.
      assert (X : isHost (js (exec updateHostIndicator (on_js (set_isHost h) w))) = h).
      { destruct (keep_updateHostIndicator (on_js (set_isHost h) w)) as [[_ ->] _].
        reflexivity. }
      fold h. rewrite X, Eq, Bool.eqb_reflx. reflexivity. }
    rewrite E.
    destruct (keep_updateHostIndicator (on_js (set_isHost h) w)) as [N _].
    assert (O0 : cadence_ok (on_js (set_isHost h) w)).
    { split; [exact Tk|]. cbn. rewrite <- Eq. exact Ro. }
    split; [exact (neutral_ok _ _ N O0)|].
    destruct N as [_ ->]. cbn. split; [reflexivity|]. intros X. congruence.
  - (* a new role *)
    assert (E : exec (handleMessage (MHostUpdate host)) w
                = exec (updateHostIndicator ;; startSyncIntervals ;;
                        when h (showToast "You are now the host"))
                       (on_js (set_isHost h) w)).
    { unfold exec, handleMessage.
      unfold bind at 1; unfold gets at 1; cbv beta iota.
      unfold bind at 1; unfold modify at 1; cbv beta iota.
      rewrite !(bind_ok _ _ _ _ _ (updateHostIndicator_returns _)).
      unfold bind at 1; unfold gets at 1; cbv beta iota.
      assert (X : isHost (js (exec updateHostIndicator (on_js (set_isHost h) w))) = h).
      { destruct (keep_updateHostIndicator (on_js (set_isHost h) w)) as [[_ ->] _].
        reflexivity. }
      fold h. rewrite X, Eq. reflexivity. }
    rewrite E.
    destruct (adopt_rearms w h _ Tk (keep_host_tail h)) as (A & B & C). auto.
Qed.

(** Closing the channel: both handles are cleared and no cadence timer is
    left. *)
(** The error listener cannot throw, so the close listener runs on the page
    it leaves. *)
Lemma error_then_close (w : World) : exec (onerror ;; onclose) w = exec onclose (exec onerror w).
Proof. reflexivity. Qed.

Lemma close_clears (w : World) :
  cadence_tracked w ->
  let w' := exec onclose w in
  cadence_ok w'
  /\ isHost (js w') = false
  /\ (forall id t, timers (env w') !! id = Some t -> is_cadence (t_cb t) = false)
  /\ (forall id, pingInterval (js w) = Some id -> timers (env w') !! id = None)
  /\ (forall id, syncInterval (js w) = Some id -> timers (env w') !! id = None).
Proof.
  intros (F & H & C). cbn zeta.
  assert (T : timers (env (exec onclose w)) =
              match syncInterval (js w) with
              | Some s => delete s
              | None => fun m => m
              end (match pingInterval (js w) with
                   | Some p => delete p
                   | None => fun m => m
                   end (timers (env w)))).
  { clear. destruct w as [[? ? ? [p|] [s|] ? ? ? ? ? ?] d b]; reflexivity. }
  assert (Sub : forall id t, timers (env (exec onclose w)) !! id = Some t ->
                  timers (env w) !! id = Some t
                  /\ syncInterval (js w) <> Some id /\ pingInterval (js w) <> Some id).
  { intros id t. rewrite T.
    destruct (syncInterval (js w)) as [s|], (pingInterval (js w)) as [p|]; intros L;
      repeat (apply lookup_delete_Some in L as [? L]); repeat split; auto; congruence. }
  assert (No : forall id t, timers (env (exec onclose w)) !! id = Some t ->
                 is_cadence (t_cb t) = false).
  { intros id t L. destruct (Sub _ _ L) as (L0 & Ns & _).
    destruct (is_cadence (t_cb t)) eqn:Cd; [|reflexivity].
    exfalso. apply Ns. exact (C _ _ L0 Cd). }
  assert (Nx : nextTimer (env (exec onclose w)) = nextTimer (env w)).
  { clear. destruct w as [[? ? ? [p|] [s|] ? ? ? ? ? ?] d b]; reflexivity. }
  assert (Sy : syncInterval (js (exec onclose w)) = syncInterval (js w)).
  { clear. destruct w as [[? ? ? [p|] [s|] ? ? ? ? ? ?] d b]; reflexivity. }
  assert (Ho : isHost (js (exec onclose w)) = false).
  { clear. destruct w as [[? ? ? [p|] [s|] ? ? ? ? ? ?] d b]; reflexivity. }
  repeat split; auto.
  - intros id t L. rewrite Nx. destruct (Sub _ _ L) as (L0 & _). eauto.
  - intros id. rewrite Nx, Sy. auto.
  - intros id t L Cd. rewrite (No _ _ L) in Cd. discriminate.
  - intros id t L Cd. rewrite (No _ _ L) in Cd. discriminate.
  - intros id E. destruct (timers (env (exec onclose w)) !! id) eqn:L; [|reflexivity].
    destruct (Sub _ _ L) as (_ & _ & X). congruence.
  - intros id E. destruct (timers (env (exec onclose w)) !! id) eqn:L; [|reflexivity].
    destruct (Sub _ _ L) as (_ & X & _). congruence.
Qed.

Lemma rearm_same (w : World) (id : nat) (t : Timer) :
  timers (env w) !! id = Some t -> cad_neutral w (on_env (rearm id t) w).
Proof.
  intros L. unfold cad_neutral, cad_frame, rearm.
  destruct (t_period t) as [p|]; cbn;
    (split; [split; [lia|split; [reflexivity|]]|reflexivity]); intros i t' L'.
  - destruct (decide (i = id)) as [->|Ne].
    + rewrite lookup_insert_eq in L'. injection L' as <-. left. eauto.
    + rewrite lookup_insert_ne in L' by congruence. left. eauto.
  - apply lookup_delete_Some in L' as [_ L']. left. eauto.
Qed.

Lemma neutral_arrive (e : Event) (w : World) :
  enabled e w = true -> cad_neutral w (arrive e w).
Proof.
  destruct e; cbn [enabled arrive]; intros H; try solve [cad_now].
  - destruct (timers (env w) !! id) as [t|] eqn:L; [|discriminate].
    now apply rearm_same.
  - unfold yt_update. cad_now.
  - unfold yt_update. cad_now.
  - unfold yt_update. cad_now.
Qed.

Ltac cad_known'' :=
  idtac;
  match goal with
  | |- keeps _ (handleMessage _) => apply neutral_handleMessage; assumption
  | |- keeps _ _ => cad_known'
  end.

Lemma neutral_listener (e : Event) (w : World) :
  sets_role e = false -> keeps cad_neutral (listener e w).
Proof.
  destruct e; cbn [sets_role listener]; intros H; try discriminate;
    keeps_walk cad_neutral_preorder cad_known'' cad_now.
Qed.

Lemma neutral_step (e : Event) (w w' : World) :
  sets_role e = false -> step e w = Some w' -> cad_neutral w w'.
Proof.
  intros Hs. unfold step. destruct (enabled e w) eqn:En; [|discriminate].
  intros [= <-]. destruct cad_neutral_preorder as [_ Tr].
  exact (Tr _ _ _ (neutral_arrive _ _ En) (neutral_listener _ _ Hs _)).
Qed.

(** What a turn of the loop does to the cadence: it either leaves role and
    cadence as they are, or adopts a role from a frame and re-arms, or tears
    the cadence down on close. *)
Lemma step_cadence (e : Event) (w w' : World) :
  cadence_ok w ->
  step e w = Some w' ->
  cadence_ok w'
  /\ (isHost (js w') <> isHost (js w) ->
      (forall old, syncInterval (js w) = Some old -> timers (env w') !! old = None)
      /\ ((exists s m, e = EvMessage s m) /\ rearmed w w'
          \/ (exists s, e = EvClose s \/ e = EvError s) /\ isHost (js w') = false
             /\ forall id t, timers (env w') !! id = Some t -> is_cadence (t_cb t) = false)).
Proof.
  intros Ok0 St. destruct (sets_role e) eqn:Sr.
  - unfold step in St. destruct (enabled e w) eqn:En; [|discriminate].
    injection St as <-. destruct e; try discriminate; cbn [arrive listener].
    + (* close *)
      pose proof (neutral_arrive (EvClose s) w En) as N. cbn [arrive] in N.
      pose proof (neutral_ok _ _ N Ok0) as [Tk _].
      destruct (close_clears _ Tk) as (A & B & C & _ & D).
      split; [exact A|]. intros _. split.
      * intros old E. apply D. destruct N as [(_ & -> & _) _]. exact E.
      * right. split; [eauto|]. split; [exact B|exact C].
    + (* failure: error, then close *)
      pose proof (neutral_arrive (EvError s) w En) as N. cbn [arrive] in N.
      pose proof (neutral_ok _ _ N Ok0) as [Tk _].
      rewrite error_then_close.
      destruct (close_clears (exec onerror (on_env (set_readyState s CLOSED) w)) Tk)
        as (A & B & C & _ & D).
      split; [exact A|]. intros _. split.
      * intros old E. apply D. exact E.
      * right. split; [eauto|]. split; [exact B|exact C].
    + (* a frame carrying a role *)
      destruct m; try discriminate; unfold onmessage.
      * destruct (state_rearms w viewers q host current position playing (proj1 Ok0))
          as (A & B & C).
        split; [exact A|]. intros _. split; [apply C|]. left. split; [eauto|exact C].
      * destruct (host_update_rearms w host Ok0) as (A & B & C).
        split; [exact A|]. intros X. specialize (C X).
        split; [apply C|]. left. split; [eauto|exact C].
  - pose proof (neutral_step _ _ _ Sr St) as N.
    split; [exact (neutral_ok _ _ N Ok0)|]. intros X. destruct N as [_ E]. congruence.
Qed.

Lemma boot_cadence (p : Page) : cadence_ok (boot p).
Proof.
  assert (T : timers (env (boot p)) =
              <[1%nat := {| t_cb := CbConnect; t_due := pg_now p + 100; t_period := None |}]> ∅
              /\ nextTimer (env (boot p)) = 2%nat /\ syncInterval (js (boot p)) = None).
  { unfold boot, main, exec. destruct (pg_room p) as [r|]; [destruct (_ && _)|];
      repeat split. }
  destruct T as (T & N & S). unfold cadence_ok, cadence_tracked. rewrite T, N, S.
  repeat split.
  - intros id t L. apply lookup_insert_Some in L as [[<- _]|[_ L]]; [lia|].
    rewrite lookup_empty in L. discriminate.
  - discriminate.
  - intros id t L Cd. apply lookup_insert_Some in L as [[_ <-]|[_ L]]; [discriminate|].
    rewrite lookup_empty in L. discriminate.
  - intros id t L Cd. apply lookup_insert_Some in L as [[_ <-]|[_ L]]; [discriminate|].
    rewrite lookup_empty in L. discriminate.
Qed.

Lemma reachable_cadence (w : World) : reachable w -> cadence_ok w.
Proof.
  induction 1 as [p _|e w w' _ IH St].
  - apply boot_cadence.
  - exact (proj1 (step_cadence _ _ _ IH St)).
Qed.



(** ** Echo suppression *)

Lemma window_frame_preorder : PreOrder window_frame.
Proof.
  split.
  - intros w. repeat split; auto.
  - intros a b c (F1 & C1 & T1) (F2 & C2 & T2). repeat split; [auto|congruence|].
    intros id t L Cb. destruct (T2 _ _ L Cb) as [L'|D].
    + exact (T1 _ _ L' Cb).
    + right. congruence.
Qed.

Lemma frame_window (T : Z) (w w' : World) :
  window_frame w w' -> window_open T w -> window_open T w'.
Proof.
  intros (F & C & Tm) (Fl & B & O). repeat split; [auto|lia|].
  intros id t L Cb. destruct (Tm _ _ L Cb) as [L'|D]; [eauto|lia].
Qed.

Ltac win_now :=
  unfold window_frame; cbn;
  repeat match goal with
         | |- context [match ?x with _ => _ end] => destruct x; cbn
         end;
  (split; [intros; first [assumption|reflexivity]
          |split; [reflexivity|intros ? ? L ?; left; exact L]]).

Lemma win_setTimeout (cb : Callback) (ms : Z) :
  (cb = CbClearRemote -> ms = 100) -> keeps window_frame (setTimeout cb ms).
Proof.
  intros Hcb w. unfold window_frame, exec. cbn. repeat split; [auto|].
  intros id t L Cb. destruct (decide (id = nextTimer (env w))) as [->|Ne].
  - rewrite lookup_insert_eq in L. injection L as <-. right. cbn in *.
    rewrite (Hcb Cb). reflexivity.
  - rewrite lookup_insert_ne in L by congruence. now left.
Qed.

Lemma win_setInterval (cb : Callback) (ms : Z) :
  cb <> CbClearRemote -> keeps window_frame (setInterval cb ms).
Proof.
  intros Hcb w. unfold window_frame, exec. cbn. repeat split; [auto|].
  intros id t L Cb. destruct (decide (id = nextTimer (env w))) as [->|Ne].
  - rewrite lookup_insert_eq in L. injection L as <-. cbn in Cb. contradiction.
  - rewrite lookup_insert_ne in L by congruence. now left.
Qed.

Lemma win_clearInterval (h : option nat) : keeps window_frame (clearInterval h).
Proof.
  intros w. unfold window_frame, exec. destruct h as [i|]; cbn; repeat split; auto.
  intros id t L Cb. apply lookup_delete_Some in L as [_ L]. now left.
Qed.

Ltac win_known :=
  idtac;
  match goal with
  | |- keeps _ (setTimeout _ _) =>
    apply win_setTimeout; intros; first [reflexivity|discriminate]
  | |- keeps _ (setInterval _ _) => apply win_setInterval; discriminate
  | |- keeps _ (clearInterval _) => apply win_clearInterval
  end.

Lemma win_connect : keeps window_frame connect.
Proof. keeps_walk window_frame_preorder win_known win_now. Qed.

Lemma win_handleMessage (m : Msg) : keeps window_frame (handleMessage m).
Proof. keeps_walk window_frame_preorder win_known win_now. Qed.

Ltac win_known' :=
  idtac;
  match goal with
  | |- keeps _ connect => apply win_connect
  | |- keeps _ (handleMessage _) => apply win_handleMessage
  | |- keeps _ _ => win_known
  end.

Lemma win_callback (cb : Callback) :
  cb <> CbClearRemote -> keeps window_frame (runCallback cb).
Proof.
  destruct cb; intros H; try congruence;
    keeps_walk window_frame_preorder win_known' win_now.
Qed.

Lemma win_listener (e : Event) (w : World) :
  (forall id, e <> EvTimer id) -> keeps window_frame (listener e w).
Proof.
  destruct e; intros H; try (exfalso; exact (H _ eq_refl)); cbn [listener];
    keeps_walk window_frame_preorder win_known' win_now.
Qed.

(** While the clock has not reached [T], an open window stays open: the only
    code that clears the flag is the callback of a timer that is not due. *)
Lemma window_step (T : Z) (e : Event) (w w' : World) :
  window_open T w -> step e w = Some w' -> clock (env w') < T -> window_open T w'.
Proof.
  intros W St Hc.
  pose proof (keeps_step _ seek_stamp_preorder stamp_arrive stamp_listener _ _ _ St)
    as [Mono _].
  unfold step in St. destruct (enabled e w) eqn:En; [|discriminate].
  injection St as <-.
  destruct e;
    try (match goal with
         | |- window_open _ (exec (listener ?e _) _) =>
           apply (frame_window T (arrive e w))
         end;
         [apply win_listener; discriminate|];
         apply (frame_window T w); [|exact W]; cbn [arrive];
         first [ win_now | unfold yt_update; win_now | unfold video_change; win_now
               | solve [repeat split; auto] ]).
  - (* time passes *)
    cbn [enabled arrive listener exec ret fst] in *. apply Z.leb_le in En.
    destruct W as (Fl & B & O). repeat split; cbn; [exact Fl|lia|exact O].
  - (* a timer runs: it is due, so it is not one that clears the flag *)
    cbn [enabled arrive listener] in *.
    destruct (timers (env w) !! id) as [t|] eqn:L; [|discriminate].
    apply Z.leb_le in En.
    assert (Cb : t_cb t <> CbClearRemote).
    { intros Cb. destruct W as (_ & _ & O). specialize (O _ _ L Cb). lia. }
    apply (frame_window T (on_env (rearm id t) w)); [apply win_callback, Cb|].
    apply (frame_window T w); [|exact W].
    unfold window_frame, rearm. destruct (t_period t) as [p|]; cbn;
      (split; [auto|split; [reflexivity|]]); intros i t' L' Cb'.
    + destruct (decide (i = id)) as [->|Ne].
      * rewrite lookup_insert_eq in L'. injection L' as <-. cbn in Cb'. contradiction.
      * rewrite lookup_insert_ne in L' by congruence. now left.
    + apply lookup_delete_Some in L' as [_ L']. now left.
Qed.

Lemma window_run (T : Z) (es : list Event) (w w' : World) :
  window_open T w -> run es w = Some w' -> clock (env w') < T -> window_open T w'.
Proof.
  revert w. induction es as [|e es IH]; intros w W; cbn.
  - now intros [= <-].
  - destruct (step e w) as [w1|] eqn:St; [|discriminate]. intros R Hc.
    apply (IH w1); [|exact R|exact Hc].
    apply (window_step T e w); [exact W|exact St|].
    pose proof (stamp_run _ _ _ R) as [Mono _]. lia.
Qed.

Lemma windows_end_from_spec (T : Z) (w : World) :
  windows_end_from T w = true ->
  forall id t, timers (env w) !! id = Some t -> t_cb t = CbClearRemote -> T <= t_due t.
Proof.
  unfold windows_end_from. rewrite forallb_forall. intros H id t L Cb.
  apply elem_of_map_to_list, list_elem_of_In in L. specialize (H _ L). cbn in H.
  rewrite Cb in H. now apply Z.leb_le.
Qed.

(** C3. While the suppression flag is set, the play, pause and seek
    listeners of the direct-file element and the state listener of the
    YouTube player do nothing at all, so they send nothing.  In particular,
    once a remote play has been applied, the player's own "started"
    notification (the element's play event, the widget's PLAYING state) is
    not sent back, and applying the remote play sends nothing itself.  The
    flag stays set, whatever happens, until 100 ms have passed, provided no
    window opened earlier is still pending; so a notification observed within
    100 ms of the remote play is never sent back. *)
Theorem suppression_blocks_echo (w : World) :
  (isRemoteAction (js w) = true ->
   forall (video : Video) (e : VideoEvent) (data : Z),
     (e <> VEnded ->
      exec (onVideo e video) w = w /\ sent (did (onVideo e video) w) = [])
     /\ exec (onYTStateChange data) w = w
     /\ sent (did (onYTStateChange data) w) = [])
  /\ (forall (position : Q) (nick : string) (video : Video),
        let w1 := exec (handleMessage (MPlay position nick)) w in
        sent (did (handleMessage (MPlay position nick)) w) = []
        /\ exec (onVideo VPlay video) w1 = w1
        /\ sent (did (onVideo VPlay video) w1) = []
        /\ exec (onYTStateChange YT_PLAYING) w1 = w1
        /\ sent (did (onYTStateChange YT_PLAYING) w1) = [])
  /\ (windows_end_from (clock (env w) + 100) w = true ->
      forall (position : Q) (nick : string) (es : list Event) (w2 : World) (video : Video),
        run es (exec (handleMessage (MPlay position nick)) w) = Some w2 ->
        clock (env w2) < clock (env w) + 100 ->
        isRemoteAction (js w2) = true
        /\ exec (onVideo VPlay video) w2 = w2
        /\ exec (onYTStateChange YT_PLAYING) w2 = w2).
Proof.
  assert (Quiet : forall w0, isRemoteAction (js w0) = true ->
    forall (video : Video) (e : VideoEvent) (data : Z),
      (e <> VEnded ->
       exec (onVideo e video) w0 = w0 /\ sent (did (onVideo e video) w0) = [])
      /\ exec (onYTStateChange data) w0 = w0
      /\ sent (did (onYTStateChange data) w0) = []).
  { intros w0 Hr video e data.
    assert (V : e <> VEnded -> exec (onVideo e video) w0 = w0).
    { intros Ne. destruct e; try congruence;
        unfold exec, onVideo, onVideoPlay, onVideoPause, onVideoSeeked, Date_now, bind, gets;
        rewrite Hr; reflexivity. }
    assert (Y : exec (onYTStateChange data) w0 = w0).
    { unfold exec, onYTStateChange, bind, gets. rewrite Hr. reflexivity. }
    split; [|split].
    - intros Ne. split; [auto|]. now rewrite (did_nil _ _ (V Ne)).
    - exact Y.
    - now rewrite (did_nil _ _ Y). }
  split; [exact (Quiet w)|split].
  - intros position nick video. cbn zeta.
    destruct (remote_play_run w position nick) as [T Fl].
    destruct (Quiet _ Fl video VPlay YT_PLAYING) as (A & B & C).
    destruct A as [A1 A2]; [discriminate|].
    rewrite T. repeat split; assumption.
  - intros Hw position nick es w2 video Hrun Hc.
    destruct (remote_play_run w position nick) as [_ Fl].
    destruct (win_handleMessage (MPlay position nick) w) as (_ & Ck & Tm).
    assert (W1 : window_open (clock (env w) + 100)
                   (exec (handleMessage (MPlay position nick)) w)).
    { split; [exact Fl|split; [lia|]]. intros id t L Cb.
      destruct (Tm _ _ L Cb) as [L'|D]; [|lia].
      exact (windows_end_from_spec _ _ Hw _ _ L' Cb). }
    destruct (window_run _ _ _ _ W1 Hrun Hc) as (F2 & _).
    destruct (Quiet _ F2 video VPlay YT_PLAYING) as (A & B & _).
    destruct A as [A _]; [discriminate|]. auto.
Qed.

(** ** The chat transcript *)

Lemma trimChat_drop (l : list ChatDiv) : trimChat l = drop (length l - 100) l.
Proof.
  induction l as [|x l IH]; [reflexivity|].
  cbn [trimChat]. destruct (100 <? length (x :: l))%nat eqn:E.
  - apply Nat.ltb_lt in E. cbn [length] in *.
    replace (S (length l) - 100)%nat with (S (length l - 100)) by lia.
    exact IH.
  - apply Nat.ltb_ge in E. cbn [length] in *.
    replace (S (length l) - 100)%nat with 0%nat by lia. reflexivity.
Qed.

Lemma addChat_eq (w : World) (nick : option string) (text : string) (isSystem : bool) :
  chatMessages (dom (exec (addChatMessage nick text isSystem) w)) =
  trimChat (chatMessages (dom w) ++
            [{| cd_system := isSystem; cd_nick := if isSystem then None else nick;
                cd_text := text |}]).
Proof. reflexivity. Qed.

Lemma chat_bound_preorder : PreOrder chat_bound.
Proof.
  split.
  - intros w. now right.
  - intros a b c [L1|E1] [L2|E2]; unfold chat_bound.
    + now left.
    + left. now rewrite E2.
    + now left.
    + right. congruence.
Qed.

Lemma bound_addChatMessage nick text isSystem :
  keeps chat_bound (addChatMessage nick text isSystem).
Proof.
  intros w. left. rewrite addChat_eq, trimChat_drop, length_drop. lia.
Qed.

Ltac chat_known :=
  idtac;
  match goal with
  | |- keeps _ (addChatMessage _ _ _) => apply bound_addChatMessage
  end.

Ltac chat_now :=
  right; cbn;
  repeat match goal with
         | |- context [match ?x with _ => _ end] => destruct x; cbn
         end; reflexivity.

Lemma bound_listener (e : Event) (w : World) : keeps chat_bound (listener e w).
Proof. keeps_walk chat_bound_preorder chat_known chat_now. Qed.

Lemma bound_arrive (e : Event) (w : World) :
  enabled e w = true -> chat_bound w (arrive e w).
Proof.
  intros _. right. destruct e; cbn [arrive]; try reflexivity.
  - destruct (_ !! _); reflexivity.
  - unfold video_change. cbn. destruct (playerContainer _); reflexivity.
Qed.

Lemma reachable_chat (w : World) :
  reachable w -> (length (chatMessages (dom w)) <= 100)%nat.
Proof.
  induction 1 as [p _|e w w' _ IH St].
  - assert (E : chatMessages (dom (boot p)) = []).
    { unfold boot, main, exec. destruct (pg_room p) as [r|]; [destruct (_ && _)|];
        reflexivity. }
    rewrite E. cbn. lia.
  - destruct (keeps_step _ chat_bound_preorder bound_arrive bound_listener _ _ _ St)
      as [L|E]; [exact L|]. now rewrite E.
Qed.

(** C10. After [addChatMessage] the transcript holds at most 100 entries:
    it is the old transcript with the new entry appended, cut down from the
    front (the oldest entries) to its last 100.  Every chat, system and
    queue notice goes through [addChatMessage], and no reachable page has a
    longer transcript. *)
Theorem chat_transcript_bounded (w : World) (nick : option string) (text : string)
    (isSystem : bool) :
  let w' := exec (addChatMessage nick text isSystem) w in
  let div := {| cd_system := isSystem; cd_nick := if isSystem then None else nick;
                cd_text := text |} in
  let all := (chatMessages (dom w) ++ [div])%list in
  (length (chatMessages (dom w')) <= 100)%nat
  /\ chatMessages (dom w') = drop (length all - 100) all
  /\ ((length all <= 100)%nat -> chatMessages (dom w') = all)
  /\ (forall n t, exec (handleMessage (MChat n t)) w = exec (addChatMessage (Some n) t false) w)
  /\ (forall t, exec (handleMessage (MSystem t)) w = exec (addChatMessage None t true) w)
  /\ (reachable w -> (length (chatMessages (dom w)) <= 100)%nat).
Proof.
  cbn zeta. rewrite addChat_eq, trimChat_drop. repeat split.
  - rewrite length_drop. lia.
  - intros L. replace (_ - 100)%nat with 0%nat by lia. reflexivity.
  - apply reachable_chat.
Qed.

(** ** Losing the channel *)

Lemma onclose_timers (w : World) :
  timers (env (exec onclose w)) =
  match syncInterval (js w) with
  | Some s => delete s
  | None => fun m => m
  end (match pingInterval (js w) with
       | Some p => delete p
       | None => fun m => m
       end (timers (env w))).
Proof. destruct w as [[? ? ? [p|] [s|] ? ? ? ? ? ?] d b]; reflexivity. Qed.

Lemma onclose_rest (w : World) :
  isHost (js (exec onclose w)) = false
  /\ socket (js (exec onclose w)) = socket (js w)
  /\ sockets (env (exec onclose w)) = sockets (env w)
  /\ nextSocket (env (exec onclose w)) = nextSocket (env w)
  /\ nextTimer (env (exec onclose w)) = nextTimer (env w)
  /\ statusText (dom (exec onclose w)) = "Disconnected"
  /\ statusDot (dom (exec onclose w)) = StDisconnected
  /\ addBtnDisabled (dom (exec onclose w)) = true
  /\ trace (env (exec onclose w)) =
       (trace (env w) ++ [AStatus "Disconnected" StDisconnected;
                          AClearInterval (pingInterval (js w));
                          AClearInterval (syncInterval (js w))])%list.
Proof.
  destruct w as [[? ? ? [p|] [s|] ? ? ? ? ? ?] d b]; unfold exec; cbn;
    rewrite <- ?app_assoc; repeat split.
Qed.



(** ** Connecting *)

Lemma forall_filter (p : ascii -> bool) (s : string) :
  forall_string p (filter_string p s) = true.
Proof.
  induction s as [|c s IH]; [reflexivity|]. cbn.
  destruct (p c) eqn:E; [cbn; now rewrite E|exact IH].
Qed.

Lemma forall_slice0 (p : ascii -> bool) (n : nat) (s : string) :
  forall_string p s = true -> forall_string p (slice0 n s) = true.
Proof.
  revert s. induction n as [|n IH]; intros [|c s]; cbn; auto.
  intros H. apply andb_prop in H as [-> H]. cbn. auto.
Qed.

Lemma length_slice0 (n : nat) (s : string) : (String.length (slice0 n s) <= n)%nat.
Proof.
  revert s. induction n as [|n IH]; intros [|c s]; cbn; try lia.
  specialize (IH s). lia.
Qed.

Lemma sanitize_ok (value : string) : room_ok (sanitize value).
Proof.
  split.
  - apply forall_slice0, forall_filter.
  - apply length_slice0.
Qed.

Lemma forall_append (p : ascii -> bool) (a b : string) :
  forall_string p (a ++ b) = forall_string p a && forall_string p b.
Proof.
  induction a as [|c a IH]; [reflexivity|].
  simpl. rewrite IH. apply andb_assoc.
Qed.

Lemma length_append (a b : string) :
  String.length (a ++ b) = (String.length a + String.length b)%nat.
Proof.
  induction a as [|c a IH]; simpl; [reflexivity|now rewrite IH].
Qed.

Lemma chars_get (n : nat) :
  (n < 36)%nat -> exists c, String.get n chars = Some c /\ is_code_char c = true.
Proof.
  intros H. do 36 (destruct n as [|n]; [eexists; split; reflexivity|]). lia.
Qed.

Lemma pick_ok (r : Q) :
  Qle_bool 0 r && negb (Qle_bool 1 r) = true ->
  exists c, pick r = String c "" /\ is_code_char c = true.
Proof.
  intros H. apply andb_prop in H as [H0 H1].
  apply Qle_bool_iff in H0.
  assert (L1 : (r < 1)%Q).
  { apply Qnot_le_lt. intros X. apply Qle_bool_iff in X. rewrite X in H1. discriminate. }
  assert (B0 : 0 <= Qfloor (r * 36)).
  { change 0 with (Qfloor 0). apply Qfloor_resp_le. lra. }
  assert (B1 : Qfloor (r * 36) < 36).
  { rewrite Zlt_Qlt. eapply Qle_lt_trans; [apply Qfloor_le|].
    change (inject_Z 36) with 36%Q. lra. }
  destruct (chars_get (Z.to_nat (Qfloor (r * 36)))) as (c & G & C); [lia|].
  exists c. unfold pick. now rewrite G.
Qed.

Lemma append_cons (c : ascii) (a b : string) : String c a ++ b = String c (a ++ b).
Proof. reflexivity. Qed.

Lemma append_empty (s : string) : s ++ "" = s.
Proof.
  induction s as [|c s IH]; [reflexivity|]. now rewrite append_cons, IH.
Qed.

Lemma concat_cons (x : string) (l : list string) :
  String.concat "" (x :: l) = x ++ String.concat "" l.
Proof.
  destruct l as [|y l]; [symmetry; apply append_empty|reflexivity].
Qed.

Lemma concat_picks (rs : list Q) :
  forallb (fun r => Qle_bool 0 r && negb (Qle_bool 1 r)) rs = true ->
  forall_string is_code_char (String.concat "" (map pick rs)) = true
  /\ String.length (String.concat "" (map pick rs)) = length rs.
Proof.
  induction rs as [|r rs IH]; [now split|].
  cbn [forallb]. intros H. apply andb_prop in H as [Hr H].
  destruct (pick_ok r Hr) as (c & E & C). destruct (IH H) as [F L].
  cbn [map]. rewrite concat_cons, E, forall_append, length_append, F, L. split.
  - apply andb_true_intro. split; [|reflexivity].
    apply andb_true_intro. split; [exact C|reflexivity].
  - reflexivity.
Qed.

Lemma generateCode_ok (rs : list Q) : draws_ok rs = true -> room_ok (generateCode rs).
Proof.
  unfold draws_ok, generateCode. intros H. apply andb_prop in H as [L F].
  apply Nat.eqb_eq in L. rewrite firstn_all2 by (rewrite L; lia).
  destruct (concat_picks rs F) as [A B]. split; [exact A|]. rewrite B. lia.
Qed.

Lemma upper_char_ok (c : ascii) :
  is_digit c || is_upper c || is_lower c = true ->
  exists c', upper_char c = String c' "" /\ is_code_char c' = true.
Proof.
  destruct c as [[] [] [] [] [] [] [] []]; cbn; intros H; try discriminate;
    eexists; split; reflexivity.
Qed.

Lemma toUpperCase_ok (s : string) :
  forall_string (fun c => is_digit c || is_upper c || is_lower c) s = true ->
  forall_string is_code_char (toUpperCase s) = true
  /\ String.length (toUpperCase s) = String.length s.
Proof.
  induction s as [|c s IH]; [now split|]. cbn [forall_string toUpperCase].
  intros H. apply andb_prop in H as [Hc H].
  destruct (upper_char_ok c Hc) as (c' & -> & C). destruct (IH H) as [F L].
  rewrite append_cons. split; [apply andb_true_intro; split; [exact C|exact F]|].
  change (S (String.length (toUpperCase s)) = S (String.length s)). now rewrite L.
Qed.

Lemma code_char_not_space (c : ascii) : is_code_char c = true -> is_space c = false.
Proof.
  destruct c as [[] [] [] [] [] [] [] []]; cbn; intros H; try discriminate; reflexivity.
Qed.

Lemma rev_rev (s a b : string) : rev_string a (rev_string b s) = rev_string (s ++ a) b.
Proof.
  revert a b. induction s as [|c s IH]; intros a b; [reflexivity|].
  cbn. now rewrite IH.
Qed.

Lemma forall_rev (p : ascii -> bool) (s a : string) :
  forall_string p (rev_string a s) = forall_string p s && forall_string p a.
Proof.
  revert a. induction s as [|c s IH]; intros a; [reflexivity|].
  cbn. rewrite IH. cbn. destruct (p c), (forall_string p s), (forall_string p a); reflexivity.
Qed.

Lemma trimStart_id (s : string) : forall_string is_code_char s = true -> trimStart s = s.
Proof.
  destruct s as [|c s]; [reflexivity|]. cbn. intros H. apply andb_prop in H as [H _].
  now rewrite (code_char_not_space _ H).
Qed.

Lemma trim_id (s : string) : forall_string is_code_char s = true -> trim s = s.
Proof.
  intros H. unfold trim. rewrite (trimStart_id s H).
  rewrite trimStart_id by (rewrite forall_rev, H; reflexivity).
  rewrite rev_rev. cbn. apply append_empty.
Qed.

Lemma room_same_preorder : PreOrder room_same.
Proof. split; [intros w; reflexivity|intros a b c; unfold room_same; congruence]. Qed.

Ltac room_now :=
  unfold room_same; cbn;
  repeat match goal with
         | |- context [match ?x with _ => _ end] => destruct x; cbn
         end; reflexivity.

Ltac no_known := idtac; fail.

Lemma room_connect : keeps room_same connect.
Proof. keeps_walk room_same_preorder no_known room_now. Qed.

Lemma room_handleMessage (m : Msg) : keeps room_same (handleMessage m).
Proof. keeps_walk room_same_preorder no_known room_now. Qed.

Ltac room_known :=
  idtac;
  match goal with
  | |- keeps _ connect => apply room_connect
  | |- keeps _ (handleMessage _) => apply room_handleMessage
  end.

Lemma room_listener (e : Event) (w : World) :
  writes_room e = false -> keeps room_same (listener e w).
Proof.
  destruct e; cbn [writes_room listener]; intros H; try discriminate;
    keeps_walk room_same_preorder room_known room_now.
Qed.

Lemma room_arrive (e : Event) (w : World) :
  writes_room e = false -> room_same w (arrive e w).
Proof.
  destruct e; cbn [writes_room arrive]; intros H; try discriminate; try reflexivity.
  - destruct (_ !! _); reflexivity.
  - unfold room_same, video_change. cbn. destruct (playerContainer _); reflexivity.
Qed.

Lemma reachable_room (w : World) : reachable w -> room_ok (roomInput (dom w)).
Proof.
  induction 1 as [p Hp|e w w' _ IH St].
  - unfold boot, main, exec. destruct (pg_room p) as [r|]; cbn.
    + destruct (truthy r && roomParamOk r) eqn:E; cbn; [|now apply generateCode_ok].
      apply andb_prop in E as [_ E]. unfold roomParamOk in E.
      apply andb_prop in E as [L F]. apply Nat.eqb_eq in L.
      destruct (toUpperCase_ok r F) as [A B]. split; [exact A|]. rewrite B. lia.
    + now apply generateCode_ok.
  - unfold step in St. destruct (enabled e w) eqn:En; [|discriminate].
    injection St as <-. destruct (writes_room e) eqn:Wr.
    + destruct e; try discriminate; cbn [arrive listener enabled] in *.
      * apply sanitize_ok.
      * pose proof (room_connect (on_dom (set_roomInput (generateCode rs)) w)) as E.
        unfold room_same in E.
        change (exec (onNewRoom rs) w)
          with (exec connect (on_dom (set_roomInput (generateCode rs)) w)).
        rewrite E. cbn. now apply generateCode_ok.
    + pose proof (room_arrive e w Wr) as A. pose proof (room_listener e w Wr (arrive e w)) as B.
      unfold room_same in *. rewrite B, A. exact IH.
Qed.

Lemma connect_short (w : World) :
  String.length (trim (roomInput (dom w))) <> 6%nat ->
  connect w = setStatus "Enter 6-char code" StError w.
Proof.
  intros H. unfold connect. unfold bind at 1; unfold gets at 1; cbv beta iota.
  apply Nat.eqb_neq in H. rewrite H. reflexivity.
Qed.

Lemma connect_long (w : World) :
  String.length (trim (roomInput (dom w))) = 6%nat ->
  did connect w =
    (match socket (js w) with Some s => [ACloseSocket s] | None => [] end
     ++ AStatus "Connecting..." StDisconnected
        :: (if has_fragment (socketUrl w) then []
            else [ANewSocket (nextSocket (env w)) (socketUrl w)]))%list
  /\ (has_fragment (socketUrl w) = true ->
      socket (js (exec connect w)) = socket (js w)
      /\ nextSocket (env (exec connect w)) = nextSocket (env w))
  /\ (has_fragment (socketUrl w) = false ->
      socket (js (exec connect w)) = Some (nextSocket (env w))
      /\ sockets (env (exec connect w)) !! nextSocket (env w) =
           Some {| ws_url := socketUrl w; readyState := CONNECTING |}).
Proof.
  intros H. apply Nat.eqb_eq in H.
  destruct w as [[sock ? ? ? ? ? ? ? ? ? ?] d [clk tms nt sks ns proto host tr]].
  unfold did, exec, connect, ws_close, stateOf, newWebSocket, setStatus, log, socketUrl.
  unfold bind, gets, modify, throw, ret.
  cbn -[has_fragment append trim String.length Nat.eqb lookup insert] in *.
  rewrite !H. cbn -[has_fragment append trim String.length Nat.eqb lookup insert].
  destruct sock as [s|];
    [match goal with |- context [fmap readyState ?o] => destruct o as [[u []]|] end|];
    cbn -[has_fragment append trim String.length Nat.eqb lookup insert];
    destruct (has_fragment _) eqn:Fr;
    cbn -[has_fragment append trim String.length Nat.eqb lookup insert];
    rewrite <- ?app_assoc, drop_app_length;
    (split; [reflexivity|split; intros X; try discriminate;
               split; try reflexivity; apply lookup_insert_eq]).
Qed.

(** C6. In every reachable state a room code that is not in the format, six
    characters that are digits or capital letters, is rejected by [connect]:
    the error status is shown, no socket is closed or created and nothing
    else changes.  A code in the format is used as it is: the current socket,
    if any, is closed first, then the connecting status is shown, then the
    new socket is created and becomes the current one (the browser refuses an
    address with a fragment, and then no socket is created).  [connect]
    itself looks at the length of the trimmed code; the characters are kept
    to digits and capital letters where the room field is written, so that in
    a reachable state a code that is not in the format has the wrong
    length. *)
Theorem connect_rejects_malformed (w : World) :
  let code := trim (roomInput (dom w)) in
  (reachable w -> roomCodeFormat code = false ->
     did connect w = [AStatus "Enter 6-char code" StError]
     /\ statusText (dom (exec connect w)) = "Enter 6-char code"
     /\ statusDot (dom (exec connect w)) = StError
     /\ js (exec connect w) = js w
     /\ sockets (env (exec connect w)) = sockets (env w)
     /\ nextSocket (env (exec connect w)) = nextSocket (env w))
  /\ (roomCodeFormat code = true ->
      did connect w =
        (match socket (js w) with Some s => [ACloseSocket s] | None => [] end
         ++ AStatus "Connecting..." StDisconnected
            :: (if has_fragment (socketUrl w) then []
                else [ANewSocket (nextSocket (env w)) (socketUrl w)]))%list
      /\ (has_fragment (socketUrl w) = true ->
          socket (js (exec connect w)) = socket (js w)
          /\ nextSocket (env (exec connect w)) = nextSocket (env w))
      /\ (has_fragment (socketUrl w) = false ->
          socket (js (exec connect w)) = Some (nextSocket (env w))
          /\ sockets (env (exec connect w)) !! nextSocket (env w) =
               Some {| ws_url := socketUrl w; readyState := CONNECTING |}))
  /\ (String.length code <> 6%nat ->
      did connect w = [AStatus "Enter 6-char code" StError]
      /\ statusText (dom (exec connect w)) = "Enter 6-char code"
      /\ statusDot (dom (exec connect w)) = StError
      /\ js (exec connect w) = js w
      /\ sockets (env (exec connect w)) = sockets (env w)
      /\ nextSocket (env (exec connect w)) = nextSocket (env w))
  /\ (String.length code = 6%nat ->
      did connect w =
        (match socket (js w) with Some s => [ACloseSocket s] | None => [] end
         ++ AStatus "Connecting..." StDisconnected
            :: (if has_fragment (socketUrl w) then []
                else [ANewSocket (nextSocket (env w)) (socketUrl w)]))%list)
  /\ (reachable w -> roomCodeFormat code = true <-> String.length code = 6%nat).
Proof.
  cbn zeta.
  assert (Short : String.length (trim (roomInput (dom w))) <> 6%nat ->
     did connect w = [AStatus "Enter 6-char code" StError]
     /\ statusText (dom (exec connect w)) = "Enter 6-char code"
     /\ statusDot (dom (exec connect w)) = StError
     /\ js (exec connect w) = js w
     /\ sockets (env (exec connect w)) = sockets (env w)
     /\ nextSocket (env (exec connect w)) = nextSocket (env w)).
  { intros H. unfold did, exec. rewrite (connect_short _ H). cbn.
    rewrite drop_app_length. repeat split. }
  assert (Fmt : reachable w ->
                roomCodeFormat (trim (roomInput (dom w))) = true
                <-> String.length (trim (roomInput (dom w))) = 6%nat).
  { intros R. destruct (reachable_room _ R) as [A B].
    rewrite (trim_id _ A). unfold roomCodeFormat. rewrite A, andb_true_r.
    apply Nat.eqb_eq. }
  assert (Len : roomCodeFormat (trim (roomInput (dom w))) = true ->
                String.length (trim (roomInput (dom w))) = 6%nat).
  { unfold roomCodeFormat. intros H. apply andb_prop in H as [H _].
    now apply Nat.eqb_eq. }
  split; [|split; [|split; [|split]]].
  - intros R F. apply Short. intros L. apply (Fmt R) in L. congruence.
  - intros F. apply connect_long, Len, F.
  - exact Short.
  - intros L. apply connect_long, L.
  - exact Fmt.
Qed.

(** ** Nickname colours *)

Lemma ToInt32_range (z : Z) : int32 (ToInt32 z).
Proof.
  unfold int32, ToInt32. pose proof (Z.mod_pos_bound (z + 2 ^ 31) (2 ^ 32)). lia.
Qed.

Lemma ToInt32_id (z : Z) : int32 z -> ToInt32 z = z.
Proof.
  unfold int32, ToInt32. intros H. rewrite Z.mod_small; lia.
Qed.

Lemma ToInt32_eqm (a b : Z) : (a - b) mod 2 ^ 32 = 0 -> ToInt32 a = ToInt32 b.
Proof.
  intros H. unfold ToInt32. f_equal.
  apply Z.mod_divide in H; [|lia]. destruct H as [k H].
  replace (a + 2 ^ 31) with (b + 2 ^ 31 + k * 2 ^ 32) by lia.
  apply Z.mod_add. lia.
Qed.

Lemma ToInt32_mod (z : Z) : (ToInt32 z - z) mod 2 ^ 32 = 0.
Proof.
  unfold ToInt32. rewrite (Z.mod_eq (z + 2 ^ 31) (2 ^ 32)) by lia.
  replace (z + 2 ^ 31 - 2 ^ 32 * ((z + 2 ^ 31) / 2 ^ 32) - 2 ^ 31 - z)
    with ((- ((z + 2 ^ 31) / 2 ^ 32)) * 2 ^ 32) by lia.
  apply Z.mod_mul. lia.
Qed.

Lemma nickHash_step (h c : Z) :
  and32 (shl32 h 5 - h + c) (shl32 h 5 - h + c) = ToInt32 (31 * h + c).
Proof.
  unfold and32. rewrite Z.land_diag.
  rewrite (ToInt32_id (ToInt32 _)) by apply ToInt32_range.
  apply ToInt32_eqm. unfold shl32. change (5 mod 32) with 5.
  rewrite Z.shiftl_mul_pow2 by lia.
  pose proof (ToInt32_mod (ToInt32 h * 2 ^ 5)) as A.
  pose proof (ToInt32_mod h) as B.
  apply Z.mod_divide in A; [|lia]. apply Z.mod_divide in B; [|lia].
  destruct A as [k A], B as [j B].
  apply Z.mod_divide; [lia|]. exists (k + 32 * j). lia.
Qed.

Lemma poly31_shift (s : string) (a k : Z) :
  exists j, poly31 (a + k * 2 ^ 32) s = poly31 a s + j * 2 ^ 32.
Proof.
  revert a k. induction s as [|c r IH]; intros a k; cbn [poly31].
  - exists k. reflexivity.
  - destruct (IH (31 * a + Z.of_nat (code_of c)) (31 * k)) as [j E].
    exists j. rewrite <- E. f_equal. lia.
Qed.

Lemma nickHash_poly (s : string) (h : Z) :
  int32 h -> nickHash h s = ToInt32 (poly31 h s).
Proof.
  revert h. induction s as [|c r IH]; intros h H; cbn [nickHash poly31].
  - symmetry. apply ToInt32_id, H.
  - rewrite nickHash_step. rewrite IH by apply ToInt32_range.
    apply ToInt32_eqm.
    pose proof (ToInt32_mod (31 * h + Z.of_nat (code_of c))) as A.
    apply Z.mod_divide in A; [|lia]. destruct A as [k A].
    destruct (poly31_shift r (31 * h + Z.of_nat (code_of c)) k) as [j E].
    replace (ToInt32 (31 * h + Z.of_nat (code_of c)))
      with (31 * h + Z.of_nat (code_of c) + k * 2 ^ 32) by lia.
    rewrite E. apply Z.mod_divide; [lia|]. exists j. lia.
Qed.

Lemma nickColor_palette (nick : string) :
  exists c, nickColor nick = Some c /\ c ∈ palette.
Proof.
  unfold nickColor.
  set (h := nickHash 0 nick).
  assert (B : (Z.to_nat (Z.rem (Z.abs h) (Z.of_nat (length palette))) < length palette)%nat).
  { pose proof (Z.rem_bound_pos (Z.abs h) (Z.of_nat (length palette))) as P.
    cbn [length palette] in *. lia. }
  destruct (lookup_lt_is_Some_2 _ _ B) as [c E].
  exists c. split; [exact E|]. eapply list_elem_of_lookup_2, E.
Qed.

(** X1. The colour of a nickname.  The hash behind it is the 31-polynomial of
    the nickname's code units reduced to a signed 32-bit integer, whatever the
    length of the nickname; and every nickname has a colour, which is one of
    the eight of the palette. *)
Theorem nickColor_hash (nick : string) :
  nickHash 0 nick = ToInt32 (poly31 0 nick)
  /\ int32 (nickHash 0 nick)
  /\ exists c, nickColor nick = Some c /\ c ∈ palette.
Proof.
  assert (H : int32 0) by (unfold int32; lia).
  rewrite (nickHash_poly nick 0 H).
  split; [reflexivity|]. split; [apply ToInt32_range|].
  apply nickColor_palette.
Qed.

(** ** Markup *)

Lemma filter_append (p : ascii -> bool) (a b : string) :
  filter_string p (a ++ b) = filter_string p a ++ filter_string p b.
Proof.
  induction a as [|c a IH]; [reflexivity|].
  rewrite append_cons. cbn [filter_string]. destruct (p c); rewrite IH; reflexivity.
Qed.

Lemma escapeHtml_append (a b : string) :
  escapeHtml (a ++ b) = escapeHtml a ++ escapeHtml b.
Proof.
  induction a as [|c a IH]; [reflexivity|].
  rewrite append_cons. cbn [escapeHtml]. rewrite IH.
  generalize (escapeHtml_char c) (escapeHtml a) (escapeHtml b).
  intros x y z. induction x as [|d x IHx]; [reflexivity|].
  rewrite !append_cons. now rewrite IHx.
Qed.

Lemma escape_char_angles (c : ascii) : filter_string is_angle (escapeHtml_char c) = "".
Proof.
  unfold escapeHtml_char.
  destruct (Ascii.eqb c "&") eqn:A; [reflexivity|].
  destruct (Ascii.eqb c "<") eqn:B; [reflexivity|].
  destruct (Ascii.eqb c ">") eqn:C; [reflexivity|].
  destruct (code_of c =? 160)%nat; [reflexivity|].
  cbn. unfold is_angle. now rewrite B, C.
Qed.

Lemma escapeHtml_angles (s : string) : filter_string is_angle (escapeHtml s) = "".
Proof.
  induction s as [|c s IH]; [reflexivity|].
  cbn [escapeHtml]. now rewrite filter_append, escape_char_angles, IH.
Qed.

Lemma append_nil_l (s : string) : "" ++ s = s.
Proof. reflexivity. Qed.

Lemma unescape_escape (s : string) : unescapeHtml (escapeHtml s) = s.
Proof.
  induction s as [|c s IH]; [reflexivity|].
  cbn [escapeHtml]. unfold escapeHtml_char.
  destruct (Ascii.eqb_spec c "&") as [->|A];
    [rewrite !append_cons, append_nil_l; cbn; now rewrite IH|].
  destruct (Ascii.eqb_spec c "<") as [->|B];
    [rewrite !append_cons, append_nil_l; cbn; now rewrite IH|].
  destruct (Ascii.eqb_spec c ">") as [->|C];
    [rewrite !append_cons, append_nil_l; cbn; now rewrite IH|].
  destruct (Nat.eqb_spec (code_of c) 160) as [D|D].
  - rewrite !append_cons, append_nil_l. cbn. rewrite IH. f_equal.
    unfold code_of in D. rewrite <- (ascii_nat_embedding c), D. reflexivity.
  - rewrite append_cons. cbn [unescapeHtml].
    destruct (Ascii.eqb_spec c "&") as [->|_]; [contradiction|].
    rewrite append_nil_l. now rewrite IH.
Qed.

(** X2. Escaping loses nothing and lets no angle bracket through: the text can
    be read back from its escaped form, and the escaped form of a text has
    neither [<] nor [>] in it.  Both kinds of quote are copied as they are. *)
Theorem escapeHtml_faithful (a b : string) :
  (escapeHtml a = escapeHtml b -> a = b)
  /\ filter_string is_angle (escapeHtml a) = ""
  /\ escapeHtml (a ++ b) = escapeHtml a ++ escapeHtml b
  /\ escapeHtml dquote = dquote /\ escapeHtml "'" = "'".
Proof.
  split; [|split; [|split; [|split]]].
  - intros H. rewrite <- (unescape_escape a), <- (unescape_escape b). now rewrite H.
  - apply escapeHtml_angles.
  - apply escapeHtml_append.
  - reflexivity.
  - reflexivity.
Qed.

(** X3. The angle brackets of a chat line are those of its template, whatever
    the nickname and the text are. *)
Theorem chat_markup_tags (nick text : string) :
  filter_string is_angle (chatMsgHtml nick text) = "<><><><>".
Proof.
  unfold chatMsgHtml.
  destruct (nickColor_palette nick) as (c & -> & P). cbn [default from_option id].
  assert (C : filter_string is_angle c = "").
  { unfold palette in P. repeat (apply elem_of_cons in P as [->|P]; [reflexivity|]).
    now apply elem_of_nil in P. }
  rewrite !filter_append, !escapeHtml_angles, C. reflexivity.
Qed.

(** ** Sending from the page *)

Lemma send_open (w : World) (m : OutMsg) (s : nat) :
  socket (js w) = Some s -> stateOf w s = Some OPEN ->
  socket_send m w = (exec (log (ASend s m)) w, Ok tt).
Proof.
  intros A B. unfold socket_send, bind, gets. cbn. rewrite A. cbn. rewrite B. reflexivity.
Qed.

Lemma truthy_false (s : string) : truthy s = false -> s = "".
Proof.
  unfold truthy. intros H. apply negb_false_iff in H. now apply String.eqb_eq in H.
Qed.

Lemma sendChat_eq (w : World) :
  sendChat w =
  (if negb (truthy (trim (chatInput (dom w)))) || negb (socketOpen w) then ret tt
   else (socket_send (OChat (trim (chatInput (dom w))) (getNick w)) ;;
         modify (on_dom (set_chatInput "")))) w.
Proof.
  unfold sendChat, bind, gets. cbn.
  destruct (negb _ || negb _); reflexivity.
Qed.

Lemma addToQueue_eq (w : World) :
  addToQueue w =
  (if negb (truthy (trim (urlInput (dom w)))) || negb (socketOpen w) then ret tt
   else (socket_send (OQueue (trim (urlInput (dom w))) (getNick w)) ;;
         modify (on_dom (set_urlInput "")))) w.
Proof.
  unfold addToQueue, bind, gets. cbn.
  destruct (negb _ || negb _); reflexivity.
Qed.

(** X4. A chat line is sent only when it is not blank and the socket is open:
    then exactly one frame goes out, with the trimmed text and the sender's
    nickname, and the input is emptied.  Otherwise nothing happens at all, and
    what was typed stays in the input. *)
Theorem sendChat_guarded (w : World) :
  let text := trim (chatInput (dom w)) in
  (truthy text && socketOpen w = false ->
     exec sendChat w = w /\ did sendChat w = [])
  /\ (truthy text && socketOpen w = true ->
      exists s, socket (js w) = Some s
        /\ did sendChat w = [ASend s (OChat text (getNick w))]
        /\ exec sendChat w =
             on_dom (set_chatInput "") (exec (log (ASend s (OChat text (getNick w)))) w)).
Proof.
  cbn zeta. split; intros G.
  - assert (E : exec sendChat w = w).
    { unfold exec. rewrite sendChat_eq.
      destruct (truthy _), (socketOpen w); try discriminate; reflexivity. }
    split; [exact E|now apply did_nil].
  - apply andb_prop in G as [T O].
    destruct (socketOpen_inv _ O) as (s & Hs & Hst). exists s.
    assert (E : sendChat w =
                (on_dom (set_chatInput "")
                   (exec (log (ASend s (OChat (trim (chatInput (dom w))) (getNick w)))) w),
                 Ok tt)).
    { rewrite sendChat_eq, T, O. cbn [negb orb]. unfold bind at 1.
      rewrite (send_open _ _ _ Hs Hst). reflexivity. }
    split; [exact Hs|]. unfold did, exec. rewrite E. cbn.
    split; [now rewrite drop_app_length|reflexivity].
Qed.

(** X5. The same for the queue: an address is submitted only when it is not
    blank and the socket is open. *)
Theorem addToQueue_guarded (w : World) :
  let url := trim (urlInput (dom w)) in
  (truthy url && socketOpen w = false ->
     exec addToQueue w = w /\ did addToQueue w = [])
  /\ (truthy url && socketOpen w = true ->
      exists s, socket (js w) = Some s
        /\ did addToQueue w = [ASend s (OQueue url (getNick w))]
        /\ exec addToQueue w =
             on_dom (set_urlInput "") (exec (log (ASend s (OQueue url (getNick w)))) w)).
Proof.
  cbn zeta. split; intros G.
  - assert (E : exec addToQueue w = w).
    { unfold exec. rewrite addToQueue_eq.
      destruct (truthy _), (socketOpen w); try discriminate; reflexivity. }
    split; [exact E|now apply did_nil].
  - apply andb_prop in G as [T O].
    destruct (socketOpen_inv _ O) as (s & Hs & Hst). exists s.
    assert (E : addToQueue w =
                (on_dom (set_urlInput "")
                   (exec (log (ASend s (OQueue (trim (urlInput (dom w))) (getNick w)))) w),
                 Ok tt)).
    { rewrite addToQueue_eq, T, O. cbn [negb orb]. unfold bind at 1.
      rewrite (send_open _ _ _ Hs Hst). reflexivity. }
    split; [exact Hs|]. unfold did, exec. rewrite E. cbn.
    split; [now rewrite drop_app_length|reflexivity].
Qed.

(** ** Trimming *)

Lemma head_trimStart (s : string) : head_space (trimStart s) = false.
Proof.
  induction s as [|c s IH]; [reflexivity|].
  cbn [trimStart]. destruct (is_space c) eqn:E; [exact IH|]. cbn. exact E.
Qed.

Lemma trimStart_fix (s : string) : head_space s = false -> trimStart s = s.
Proof.
  destruct s as [|c s]; [reflexivity|]. cbn. now intros ->.
Qed.

Lemma trimStart_split (s : string) :
  exists p, s = p ++ trimStart s /\ (trimStart s = "" \/ trimStart s <> "").
Proof.
  induction s as [|c s (p & E & _)].
  - exists "". split; [reflexivity|now left].
  - cbn [trimStart]. destruct (is_space c).
    + exists (String c p). rewrite append_cons, <- E.
      split; [reflexivity|]. destruct (trimStart s); [now left|now right].
    + exists "". split; [reflexivity|now right].
Qed.

Lemma rev_append (p c acc : string) :
  rev_string acc (p ++ c) = rev_string (rev_string acc p) c.
Proof.
  revert acc. induction p as [|x p IH]; intros acc; [reflexivity|].
  rewrite append_cons. cbn [rev_string]. apply IH.
Qed.

Lemma head_rev (c acc acc' : string) :
  c <> "" -> head_space (rev_string acc c) = head_space (rev_string acc' c).
Proof.
  revert acc acc'. induction c as [|x c IH]; intros acc acc' H; [contradiction|].
  cbn [rev_string]. destruct c as [|y c]; [reflexivity|]. now apply IH.
Qed.

Lemma rev_involutive (s : string) : rev_string "" (rev_string "" s) = s.
Proof. rewrite rev_rev. apply append_empty. Qed.

Lemma rev_empty (s : string) : rev_string "" s = "" -> s = "".
Proof.
  intros H. rewrite <- (rev_involutive s), H. reflexivity.
Qed.

(** A trimmed string neither starts nor ends with white space. *)
Lemma trim_clean (s : string) :
  head_space (trim s) = false /\ head_space (rev_string "" (trim s)) = false.
Proof.
  unfold trim. set (a := trimStart s). set (b := rev_string "" a).
  rewrite rev_involutive. split; [|apply head_trimStart].
  destruct (trimStart_split b) as (p & E & _).
  destruct (trimStart b) as [|x c] eqn:Ec; [reflexivity|].
  rewrite (head_rev (String x c) "" (rev_string "" p)) by discriminate.
  rewrite <- rev_append, <- E. unfold b. rewrite rev_involutive.
  apply head_trimStart.
Qed.

Lemma trim_fix (s : string) :
  head_space s = false -> head_space (rev_string "" s) = false -> trim s = s.
Proof.
  intros A B. unfold trim. rewrite (trimStart_fix _ A), (trimStart_fix _ B).
  apply rev_involutive.
Qed.

Lemma trim_idem (s : string) : trim (trim s) = trim s.
Proof. destruct (trim_clean s). now apply trim_fix. Qed.

(** X6. The nickname put on outgoing frames is never empty and carries no
    white space at either end; it is the nickname field trimmed, or 'Guest'
    when that is blank. *)
Theorem getNick_clean (w : World) :
  getNick w <> ""
  /\ head_space (getNick w) = false
  /\ head_space (rev_string "" (getNick w)) = false
  /\ trim (getNick w) = getNick w
  /\ getNick w = (if truthy (trim (nickInput (dom w))) then trim (nickInput (dom w))
                  else "Guest").
Proof.
  assert (E : getNick w = (if truthy (trim (nickInput (dom w)))
                           then trim (nickInput (dom w)) else "Guest")) by reflexivity.
  destruct (truthy (trim (nickInput (dom w)))) eqn:T; rewrite E.
  - destruct (trim_clean (nickInput (dom w))) as [A B].
    split; [|split; [exact A|split; [exact B|split; [apply trim_idem|reflexivity]]]].
    intros Z. rewrite Z in T. discriminate.
  - repeat split. discriminate.
Qed.

(** ** The queue panel *)


Lemma slice0_all (n : nat) (s : string) : (String.length s <= n)%nat -> slice0 n s = s.
Proof.
  revert s. induction n as [|n IH]; intros [|c s]; cbn; intros H; try reflexivity; try lia.
  rewrite IH; [reflexivity|lia].
Qed.




(** ** The room field *)

Lemma upper_char_fix (c : ascii) : is_code_char c = true -> upper_char c = String c "".
Proof.
  destruct c as [[] [] [] [] [] [] [] []]; cbn; intros H; try discriminate; reflexivity.
Qed.

Lemma toUpperCase_fix (s : string) :
  forall_string is_code_char s = true -> toUpperCase s = s.
Proof.
  induction s as [|c s IH]; [reflexivity|]. cbn [forall_string toUpperCase].
  intros H. apply andb_prop in H as [C H].
  rewrite (upper_char_fix _ C), IH by exact H. reflexivity.
Qed.

Lemma filter_fix (p : ascii -> bool) (s : string) :
  forall_string p s = true -> filter_string p s = s.
Proof.
  induction s as [|c s IH]; [reflexivity|]. cbn.
  intros H. apply andb_prop in H as [-> H]. now rewrite IH.
Qed.

(** X8. What the input listener does to the room field.  The field is left as
    it is exactly when it already holds at most six digits and capital
    letters; whatever was typed, the outcome is such a string, and
    sanitising twice is the same as once. *)
Theorem sanitize_fixpoint (value : string) :
  (sanitize value = value <-> room_ok value)
  /\ room_ok (sanitize value)
  /\ sanitize (sanitize value) = sanitize value.
Proof.
  assert (F : forall v, room_ok v -> sanitize v = v).
  { intros v [A B]. unfold sanitize.
    rewrite (toUpperCase_fix _ A), (filter_fix _ _ A). now apply slice0_all. }
  split; [split|split].
  - intros E. rewrite <- E. apply sanitize_ok.
  - apply F.
  - apply sanitize_ok.
  - apply F, sanitize_ok.
Qed.

(** ** What a turn of the loop adds to the trace *)

Lemma without_preorder (p : Action -> bool) : PreOrder (without p).
Proof.
  split.
  - intros w. exists []. split; [now rewrite app_nil_r|reflexivity].
  - intros a b c (l1 & E1 & F1) (l2 & E2 & F2). exists (l1 ++ l2)%list.
    split; [now rewrite E2, E1, app_assoc|].
    rewrite forallb_app, F1, F2. reflexivity.
Qed.

Lemma without_added (p : Action -> bool) (w w' : World) :
  without p w w' -> forallb (fun a => negb (p a)) (added w w') = true.
Proof.
  intros (l & E & F). unfold added. now rewrite E, drop_app_length.
Qed.

Ltac quiet_now :=
  unfold without; cbn;
  repeat match goal with
         | |- context [match ?x with _ => _ end] => destruct x; cbn
         end;
  first [ exists []; split; [now rewrite app_nil_r|reflexivity]
        | eexists [_]; split; [reflexivity|reflexivity] ].

Lemma adapter_connect : keeps (without is_adapter) connect.
Proof. keeps_walk (without_preorder is_adapter) no_known quiet_now. Qed.

Ltac adapter_known :=
  idtac;
  match goal with
  | |- keeps _ connect => apply adapter_connect
  end.

Lemma adapter_callback (cb : Callback) : keeps (without is_adapter) (runCallback cb).
Proof. keeps_walk (without_preorder is_adapter) adapter_known quiet_now. Qed.

Ltac adapter_known' :=
  idtac;
  match goal with
  | |- keeps _ connect => apply adapter_connect
  | |- keeps _ (runCallback _) => apply adapter_callback
  end.

Lemma adapter_listener (e : Event) (w : World) :
  (forall s m, e <> EvMessage s m) -> keeps (without is_adapter) (listener e w).
Proof.
  intros H. destruct e; try (exfalso; eapply H; reflexivity);
    keeps_walk (without_preorder is_adapter) adapter_known' quiet_now.
Qed.

Lemma arrive_trace (e : Event) (w : World) : trace (env (arrive e w)) = trace (env w).
Proof.
  destruct e; cbn [arrive]; try reflexivity.
  destruct (_ !! _) as [t|]; [|reflexivity]. unfold rearm. destruct (t_period t); reflexivity.
Qed.

Lemma added_step (e : Event) (w w' : World) :
  step e w = Some w' -> added w w' = did (listener e w) (arrive e w).
Proof.
  unfold step. destruct (enabled e w); [|discriminate]. intros [= <-].
  unfold added, did. now rewrite arrive_trace.
Qed.

Lemma without_did (p : Action -> bool) {A} (m : M A) (w : World) :
  keeps (without p) m -> forallb (fun a => negb (p a)) (did m w) = true.
Proof.
  intros K. destruct (K w) as (l & E & F). unfold did. now rewrite E, drop_app_length.
Qed.

(** X9. The script plays, pauses and seeks only while it handles a frame from
    the relay: the listeners of timers, of the opening, closing and failing
    of sockets, of the controls of the page, and of the reports of the media
    element and of the widget never call the adapter. *)
Theorem playback_only_on_frames (e : Event) (w w' : World) :
  step e w = Some w' ->
  (forall s m, e <> EvMessage s m) ->
  forallb (fun a => negb (is_adapter a)) (added w w') = true.
Proof.
  intros St H. rewrite (added_step _ _ _ St).
  apply without_did, adapter_listener, H.
Qed.

(** *** Operations under the flag *)

Lemma suppressed_mono (l : list Action) (b : bool) :
  suppressed false l = true -> suppressed b l = true.
Proof.
  revert b. induction l as [|a l IH]; intros b; [reflexivity|].
  destruct a; cbn; auto; try discriminate.
Qed.

Lemma suppressed_app (l1 l2 : list Action) (b : bool) :
  suppressed b l1 = true -> suppressed false l2 = true -> suppressed b (l1 ++ l2) = true.
Proof.
  revert b. induction l1 as [|a l1 IH]; intros b H1 H2.
  - now apply suppressed_mono.
  - destruct a; cbn in *; auto; destruct b; try discriminate; cbn in *; auto.
Qed.

Lemma flagged_app (l1 l2 : list Action) :
  suppressed true l1 = true -> forallb (fun a => negb (clears_flag a)) l1 = true ->
  suppressed true l2 = true -> suppressed true (l1 ++ l2) = true.
Proof.
  induction l1 as [|a l1 IH]; intros H1 N H2; [exact H2|].
  cbn in N. apply andb_prop in N as [Na N].
  destruct a; cbn in *; auto. destruct b; [auto|discriminate].
Qed.

Lemma calm_preorder : PreOrder calm.
Proof.
  split.
  - intros w. exists []. split; [now rewrite app_nil_r|reflexivity].
  - intros a b c (l1 & E1 & F1) (l2 & E2 & F2). exists (l1 ++ l2)%list.
    split; [now rewrite E2, E1, app_assoc|]. now apply suppressed_app.
Qed.

Lemma flagged_preorder : PreOrder flagged.
Proof.
  split.
  - intros w. exists []. split; [now rewrite app_nil_r|split; reflexivity].
  - intros a b c (l1 & E1 & F1 & N1) (l2 & E2 & F2 & N2). exists (l1 ++ l2)%list.
    split; [now rewrite E2, E1, app_assoc|]. split.
    + now apply flagged_app.
    + rewrite forallb_app, N1, N2. reflexivity.
Qed.

Ltac calm_now :=
  unfold calm; cbn;
  repeat match goal with
         | |- context [match ?x with _ => _ end] => destruct x; cbn
         end;
  first [ exists []; split; [now rewrite app_nil_r|reflexivity]
        | eexists [_]; split; [reflexivity|reflexivity] ].

Ltac flagged_now :=
  unfold flagged; cbn;
  repeat match goal with
         | |- context [match ?x with _ => _ end] => destruct x; cbn
         end;
  first [ exists []; split; [now rewrite app_nil_r|split; reflexivity]
        | eexists [_]; split; [reflexivity|split; reflexivity] ].

(** Once the flag has been set, what follows may operate playback. *)
Lemma calm_after_set {A} (f : unit -> M A) :
  (forall u, keeps flagged (f u)) -> keeps calm (bind (setRemote true) f).
Proof.
  intros K w.
  assert (E : exec (bind (setRemote true) f) w = exec (f tt) (exec (setRemote true) w))
    by reflexivity.
  rewrite E. destruct (K tt (exec (setRemote true) w)) as (l & T & F & _).
  exists (ASuppress true :: l). split; [|exact F].
  rewrite T. cbn. now rewrite <- app_assoc.
Qed.

Ltac calm_known :=
  idtac;
  match goal with
  | |- keeps calm (bind (setRemote true) _) =>
    apply calm_after_set; intros ?;
    keeps_walk flagged_preorder no_known flagged_now
  end.

(** Like [keeps_walk], with [known] consulted first. *)
Ltac keeps_walk1 HR known leaf :=
  repeat match goal with
         | |- keeps _ _ => known
         | |- keeps _ (ret _) => apply (keeps_ret _ HR)
         | |- keeps _ (gets _) => apply (keeps_gets _ HR)
         | |- keeps _ (throw _) => apply (keeps_throw _ HR)
         | |- keeps _ (bind _ _) => apply (keeps_bind _ HR); [|intros ?]
         | |- keeps _ (modify _) => apply keeps_modify; intros ?; solve [leaf]
         | |- keeps _ (if ?b then _ else _) => destruct b
         | |- keeps _ (match ?x with _ => _ end) => destruct x
         | |- keeps _ ?m => let h := head_of m in progress unfold h
         end.

Lemma calm_handleMessage (m : Msg) : is_state m = false -> keeps calm (handleMessage m).
Proof.
  destruct m; cbn [is_state]; intros H; try discriminate;
    keeps_walk1 calm_preorder calm_known calm_now.
Qed.

Lemma no_adapter_calm (l : list Action) (b : bool) :
  forallb (fun a => negb (is_adapter a)) l = true -> suppressed b l = true.
Proof.
  revert b. induction l as [|a l IH]; intros b H; [reflexivity|].
  cbn in H. apply andb_prop in H as [Ha H]. destruct a; cbn in *; auto; discriminate.
Qed.

(** X10. Except on a [state] frame, whatever a turn of the loop does to
    playback it does under the suppression flag: each play, pause and seek
    comes after the flag was set in the same handler, with nothing clearing it
    in between. *)
Theorem operations_flagged (e : Event) (w w' : World) :
  step e w = Some w' ->
  is_state_frame e = false ->
  suppressed false (added w w') = true.
Proof.
  intros St H. rewrite (added_step _ _ _ St).
  destruct e; try (apply no_adapter_calm, without_did, adapter_listener; discriminate).
  cbn [is_state_frame] in H. cbn [listener]. unfold onmessage.
  destruct (calm_handleMessage m H (arrive (EvMessage s m) w)) as (l & E & F).
  unfold did. now rewrite E, drop_app_length.
Qed.

(** ** Handlers that return *)

Lemma returns_ret {A} (a : A) : returns (ret a).
Proof. intros w. now exists a. Qed.

Lemma returns_gets {A} (f : World -> A) : returns (gets f).
Proof. intros w. now exists (f w). Qed.

Lemma returns_modify (f : World -> World) : returns (modify f).
Proof. intros w. now exists tt. Qed.

Lemma returns_bind {A B} (m : M A) (f : A -> M B) :
  returns m -> (forall a, returns (f a)) -> returns (bind m f).
Proof.
  intros Hm Hf w. destruct (Hm w) as [a E].
  destruct (Hf a (exec m w)) as [b F]. exists b.
  unfold exec, bind. rewrite E. cbn. unfold exec in F. rewrite E in F. cbn in F.
  rewrite F. reflexivity.
Qed.

Lemma exec_seq {A} (m : M unit) (k : M A) (w : World) :
  returns m -> (m ;; k) w = k (exec m w).
Proof.
  intros Hm. destruct (Hm w) as [[] E]. unfold bind. now rewrite E.
Qed.

Ltac returns_walk known :=
  repeat match goal with
         | |- returns (ret _) => apply returns_ret
         | |- returns (gets _) => apply returns_gets
         | |- returns (modify _) => apply returns_modify
         | |- returns (bind _ _) => apply returns_bind; [|intros ?]
         | |- returns (if ?b then _ else _) => destruct b
         | |- returns (match ?x with _ => _ end) => destruct x
         | |- returns _ => known
         | |- returns ?m => let h := head_of m in progress unfold h
         end.

Lemma returns_handleMessage (m : Msg) : returns (handleMessage m).
Proof. returns_walk no_known. Qed.

(** ** A state frame, played back *)

Lemma steady_preorder : PreOrder steady.
Proof.
  split.
  - intros w. repeat split.
  - intros a b c (A1 & B1 & C1 & D1) (A2 & B2 & C2 & D2). unfold steady.
    repeat split; congruence.
Qed.

Ltac steady_now :=
  unfold steady; cbn;
  repeat match goal with
         | |- context [match ?x with _ => _ end] => destruct x; cbn
         end;
  repeat split; reflexivity.

Lemma steady_state viewers q host current position playing :
  keeps steady (handleMessage (MState viewers q host current position playing)).
Proof. keeps_walk steady_preorder no_known steady_now. Qed.

Lemma suppress_state viewers q host current position playing :
  keeps (without is_suppress) (handleMessage (MState viewers q host current position playing)).
Proof. keeps_walk (without_preorder is_suppress) no_known quiet_now. Qed.

Lemma state_split (w : World) viewers q host (media : MediaItem) position playing :
  handleMessage (MState viewers q host (Some media) position playing) w =
  (loadMedia media ;; when (Qgtb position 0) (seekTo position) ;; when playing playMedia)
    (exec (state_adopt viewers q host) w).
Proof.
  assert (R : returns (state_adopt viewers q host)) by returns_walk no_known.
  destruct (R w) as [[] E].
  change (handleMessage (MState viewers q host (Some media) position playing))
    with (modify (on_dom (set_viewersEl (Some (viewers, plural viewers)))) ;;
          modify (on_js (set_queue (default [] q))) ;;
          modify (on_js (set_isHost (default false host))) ;;
          updateHostIndicator ;;
          startSyncIntervals ;;
          renderQueue ;;
          loadMedia media ;; when (Qgtb position 0) (seekTo position) ;; when playing playMedia).
  unfold state_adopt in *.
  set (tail := (loadMedia media ;; when (Qgtb position 0) (seekTo position) ;;
                when playing playMedia)).
  rewrite !exec_seq by returns_walk no_known.
  f_equal. symmetry. unfold exec at 1.
  rewrite !exec_seq by returns_walk no_known. reflexivity.
Qed.

Lemma state_tail_direct (w : World) (media : MediaItem) (position : Q) :
  m_type media = direct_file ->
  exists w1,
    (loadMedia media ;; when (Qgtb position 0) (seekTo position) ;; when true playMedia) w
      = (w1, Ok tt)
    /\ trace (env w1) = (trace (env w) ++
                  (if Qgtb position 0 then [ASeekTo position] else []) ++ [APlay])%list
    /\ directVideo w1 =
         Some {| v_src := m_url media;
                 currentTime := if Qgtb position 0 then position else 0%Q;
                 paused := false; v_allowed := true |}.
Proof.
  intros T. unfold loadMedia. rewrite T.
  destruct (Qgtb position 0); (eexists; split; [reflexivity|]); cbn.
  - split; [now rewrite <- app_assoc|reflexivity].
  - split; reflexivity.
Qed.

Lemma play_open (w : World) (v : Video) :
  isRemoteAction (js w) = false -> socketOpen w = true ->
  sent (did (onVideoPlay v) w) = [OPlay (currentTime v) (getNick w)].
Proof.
  intros F O. destruct (socketOpen_inv _ O) as (s & Hs & Hst).
  assert (E : onVideoPlay v w =
              socket_send (OPlay (currentTime v) (getNick w)) w).
  { unfold onVideoPlay, bind, gets. cbn. rewrite F, O. reflexivity. }
  unfold did, exec. rewrite E, (send_open _ _ _ Hs Hst). cbn.
  now rewrite drop_app_length.
Qed.

(** X11. A [state] frame is applied without the suppression flag.  When it
    carries a playing direct file, the handler loads it, seeks when the
    position is positive and plays, and never sets the flag; so if the flag
    was clear and the socket is open, the element's play event that follows
    is forwarded to the relay as a play of this viewer. *)
Theorem state_play_echoes (w : World) viewers q host (media : MediaItem) (position : Q) :
  m_type media = direct_file ->
  isRemoteAction (js w) = false ->
  socketOpen w = true ->
  let h := handleMessage (MState viewers q host (Some media) position true) in
  let w1 := exec h w in
  let t := if Qgtb position 0 then position else 0%Q in
  (exists l, did h w = (l ++ (if Qgtb position 0 then [ASeekTo position] else [])
                          ++ [APlay])%list)
  /\ forallb (fun a => negb (is_suppress a)) (did h w) = true
  /\ isRemoteAction (js w1) = false
  /\ directVideo w1 = Some {| v_src := m_url media; currentTime := t; paused := false;
                              v_allowed := true |}
  /\ exists w2, step (EvVideo VPlay) w1 = Some w2
                /\ sent (added w1 w2) = [OPlay t (getNick w)].
Proof.
  intros T F O. cbn zeta.
  set (h := handleMessage (MState viewers q host (Some media) position true)).
  destruct (state_tail_direct (exec (state_adopt viewers q host) w) media position T)
    as (w1 & E1 & Tr & V).
  assert (E : h w = (w1, Ok tt)) by (unfold h; rewrite state_split; exact E1).
  assert (X : exec h w = w1) by (unfold exec; now rewrite E).
  rewrite X.
  destruct (steady_state viewers q host (Some media) position true w) as (A & B & C & D).
  fold h in A, B, C, D. rewrite X in A, B, C, D.
  assert (K : keeps (without is_suppress) (state_adopt viewers q host))
    by keeps_walk (without_preorder is_suppress) no_known quiet_now.
  destruct (K w) as (l0 & T0 & _).
  assert (O1 : socketOpen w1 = true).
  { unfold socketOpen, stateOf in *. now rewrite B, C. }
  assert (N1 : getNick w1 = getNick w) by (unfold getNick; now rewrite D).
  split; [|split; [|split; [|split]]].
  - exists l0. unfold did. rewrite X, Tr, T0, <- app_assoc. apply drop_app_length.
  - apply (without_did is_suppress h w). apply suppress_state.
  - now rewrite A.
  - exact V.
  - assert (En : enabled (EvVideo VPlay) w1 = true).
    { cbn [enabled]. rewrite V. reflexivity. }
    eexists. split; [unfold step; rewrite En; reflexivity|].
    unfold added. cbn [arrive listener]. rewrite V. cbn [onVideo].
    change (drop (length (trace (env w1))) (trace (env (exec (onVideoPlay
      {| v_src := m_url media; currentTime := if Qgtb position 0 then position else 0%Q;
         paused := false; v_allowed := true |}) w1))))
      with (did (onVideoPlay
      {| v_src := m_url media; currentTime := if Qgtb position 0 then position else 0%Q;
         paused := false; v_allowed := true |}) w1).
    rewrite play_open by (rewrite ?A; auto). now rewrite N1.
Qed.

(** ** Sockets *)

Lemma wired_preorder : PreOrder wired.
Proof. split; [intros w H; exact H|intros a b c H1 H2 H; auto]. Qed.

Ltac wired_now :=
  unfold wired, one_socket; cbn;
  repeat match goal with
         | |- context [match ?x with _ => _ end] => destruct x; cbn
         end;
  intros H; exact H.

Lemma returns_ws_close (s : nat) : returns (ws_close s).
Proof. returns_walk no_known. Qed.

Lemma returns_setStatus (text : string) (st : StatusState) : returns (setStatus text st).
Proof. returns_walk no_known. Qed.

Lemma close_current (w : World) :
  one_socket w ->
  all_down (exec (match socket (js w) with Some s => ws_close s | None => ret tt end) w).
Proof.
  intros [Fr Lv]. destruct (socket (js w)) as [s0|] eqn:So.
  - assert (E : sockets (env (exec (ws_close s0) w)) =
                match stateOf w s0 with
                | Some CONNECTING | Some OPEN =>
                  alter (fun k => {| ws_url := ws_url k; readyState := CLOSING |}) s0
                        (sockets (env w))
                | _ => sockets (env w)
                end).
    { unfold exec, ws_close, bind, gets. cbn. destruct (stateOf w s0) as [[]|]; reflexivity. }
    assert (N : nextSocket (env (exec (ws_close s0) w)) = nextSocket (env w)).
    { unfold exec, ws_close, bind, gets. cbn. destruct (stateOf w s0) as [[]|]; reflexivity. }
    assert (Old : forall s k, sockets (env w) !! s = Some k -> s <> s0 ->
                    live (readyState k) = false).
    { intros s k X Y. destruct (live (readyState k)) eqn:Z; [|reflexivity].
      specialize (Lv _ _ X Z). congruence. }
    unfold all_down. rewrite E, N. unfold stateOf.
    destruct (sockets (env w) !! s0) as [[u st]|] eqn:X; cbn.
    + assert (Alt : forall s k,
                alter (fun k => {| ws_url := ws_url k; readyState := CLOSING |}) s0
                      (sockets (env w)) !! s = Some k ->
                (s < nextSocket (env w))%nat /\ live (readyState k) = false).
      { intros s k. destruct (decide (s = s0)) as [->|Ne].
        - rewrite lookup_alter_eq, X. cbn. intros [= <-]. split; [eapply Fr, X|reflexivity].
        - rewrite lookup_alter_ne by auto. intros Y. split; [eapply Fr, Y|eapply Old; eauto]. }
      destruct st; split; intros s k Y;
        try (apply (Alt _ _ Y)); try (eapply Fr, Y).
      * destruct (decide (s = s0)) as [->|Ne]; [|eapply Old; eauto].
        rewrite X in Y. injection Y as <-. reflexivity.
      * destruct (decide (s = s0)) as [->|Ne]; [|eapply Old; eauto].
        rewrite X in Y. injection Y as <-. reflexivity.
    + split; intros s k Y; [eapply Fr, Y|].
      destruct (decide (s = s0)) as [->|Ne]; [congruence|eapply Old; eauto].
  - split; [exact Fr|]. intros s k X. destruct (live (readyState k)) eqn:Z; [|reflexivity].
    specialize (Lv _ _ X Z). discriminate.
Qed.

Lemma open_new (w : World) (url : string) :
  all_down w ->
  one_socket (exec (s <- newWebSocket url ;; modify (on_js (set_socket (Some s)))) w).
Proof.
  intros [Fr Dn]. unfold exec, newWebSocket, one_socket. destruct w as [g d b].
  destruct (has_fragment url).
  - cbn in *. split; [exact Fr|]. intros s k X Z. rewrite (Dn _ _ X) in Z. discriminate.
  - cbn in *. split.
    + intros s k Y. apply lookup_insert_Some in Y as [[<- _]|[_ Y]]; [lia|].
      apply Fr in Y. lia.
    + intros s k Y Z. apply lookup_insert_Some in Y as [[<- _]|[_ Y]]; [reflexivity|].
      rewrite (Dn _ _ Y) in Z. discriminate.
Qed.

Lemma connect_eq (w : World) :
  String.length (trim (roomInput (dom w))) = 6%nat ->
  exec connect w =
  exec (s <- newWebSocket (socketUrl w) ;; modify (on_js (set_socket (Some s))))
    (exec (setStatus "Connecting..." StDisconnected)
       (exec (match socket (js w) with Some s => ws_close s | None => ret tt end) w)).
Proof.
  intros L. apply Nat.eqb_eq in L.
  assert (R1 : returns (match socket (js w) with Some s => ws_close s | None => ret tt end)).
  { destruct (socket (js w)); [apply returns_ws_close|apply returns_ret]. }
  set (c := match socket (js w) with Some s => ws_close s | None => ret tt end) in *.
  set (w2 := exec (setStatus "Connecting..." StDisconnected) (exec c w)).
  assert (P : locationProtocol (env w2) = locationProtocol (env w)
              /\ locationHost (env w2) = locationHost (env w)).
  { unfold w2, c. destruct (socket (js w)) as [s0|]; [|split; reflexivity].
    unfold exec, ws_close, bind, gets. cbn. destruct (stateOf w s0) as [[]|]; split; reflexivity. }
  destruct P as [P1 P2].
  unfold exec at 1. unfold connect.
  unfold bind at 1; unfold gets at 1; cbv beta iota. rewrite L. cbn [negb].
  unfold bind at 1; unfold gets at 1; cbv beta iota. fold c.
  rewrite exec_seq by exact R1.
  rewrite exec_seq by apply returns_setStatus. fold w2.
  unfold bind at 1; unfold gets at 1; cbv beta iota.
  unfold bind at 1; unfold gets at 1; cbv beta iota.
  rewrite P1, P2. reflexivity.
Qed.

Lemma wired_connect : keeps wired connect.
Proof.
  intros w H. destruct (Nat.eq_dec (String.length (trim (roomInput (dom w)))) 6%nat) as [L|L].
  - rewrite (connect_eq _ L). apply open_new.
    destruct (close_current _ H) as [A B]. split; [exact A|exact B].
  - unfold exec. rewrite (connect_short _ L). exact H.
Qed.

Ltac wired_known :=
  idtac;
  match goal with
  | |- keeps _ connect => apply wired_connect
  end.

Lemma wired_listener (e : Event) (w : World) : keeps wired (listener e w).
Proof. keeps_walk wired_preorder wired_known wired_now. Qed.

Lemma wired_arrive (e : Event) (w : World) : enabled e w = true -> wired w (arrive e w).
Proof.
  assert (Alter : forall s st,
            (live st = true -> socket (js w) = Some s) ->
            one_socket w -> one_socket (on_env (set_readyState s st) w)).
  { intros s st Hs [Fr Lv]. destruct w as [g d b]. unfold one_socket. cbn in *. split.
    - intros s' k. destruct (decide (s' = s)) as [->|Ne].
      + rewrite lookup_alter_eq. destruct (sockets b !! s) eqn:X; cbn; [|discriminate].
        intros _. eapply Fr, X.
      + rewrite lookup_alter_ne by auto. apply Fr.
    - intros s' k. destruct (decide (s' = s)) as [->|Ne].
      + rewrite lookup_alter_eq. destruct (sockets b !! s) eqn:X; cbn; [|discriminate].
        intros [= <-]. cbn. exact Hs.
      + rewrite lookup_alter_ne by auto. apply Lv. }
  destruct e; cbn [enabled arrive]; intros En H; try exact H.
  - destruct (_ !! _) as [t|]; [|exact H]. unfold rearm. destruct (t_period t); exact H.
  - apply Alter; [|exact H]. intros _. unfold stateOf in En.
    destruct (sockets (env w) !! s) as [k|] eqn:X; [|discriminate]. cbn in En.
    destruct (readyState k) eqn:Y; try discriminate.
    apply (proj2 H _ _ X). now rewrite Y.
  - apply Alter; [discriminate|exact H].
  - apply Alter; [discriminate|exact H].
  - revert H. unfold yt_update. wired_now.
  - revert H. unfold yt_update. wired_now.
  - revert H. unfold yt_update. wired_now.
Qed.

Lemma boot_sockets (p : Page) : one_socket (boot p).
Proof.
  assert (E : sockets (env (boot p)) = ∅).
  { unfold boot, main, exec. destruct (pg_room p) as [r|]; [destruct (_ && _)|]; reflexivity. }
  split; intros s k; rewrite E, lookup_empty; discriminate.
Qed.

Lemma reachable_sockets (w : World) : reachable w -> one_socket w.
Proof.
  induction 1 as [p _|e w w' _ IH St].
  - apply boot_sockets.
  - exact (keeps_step _ wired_preorder wired_arrive wired_listener _ _ _ St IH).
Qed.

Lemma one_socket_state (w : World) (s : nat) (st : ReadyState) :
  one_socket w -> stateOf w s = Some st -> live st = true -> socket (js w) = Some s.
Proof.
  intros [_ Lv] X L. unfold stateOf in X.
  destruct (sockets (env w) !! s) as [k|] eqn:Y; [|discriminate].
  injection X as <-. exact (Lv _ _ Y L).
Qed.

(** X12. The page never holds two connections.  In every reachable state a
    socket that is connecting or open is the one the [socket] variable
    holds, so at most one socket is live, and a socket that opens, or
    delivers a frame, is the current one. *)
Theorem one_live_socket (w : World) :
  reachable w ->
  (forall s k, sockets (env w) !! s = Some k -> live (readyState k) = true ->
     socket (js w) = Some s)
  /\ (forall s1 s2 k1 k2,
        sockets (env w) !! s1 = Some k1 -> live (readyState k1) = true ->
        sockets (env w) !! s2 = Some k2 -> live (readyState k2) = true -> s1 = s2)
  /\ (forall s, enabled (EvOpen s) w = true -> socket (js w) = Some s)
  /\ (forall s m, enabled (EvMessage s m) w = true -> socket (js w) = Some s).
Proof.
  intros R. destruct (reachable_sockets _ R) as [_ Lv].
  split; [exact Lv|]. split; [|split].
  - intros s1 s2 k1 k2 A1 B1 A2 B2.
    pose proof (Lv _ _ A1 B1). pose proof (Lv _ _ A2 B2). congruence.
  - intros s. cbn [enabled]. unfold stateOf.
    destruct (sockets (env w) !! s) as [k|] eqn:X; [|discriminate]. cbn.
    destruct (readyState k) eqn:Y; try discriminate. intros _.
    apply (Lv _ _ X). now rewrite Y.
  - intros s m. cbn [enabled]. unfold stateOf.
    destruct (sockets (env w) !! s) as [k|] eqn:X; [|discriminate]. cbn.
    destruct (readyState k) eqn:Y; try discriminate. intros _.
    apply (Lv _ _ X). now rewrite Y.
Qed.

(** ** Opening *)

Lemma onopen_current (w : World) (s : nat) :
  socket (js w) = Some s -> stateOf w s = Some OPEN ->
  let id := nextTimer (env w) in
  let ping := {| t_cb := CbPing; t_due := clock (env w) + 5000; t_period := Some 5000 |} in
  exists w',
    onopen w = (w', Ok tt)
    /\ trace (env w') = (trace (env w) ++
         [AStatus "Connected" StConnected; ASend s (OJoin (getNick w));
          ASetInterval id CbPing 5000; ASend s (OPing (clock (env w)))])%list
    /\ pingInterval (js w') = Some id
    /\ timers (env w') = <[id := ping]> (timers (env w))
    /\ sockets (env w') = sockets (env w)
    /\ socket (js w') = Some s
    /\ statusText (dom w') = "Connected" /\ statusDot (dom w') = StConnected
    /\ addBtnDisabled (dom w') = false
    /\ chatPanelActive (dom w') = true
    /\ queuePanelActive (dom w') = true.
Proof.
  intros So St. cbn zeta.
  destruct w as [g d b]. unfold stateOf in St. cbn in So, St.
  unfold onopen, renderQueue, socket_send, setInterval, setStatus, Date_now, log, socketOpen,
    stateOf, getNick.
  unfold bind, gets, modify, ret.
  repeat (cbn -[lookup insert trim]; rewrite ?So, ?St).
  eexists. split; [reflexivity|]. cbn -[lookup insert trim].
  rewrite <- !app_assoc. cbn -[lookup insert trim].
  repeat split; try reflexivity.
  - exact So.
  - now rewrite orb_true_r.
Qed.

(** X13. When a socket opens in a reachable state it is the current one, and
    its open listener shows the connected status, announces the viewer with
    a join frame, arms the 5 s heartbeat and sends a first ping stamped with
    the clock, in this order.  The listener clears no timer: a heartbeat
    armed by an earlier open keeps running beside the new one. *)
Theorem open_joins (w w' : World) (s : nat) :
  reachable w ->
  step (EvOpen s) w = Some w' ->
  let id := nextTimer (env w) in
  socket (js w) = Some s
  /\ added w w' = [AStatus "Connected" StConnected; ASend s (OJoin (getNick w));
                   ASetInterval id CbPing 5000; ASend s (OPing (clock (env w)))]
  /\ pingInterval (js w') = Some id
  /\ timers (env w') =
       <[id := {| t_cb := CbPing; t_due := clock (env w) + 5000; t_period := Some 5000 |}]>
         (timers (env w))
  /\ timers (env w) !! id = None
  /\ statusText (dom w') = "Connected"
  /\ addBtnDisabled (dom w') = false
  /\ chatPanelActive (dom w') = true.
Proof.
  intros R St. cbn zeta.
  assert (En : enabled (EvOpen s) w = true).
  { unfold step in St. destruct (enabled _ _); [reflexivity|discriminate]. }
  cbn [enabled] in En. destruct (stateOf w s) as [[]|] eqn:X; try discriminate.
  pose proof (one_socket_state w s CONNECTING (reachable_sockets _ R) X eq_refl) as So.
  assert (St0 : stateOf (arrive (EvOpen s) w) s = Some OPEN).
  { unfold stateOf in *. cbn [arrive]. destruct w as [g d b]. cbn in *.
    rewrite lookup_alter_eq. destruct (sockets b !! s); [reflexivity|discriminate]. }
  destruct (onopen_current (arrive (EvOpen s) w) s So St0)
    as (w1 & E & Tr & Pi & Tm & _ & _ & Stx & _ & Ab & Cp & _).
  assert (W : w' = w1).
  { unfold step in St. cbn [enabled] in St. rewrite X in St. injection St as <-.
    transitivity (fst (onopen (arrive (EvOpen s) w))); [reflexivity|now rewrite E]. }
  subst w1. split; [exact So|].
  split; [unfold added; rewrite Tr; apply drop_app_length|].
  split; [exact Pi|]. split; [exact Tm|].
  split; [|split; [exact Stx|split; [exact Ab|exact Cp]]].
  destruct (reachable_cadence _ R) as [(Fr & _) _].
  destruct (timers (env w) !! nextTimer (env w)) as [t|] eqn:Y; [|reflexivity].
  apply Fr in Y. lia.
Qed.

(** ** A close that is not the current socket's *)

(** X14. The close listener does not look at which socket closed.  When a
    socket other than the current one closes, as the old one does after a
    reconnect, the current socket is left as it is, and yet the heartbeat and
    the cadence timer are cleared, the role is reset to non-host and the
    status says disconnected. *)
Theorem stale_close (w w' : World) (s s1 : nat) :
  step (EvClose s) w = Some w' ->
  socket (js w) = Some s1 ->
  s <> s1 ->
  socket (js w') = Some s1
  /\ stateOf w' s1 = stateOf w s1
  /\ socketOpen w' = socketOpen w
  /\ isHost (js w') = false
  /\ (forall id, pingInterval (js w) = Some id -> timers (env w') !! id = None)
  /\ (forall id, syncInterval (js w) = Some id -> timers (env w') !! id = None)
  /\ statusText (dom w') = "Disconnected"
  /\ addBtnDisabled (dom w') = true.
Proof.
  intros St So Ne. unfold step in St.
  destruct (enabled (EvClose s) w); [|discriminate]. injection St as <-.
  cbn [listener arrive]. set (w0 := on_env (set_readyState s CLOSED) w).
  destruct (onclose_rest w0) as (A & B & C & _ & _ & D & _ & E & _).
  assert (S0 : stateOf w0 s1 = stateOf w s1).
  { unfold stateOf, w0. destruct w as [g d b]. cbn. now rewrite lookup_alter_ne. }
  assert (S1 : stateOf (exec onclose w0) s1 = stateOf w s1).
  { rewrite <- S0. unfold stateOf. now rewrite C. }
  split; [rewrite B; exact So|]. split; [exact S1|].
  split; [unfold socketOpen; rewrite B; change (socket (js w0)) with (socket (js w));
          rewrite So, S1; reflexivity|].
  split; [exact A|].
  rewrite onclose_timers.
  change (pingInterval (js w0)) with (pingInterval (js w)).
  change (syncInterval (js w0)) with (syncInterval (js w)).
  split; [|split; [|split; [exact D|exact E]]].
  - intros id Ei. rewrite Ei. destruct (syncInterval (js w)) as [y|].
    + apply lookup_delete_None. right. apply lookup_delete_eq.
    + apply lookup_delete_eq.
  - intros id Ei. rewrite Ei. apply lookup_delete_eq.
Qed.

(** ** The player behind the adapter *)

(** X15. [loadMedia] replaces the YouTube player object only when it loads a
    YouTube item with the API ready; [clearPlayer] is the only other place
    that resets it.  After any other load the old player object is still
    the one the adapter asks first: the position it reports is that player's,
    not the new element's, and commands are still posted to it. *)
Theorem loadMedia_keeps_player (w : World) (media : MediaItem) (p : YTPlayer) :
  (m_type media <> youtube \/ ytReady (js w) = false) ->
  ytMethods w = Some p ->
  let w' := exec (loadMedia media) w in
  ytPlayer (js w') = ytPlayer (js w)
  /\ currentMedia (js w') = Some media
  /\ getPosition w' = yt_time p
  /\ isPaused w' = isPaused w
  /\ (m_type media = direct_file ->
      directVideo w' = Some {| v_src := m_url media; currentTime := 0%Q; paused := true;
                               v_allowed := true |}
      /\ forall t, getPosition (exec (seekTo t) w') = yt_time p
                   /\ (currentTime <$> directVideo (exec (seekTo t) w')) = Some t).
Proof.
  intros H Y. cbn zeta.
  assert (E : ytPlayer (js (exec (loadMedia media) w)) = ytPlayer (js w)
              /\ currentMedia (js (exec (loadMedia media) w)) = Some media).
  { unfold exec, loadMedia. destruct (m_type media) eqn:T; try (split; reflexivity).
    destruct H as [H|H]; [contradiction|].
    unfold bind, gets, modify. cbn. rewrite H. split; reflexivity. }
  destruct E as [E1 E2].
  assert (Y' : ytMethods (exec (loadMedia media) w) = Some p).
  { unfold ytMethods in *. now rewrite E1. }
  split; [exact E1|]. split; [exact E2|].
  split; [unfold getPosition; now rewrite Y'|].
  split; [unfold isPaused; now rewrite Y', Y|].
  intros T. unfold exec, loadMedia. rewrite T. cbn. split; [reflexivity|].
  intros t. unfold ytMethods in Y. destruct w as [g d b]. cbn in *.
  destruct (ytPlayer g) as [p0|] eqn:Yp; [|discriminate].
  destruct (yt_api p0) eqn:A; [|discriminate]. injection Y as Y. subst p0.
  unfold getPosition, ytMethods. cbn. rewrite Yp, A. cbn. rewrite ?A. split; reflexivity.
Qed.

Lemma seek_did (w : World) (t : Q) :
  did (handleMessage (MSeek t)) w =
  if Qgtb (Qabs (getPosition w - t)) SYNC_TOLERANCE
  then [ASuppress true; ASeekTo t; AToast "Synced";
        ASetTimeout (nextTimer (env w)) CbHideToast 2000;
        ASetTimeout (S (nextTimer (env w))) CbClearRemote 100]
  else [].
Proof.
  unfold did, exec, handleMessage, bind, gets, when. cbn.
  destruct (Qgtb _ _); cbn.
  - rewrite <- !app_assoc. now rewrite drop_app_length.
  - apply drop_all.
Qed.

(** X16. With nothing to drive (an embedded frame, or an empty player) the
    adapter is inert: play, pause and seek record the call and change
    nothing else, the position read is always 0 and the player always counts
    as paused.  So a remote seek to a position beyond the tolerance is
    answered with the flag, the seek and the toast, and would be answered in
    the same way again right after. *)
Theorem adapter_inert (w : World) (t : Q) :
  ytMethods w = None ->
  directVideo w = None ->
  let w' := exec (handleMessage (MSeek t)) w in
  getPosition w = 0%Q
  /\ isPaused w = true
  /\ exec playMedia w = exec (log APlay) w
  /\ exec pauseMedia w = exec (log APause) w
  /\ exec (seekTo t) w = exec (log (ASeekTo t)) w
  /\ getPosition w' = 0%Q
  /\ seeks (did (handleMessage (MSeek t)) w) =
       (if Qgtb (Qabs (0 - t)) SYNC_TOLERANCE then [t] else [])
  /\ seeks (did (handleMessage (MSeek t)) w') = seeks (did (handleMessage (MSeek t)) w).
Proof.
  intros Y V. cbn zeta.
  assert (G : getPosition w = 0%Q) by (unfold getPosition; now rewrite Y, V).
  assert (P : isPaused w = true) by (unfold isPaused; now rewrite Y, V).
  assert (K : forall a (c : YTCmd) (f : Video -> Video),
                exec (log a ;; yt_post c ;; set_video f) w = exec (log a) w).
  { intros a c f. unfold ytMethods, directVideo in *. destruct w as [g d b]. cbn in *.
    unfold exec. cbn. unfold on_dom, on_js, on_env. cbn.
    (destruct (ytPlayer g) as [p0|] eqn:Yp; [destruct (yt_api p0) eqn:A; [discriminate|]|]);
      destruct (playerContainer d) eqn:Pc; try discriminate; reflexivity. }
  assert (G' : getPosition (exec (handleMessage (MSeek t)) w) = 0%Q).
  { clear K. unfold ytMethods, directVideo, getPosition in *. destruct w as [g d b]. cbn in *.
    unfold exec, handleMessage, bind, gets, when. cbn.
    destruct (ytPlayer g) as [p0|] eqn:Yp;
      [destruct (yt_api p0) eqn:A; [discriminate|]|];
      destruct (playerContainer d) eqn:Pc; try discriminate;
      destruct (Qgtb _ _); unfold ytMethods, directVideo;
      repeat (progress (cbn; rewrite ?Yp, ?Pc, ?A)); reflexivity. }
  split; [exact G|]. split; [exact P|].
  split; [apply K|]. split; [apply K|]. split; [apply K|]. split; [exact G'|].
  rewrite !seek_did, G', G. destruct (Qgtb _ _); split; reflexivity.
Qed.

(** ** The frames of the cadence *)

Lemma frames_connect : keeps (without is_cadence_frame) connect.
Proof. keeps_walk (without_preorder is_cadence_frame) no_known quiet_now. Qed.

Lemma frames_handleMessage (m : Msg) : keeps (without is_cadence_frame) (handleMessage m).
Proof. keeps_walk (without_preorder is_cadence_frame) no_known quiet_now. Qed.

Lemma frames_callback (cb : Callback) :
  is_cadence cb = false -> keeps (without is_cadence_frame) (runCallback cb).
Proof.
  destruct cb; cbn [is_cadence]; intros H; try discriminate;
    keeps_walk (without_preorder is_cadence_frame)
               ltac:(idtac; match goal with
                            | |- keeps _ connect => apply frames_connect
                            end)
               quiet_now.
Qed.

Ltac frames_known :=
  idtac;
  match goal with
  | |- keeps _ connect => apply frames_connect
  | |- keeps _ (handleMessage _) => apply frames_handleMessage
  end.

Lemma frames_listener (e : Event) (w : World) :
  (forall id, e <> EvTimer id) -> keeps (without is_cadence_frame) (listener e w).
Proof.
  intros H. destruct e; try (exfalso; eapply H; reflexivity);
    keeps_walk (without_preorder is_cadence_frame) frames_known quiet_now.
Qed.

Lemma cadence_callback (w : World) (host : bool) :
  did (runCallback (roleCallback host)) w =
  if socketOpen w && bool_decide (is_Some (currentMedia (js w)))
  then match socket (js w) with
       | Some s => [ASend s (if host then OHostPosition (getPosition w) else OSyncRequest)]
       | None => []
       end
  else [].
Proof.
  destruct (socketOpen w) eqn:O.
  - destruct (socketOpen_inv _ O) as (s & Hs & Hst).
    destruct (bool_decide (is_Some (currentMedia (js w)))) eqn:C; cbn [andb].
    + rewrite Hs. destruct host; cbn [roleCallback runCallback].
      * assert (E : (open <- gets socketOpen ;;
                     cur <- gets (fun w => currentMedia (js w)) ;;
                     when (open && bool_decide (is_Some cur))
                       (pos <- gets getPosition ;; socket_send (OHostPosition pos))) w
                    = socket_send (OHostPosition (getPosition w)) w).
        { unfold bind, gets. cbn. rewrite O, C. reflexivity. }
        unfold did, exec. rewrite E, (send_open _ _ _ Hs Hst). cbn.
        now rewrite drop_app_length.
      * assert (E : (open <- gets socketOpen ;;
                     cur <- gets (fun w => currentMedia (js w)) ;;
                     when (open && bool_decide (is_Some cur)) (socket_send OSyncRequest)) w
                    = socket_send OSyncRequest w).
        { unfold bind, gets. cbn. rewrite O, C. reflexivity. }
        unfold did, exec. rewrite E, (send_open _ _ _ Hs Hst). cbn.
        now rewrite drop_app_length.
    + apply did_nil. destruct host; unfold exec; cbn [roleCallback runCallback];
        unfold bind, gets; cbn; rewrite O, C; reflexivity.
  - cbn [andb]. apply did_nil. destruct host; unfold exec; cbn [roleCallback runCallback];
      unfold bind, gets; cbn; rewrite O; reflexivity.
Qed.

(** X17. The two frames of the cadence are sent by the cadence timer of the
    matching role and by nothing else.  In a reachable state, a turn of the
    loop that sends a position report or a sync request is the firing of the
    timer that [syncInterval] names; the frame is a position report, with
    the position the adapter reads, when this viewer is the host and a sync
    request when it is not, and it is the only thing that turn does. *)
Theorem cadence_frames_by_role (e : Event) (w w' : World) :
  reachable w ->
  step e w = Some w' ->
  forallb (fun a => negb (is_cadence_frame a)) (added w w') = false ->
  exists id s,
    e = EvTimer id
    /\ syncInterval (js w) = Some id
    /\ socket (js w) = Some s
    /\ is_Some (currentMedia (js w))
    /\ added w w' = [ASend s (if isHost (js w) then OHostPosition (getPosition w)
                              else OSyncRequest)].
Proof.
  intros R St F. rewrite (added_step _ _ _ St) in *.
  assert (En : enabled e w = true).
  { unfold step in St. destruct (enabled e w); [reflexivity|discriminate]. }
  destruct e; try (rewrite (without_did is_cadence_frame) in F;
                   [discriminate|apply frames_listener; discriminate]).
  cbn [enabled] in En. cbn [listener arrive] in *.
  destruct (timers (env w) !! id) as [t|] eqn:L; [|discriminate].
  destruct (is_cadence (t_cb t)) eqn:Cd.
  - destruct (reachable_cadence _ R) as [(_ & _ & Tk) Ro].
    pose proof (Tk _ _ L Cd) as Sy. pose proof (Ro _ _ L Cd) as Cb.
    rewrite Cb, cadence_callback in *.
    set (w0 := on_env (rearm id t) w) in *.
    assert (S0 : socketOpen w0 = socketOpen w).
    { unfold w0, rearm. destruct (t_period t); reflexivity. }
    assert (G0 : getPosition w0 = getPosition w).
    { unfold w0, rearm. destruct (t_period t); reflexivity. }
    change (socket (js w0)) with (socket (js w)) in *.
    change (currentMedia (js w0)) with (currentMedia (js w)) in *.
    rewrite S0, G0 in *.
    destruct (socketOpen w) eqn:O; [|discriminate].
    destruct (bool_decide (is_Some (currentMedia (js w)))) eqn:C; [|discriminate].
    cbn [andb] in *. destruct (socket (js w)) as [s|] eqn:So; [|discriminate].
    exists id, s. repeat split; auto. now apply bool_decide_eq_true in C.
  - rewrite (without_did is_cadence_frame) in F; [discriminate|].
    now apply frames_callback.
Qed.

(** ** Connecting by itself *)

Lemma connect_timers_preorder : PreOrder connect_timers.
Proof.
  split.
  - intros w id t L C. eauto.
  - intros a b c H1 H2 id t L C.
    destruct (H2 _ _ L C) as (t1 & L1 & C1 & P1).
    destruct (H1 _ _ L1 C1) as (t0 & L0 & C0 & P0).
    exists t0. repeat split; auto. congruence.
Qed.

Ltac ct_now :=
  unfold connect_timers; cbn;
  repeat match goal with
         | |- context [match ?x with _ => _ end] => destruct x; cbn
         end;
  intros ? ? ? ?; eauto.

Lemma ct_setTimeout (cb : Callback) (ms : Z) :
  cb <> CbConnect -> keeps connect_timers (setTimeout cb ms).
Proof.
  intros Hcb w id t' L C. unfold exec in L. cbn in L.
  destruct (decide (id = nextTimer (env w))) as [->|Ne].
  - rewrite lookup_insert_eq in L. injection L as <-. cbn in C. contradiction.
  - rewrite lookup_insert_ne in L by congruence. eauto.
Qed.

Lemma ct_setInterval (cb : Callback) (ms : Z) :
  cb <> CbConnect -> keeps connect_timers (setInterval cb ms).
Proof.
  intros Hcb w id t' L C. unfold exec in L. cbn in L.
  destruct (decide (id = nextTimer (env w))) as [->|Ne].
  - rewrite lookup_insert_eq in L. injection L as <-. cbn in C. contradiction.
  - rewrite lookup_insert_ne in L by congruence. eauto.
Qed.

Lemma ct_clearInterval (h : option nat) : keeps connect_timers (clearInterval h).
Proof.
  intros w id t' L C. unfold exec in L. destruct h as [i|]; cbn in L.
  - apply lookup_delete_Some in L as [_ L]. eauto.
  - eauto.
Qed.

Ltac ct_known :=
  idtac;
  match goal with
  | |- keeps _ (setTimeout _ _) => apply ct_setTimeout; discriminate
  | |- keeps _ (setInterval _ _) => apply ct_setInterval; discriminate
  | |- keeps _ (clearInterval _) => apply ct_clearInterval
  end.

Lemma ct_connect : keeps connect_timers connect.
Proof. keeps_walk connect_timers_preorder ct_known ct_now. Qed.

Lemma ct_handleMessage (m : Msg) : keeps connect_timers (handleMessage m).
Proof. keeps_walk connect_timers_preorder ct_known ct_now. Qed.

Ltac ct_known' :=
  idtac;
  match goal with
  | |- keeps _ connect => apply ct_connect
  | |- keeps _ (handleMessage _) => apply ct_handleMessage
  | |- keeps _ _ => ct_known
  end.

Lemma ct_listener (e : Event) (w : World) : keeps connect_timers (listener e w).
Proof. keeps_walk connect_timers_preorder ct_known' ct_now. Qed.

Lemma ct_arrive (e : Event) (w : World) :
  enabled e w = true -> connect_timers w (arrive e w).
Proof.
  destruct e; cbn [enabled arrive]; intros H; try solve [ct_now].
  - destruct (timers (env w) !! id) as [t|] eqn:L; [|discriminate].
    intros i t' L' C. unfold rearm in L'. destruct (t_period t) as [p|] eqn:P; cbn in L'.
    + destruct (decide (i = id)) as [->|Ne].
      * rewrite lookup_insert_eq in L'. injection L' as <-. cbn in *. eauto.
      * rewrite lookup_insert_ne in L' by congruence. eauto.
    + apply lookup_delete_Some in L' as [_ L']. eauto.
Qed.

Lemma ct_run (es : list Event) (w w' : World) : run es w = Some w' -> connect_timers w w'.
Proof.
  apply (keeps_run _ connect_timers_preorder); [apply ct_arrive|apply ct_listener].
Qed.

Lemma boot_startup (p : Page) : startup_only (boot p).
Proof.
  assert (T : timers (env (boot p)) =
              <[1%nat := {| t_cb := CbConnect; t_due := pg_now p + 100; t_period := None |}]> ∅).
  { unfold boot, main, exec. destruct (pg_room p) as [r|]; [destruct (_ && _)|]; reflexivity. }
  intros id t L C. rewrite T in L.
  apply lookup_insert_Some in L as [[<- <-]|[_ L]]; [split; reflexivity|].
  rewrite lookup_empty in L. discriminate.
Qed.

Lemma reachable_startup (w : World) : reachable w -> startup_only w.
Proof.
  induction 1 as [p _|e w w' _ IH St].
  - apply boot_startup.
  - intros id t L C.
    destruct (keeps_step _ connect_timers_preorder ct_arrive ct_listener _ _ _ St _ _ L C)
      as (t0 & L0 & C0 & P0).
    rewrite <- P0. eauto.
Qed.

Lemma sockets_handleMessage (m : Msg) : keeps (without is_new_socket) (handleMessage m).
Proof. keeps_walk (without_preorder is_new_socket) no_known quiet_now. Qed.

Lemma sockets_callback (cb : Callback) :
  cb <> CbConnect -> keeps (without is_new_socket) (runCallback cb).
Proof.
  destruct cb; intros H; try contradiction;
    keeps_walk (without_preorder is_new_socket) no_known quiet_now.
Qed.

Lemma sockets_listener (e : Event) (w : World) :
  calls_connect e w = false -> keeps (without is_new_socket) (listener e w).
Proof.
  destruct e; cbn [calls_connect listener]; intros H; try discriminate;
    try (destruct (timers (env w) !! id) as [t|];
         [apply sockets_callback; intros X; rewrite X in H; discriminate
         |apply (keeps_ret _ (without_preorder is_new_socket))]);
    keeps_walk (without_preorder is_new_socket)
               ltac:(idtac; match goal with
                            | |- keeps _ (handleMessage _) => apply sockets_handleMessage
                            end)
               quiet_now.
Qed.

(** X18. Nothing reconnects by itself.  A turn of the loop opens a socket only
    when the viewer presses Join or New room, or when the timer armed at
    start-up fires; and once that timer has fired, no timer of the page runs
    [connect] again, whatever happens later. *)
Theorem connects_on_request (e : Event) (w w' : World) :
  reachable w ->
  step e w = Some w' ->
  (existsb is_new_socket (added w w') = true -> calls_connect e w = true)
  /\ (forall id, e = EvTimer id -> calls_connect e w = true ->
      forall es w2, run es w' = Some w2 ->
        forall id2 t2, timers (env w2) !! id2 = Some t2 -> t_cb t2 <> CbConnect).
Proof.
  intros R St. split.
  - intros X. destruct (calls_connect e w) eqn:C; [reflexivity|].
    rewrite (added_step _ _ _ St) in X.
    pose proof (without_did is_new_socket _ (arrive e w) (sockets_listener e w C)) as F.
    exfalso. clear - X F. induction (did (listener e w) (arrive e w)) as [|a l IH];
      [discriminate|]. cbn in *. destruct (is_new_socket a); [discriminate|]. cbn in *. auto.
  - intros id -> C es w2 Rn id2 t2 L2 C2.
    destruct (ct_run _ _ _ Rn _ _ L2 C2) as (t1 & L1 & C1 & _).
    unfold step in St. destruct (enabled (EvTimer id) w) eqn:En; [|discriminate].
    injection St as <-. cbn [calls_connect enabled arrive listener] in *.
    destruct (timers (env w) !! id) as [t|] eqn:L; [|discriminate].
    destruct (t_cb t) eqn:Cb; try discriminate.
    destruct (ct_connect (on_env (rearm id t) w) _ _ L1 C1) as (t0 & L0 & C0 & _).
    destruct (reachable_startup _ R _ _ L Cb) as [I P].
    unfold rearm in L0. rewrite P in L0. cbn in L0.
    apply lookup_delete_Some in L0 as [Ne L0].
    destruct (reachable_startup _ R _ _ L0 C0) as [I0 _]. congruence.
Qed.

(** ** The widget's reports *)

Lemma yt_state_off (w : World) (data : Z) :
  isRemoteAction (js w) || negb (socketOpen w) = true ->
  exec (onYTStateChange data) w = w.
Proof.
  intros H. unfold exec, onYTStateChange, bind, gets. cbn. now rewrite H.
Qed.

Lemma yt_state_on (w : World) (data : Z) (p : YTPlayer) :
  isRemoteAction (js w) || negb (socketOpen w) = false ->
  ytMethods w = Some p ->
  sent (did (onYTStateChange data) w) =
    if data =? YT_PLAYING then [OPlay (yt_time p) (getNick w)]
    else if data =? YT_PAUSED then [OPause (yt_time p) (getNick w)]
    else if data =? YT_ENDED then [OEnded]
    else [].
Proof.
  intros H Y. apply orb_false_elim in H as [F O]. apply negb_false_iff in O.
  destruct (socketOpen_inv _ O) as (s & Hs & Hst).
  assert (E : onYTStateChange data w =
              (if data =? YT_PLAYING then socket_send (OPlay (yt_time p) (getNick w))
               else if data =? YT_PAUSED then socket_send (OPause (yt_time p) (getNick w))
               else if data =? YT_ENDED then socket_send OEnded
               else ret tt) w).
  { unfold onYTStateChange.
    unfold bind at 1; unfold gets at 1; cbv beta iota.
    unfold bind at 1; unfold gets at 1; cbv beta iota.
    rewrite F, O. cbn [orb negb].
    destruct (data =? YT_PLAYING); [|destruct (data =? YT_PAUSED); [|reflexivity]];
      unfold yt_getCurrentTime, bind, gets; rewrite Y; reflexivity. }
  unfold did, exec. rewrite E.
  destruct (data =? YT_PLAYING); [|destruct (data =? YT_PAUSED); [|destruct (data =? YT_ENDED)]];
    rewrite ?(send_open _ _ _ Hs Hst); cbn; rewrite ?drop_app_length, ?drop_all; reflexivity.
Qed.

Lemma yt_state_bare (w : World) (data : Z) :
  isRemoteAction (js w) || negb (socketOpen w) = false ->
  ytMethods w = None ->
  sent (did (onYTStateChange data) w) =
    if data =? YT_PLAYING then []
    else if data =? YT_PAUSED then []
    else if data =? YT_ENDED then [OEnded]
    else [].
Proof.
  intros H Y. apply orb_false_elim in H as [F O]. apply negb_false_iff in O.
  destruct (socketOpen_inv _ O) as (s & Hs & Hst).
  assert (E : onYTStateChange data w =
              (if data =? YT_PLAYING then throw TypeError
               else if data =? YT_PAUSED then throw TypeError
               else if data =? YT_ENDED then socket_send OEnded
               else ret tt) w).
  { unfold onYTStateChange.
    unfold bind at 1; unfold gets at 1; cbv beta iota.
    unfold bind at 1; unfold gets at 1; cbv beta iota.
    rewrite F, O. cbn [orb negb].
    destruct (data =? YT_PLAYING); [|destruct (data =? YT_PAUSED); [|reflexivity]];
      unfold yt_getCurrentTime, bind, gets; rewrite Y; reflexivity. }
  unfold did, exec. rewrite E.
  destruct (data =? YT_PLAYING); [|destruct (data =? YT_PAUSED); [|destruct (data =? YT_ENDED)]];
    rewrite ?(send_open _ _ _ Hs Hst); cbn; rewrite ?drop_app_length, ?drop_all; reflexivity.
Qed.

(** X19. What the widget's state changes turn into.  With the flag clear and
    the socket open, a change to playing is forwarded as a play and a change
    to paused as a pause, each with the time the player reports and the
    viewer's nickname, and a change to ended as an ended frame; buffering,
    cued and unstarted are not forwarded.  In no case is a seek frame sent: a
    viewer's seek in the widget reaches the room only through the play or
    pause that comes with it. *)
Theorem yt_state_frames (w : World) (data : Z) :
  let out := sent (did (onYTStateChange data) w) in
  (forall p, isRemoteAction (js w) = false -> socketOpen w = true -> ytMethods w = Some p ->
     out = if data =? YT_PLAYING then [OPlay (yt_time p) (getNick w)]
           else if data =? YT_PAUSED then [OPause (yt_time p) (getNick w)]
           else if data =? YT_ENDED then [OEnded]
           else [])
  /\ forallb (fun m => negb (is_seek_frame m)) out = true
  /\ (length out <= 1)%nat.
Proof.
  cbn zeta. split.
  - intros p F O Y. apply yt_state_on; [now rewrite F, O|exact Y].
  - destruct (isRemoteAction (js w) || negb (socketOpen w)) eqn:H.
    + rewrite (did_nil _ _ (yt_state_off w data H)). split; [reflexivity|cbn; lia].
    + destruct (ytMethods w) as [p|] eqn:Y.
      * rewrite (yt_state_on w data p H Y).
        destruct (data =? YT_PLAYING); [|destruct (data =? YT_PAUSED);
          [|destruct (data =? YT_ENDED)]]; split; cbn; (reflexivity || lia).
      * rewrite (yt_state_bare w data H Y).
        destruct (data =? YT_PLAYING); [|destruct (data =? YT_PAUSED);
          [|destruct (data =? YT_ENDED)]]; split; cbn; (reflexivity || lia).
Qed.

(** ** An empty queue *)

Lemma load_none_eq (w : World) (q : option (list MediaItem)) :
  exists w',
    handleMessage (MLoad q None) w = (w', Ok tt)
    /\ currentMedia (js w') = None
    /\ ytPlayer (js w') = None
    /\ queue (js w') = default [] q
    /\ playerContainer (dom w') = CEmpty
    /\ playerWrapperActive (dom w') = false
    /\ queueList (dom w') = imap queueRow (default [] q)
    /\ syncToast (dom w') = "Queue empty"
    /\ trace (env w') = (trace (env w) ++
         [AToast "Queue empty"; ASetTimeout (nextTimer (env w)) CbHideToast 2000])%list.
Proof.
  eexists. split; [reflexivity|]. cbn. rewrite <- !app_assoc. repeat split.
Qed.

(** X20. When the relay reports that nothing is left to play, the player is
    emptied: no current item, no player object, no element.  From then on the
    adapter reads position 0 and paused, the cadence timers send nothing,
    and a sync response changes nothing, until an item is loaded again. *)
Theorem load_empty_silences (w : World) (q : option (list MediaItem)) :
  let w' := exec (handleMessage (MLoad q None)) w in
  currentMedia (js w') = None
  /\ ytPlayer (js w') = None
  /\ playerContainer (dom w') = CEmpty
  /\ playerWrapperActive (dom w') = false
  /\ queue (js w') = default [] q
  /\ did (handleMessage (MLoad q None)) w =
       [AToast "Queue empty"; ASetTimeout (nextTimer (env w)) CbHideToast 2000]
  /\ getPosition w' = 0%Q
  /\ isPaused w' = true
  /\ exec (runCallback CbHostReport) w' = w'
  /\ exec (runCallback CbSyncPoll) w' = w'
  /\ (forall position playing,
        exec (handleMessage (MSyncResponse position playing)) w' = w').
Proof.
  cbn zeta. destruct (load_none_eq w q) as (w' & E & A & B & C & D & F & _ & _ & Tr).
  assert (X : exec (handleMessage (MLoad q None)) w = w') by (unfold exec; now rewrite E).
  rewrite X.
  assert (G : getPosition w' = 0%Q).
  { unfold getPosition, ytMethods, directVideo. now rewrite B, D. }
  assert (P : isPaused w' = true).
  { unfold isPaused, ytMethods, directVideo. now rewrite B, D. }
  split; [exact A|]. split; [exact B|]. split; [exact D|]. split; [exact F|].
  split; [exact C|]. split; [unfold did; rewrite X, Tr; apply drop_app_length|].
  split; [exact G|]. split; [exact P|].
  split; [|split].
  - unfold exec, runCallback, bind, gets. cbn. rewrite A.
    rewrite andb_false_r. reflexivity.
  - unfold exec, runCallback, bind, gets. cbn. rewrite A.
    rewrite andb_false_r. reflexivity.
  - intros position playing. unfold exec, handleMessage, bind, gets. cbn. rewrite A.
    rewrite andb_false_r. reflexivity.
Qed.

(** ** Start-up *)

Lemma has_fragment_spec (s : string) :
  has_fragment s = negb (forall_string (fun c => negb (is_hash c)) s).
Proof.
  unfold has_fragment, is_hash. induction s as [|c s IH]; [reflexivity|].
  cbn [String.index forall_string String.prefix].
  destruct (ascii_dec "#" c) as [<-|Ne].
  - destruct s; reflexivity.
  - assert (E : Ascii.eqb c "#" = false).
    { apply Ascii.eqb_neq. congruence. }
    rewrite E. cbn [negb andb].
    destruct (String.index 0 "#" s); exact IH.
Qed.

Lemma has_fragment_append (a b : string) :
  has_fragment (a ++ b) = has_fragment a || has_fragment b.
Proof.
  rewrite !has_fragment_spec, forall_append. apply negb_andb.
Qed.

Lemma code_no_fragment (s : string) :
  forall_string is_code_char s = true -> has_fragment s = false.
Proof.
  rewrite has_fragment_spec. intros H. apply negb_false_iff.
  induction s as [|c s IH]; [reflexivity|]. cbn in *.
  apply andb_prop in H as [C H]. rewrite (IH H), andb_true_r.
  clear - C. destruct c as [[] [] [] [] [] [] [] []]; cbn in *; try discriminate; reflexivity.
Qed.

Lemma socketUrl_clean (w : World) :
  has_fragment (locationHost (env w)) = false ->
  forall_string is_code_char (roomInput (dom w)) = true ->
  has_fragment (socketUrl w) = false.
Proof.
  intros H C. unfold socketUrl. rewrite (trim_id _ C).
  rewrite !has_fragment_append, H, (code_no_fragment _ C).
  destruct (String.eqb _ _); reflexivity.
Qed.

Lemma boot_eq (p : Page) :
  boot p =
  exec (main (pg_room p) (pg_random p)) (blank p)
  /\ roomInput (dom (boot p)) =
       match pg_room p with
       | Some r => if roomParamOk r then toUpperCase r else generateCode (pg_random p)
       | None => generateCode (pg_random p)
       end
  /\ timers (env (boot p)) =
       <[1%nat := {| t_cb := CbConnect; t_due := pg_now p + 100; t_period := None |}]> ∅
  /\ socket (js (boot p)) = None
  /\ sockets (env (boot p)) = ∅
  /\ nextSocket (env (boot p)) = 0%nat
  /\ clock (env (boot p)) = pg_now p
  /\ locationHost (env (boot p)) = pg_host p
  /\ locationProtocol (env (boot p)) = pg_protocol p
  /\ trace (env (boot p)) = [ASetTimeout 1 CbConnect 100].
Proof.
  split; [reflexivity|]. unfold boot, main, exec.
  destruct (pg_room p) as [r|]; [|repeat split].
  destruct (truthy r) eqn:T.
  - destruct (roomParamOk r); repeat split.
  - apply truthy_false in T. subst r. repeat split.
Qed.

Lemma code_length (rs : list Q) :
  draws_ok rs = true -> String.length (generateCode rs) = 6%nat.
Proof.
  unfold draws_ok, generateCode. intros H. apply andb_prop in H as [L F].
  apply Nat.eqb_eq in L. rewrite firstn_all2 by (rewrite L; lia).
  destruct (concat_picks rs F) as [_ B]. now rewrite B.
Qed.

Lemma boot_format (p : Page) :
  draws_ok (pg_random p) = true -> roomCodeFormat (roomInput (dom (boot p))) = true.
Proof.
  intros D. destruct (boot_eq p) as (_ & -> & _). unfold roomCodeFormat.
  assert (G : (String.length (generateCode (pg_random p)) =? 6)%nat
              && forall_string is_code_char (generateCode (pg_random p)) = true).
  { rewrite (code_length _ D). destruct (generateCode_ok _ D) as [A _]. now rewrite A. }
  destruct (pg_room p) as [r|]; [|exact G].
  destruct (roomParamOk r) eqn:Ok; [|exact G].
  unfold roomParamOk in Ok. apply andb_prop in Ok as [L F].
  destruct (toUpperCase_ok _ F) as [A B]. rewrite A, B, L. reflexivity.
Qed.

(** X21. Start-up.  The room field is filled with a well-formed code: the
    [room] parameter in capitals when it consists of six letters and digits,
    a freshly drawn code otherwise.  The connect timer cannot fire at once;
    100 ms later it fires and opens the page's first socket, to the room of
    that code, over [wss] when the page was served over [https] and over
    [ws] otherwise. *)
Theorem boot_connects (p : Page) :
  draws_ok (pg_random p) = true ->
  has_fragment (pg_host p) = false ->
  let room := roomInput (dom (boot p)) in
  let url := (if String.eqb (pg_protocol p) "https:" then "wss:" else "ws:")
             ++ "//" ++ pg_host p ++ "/ws/" ++ room in
  roomCodeFormat room = true
  /\ room = match pg_room p with
            | Some r => if roomParamOk r then toUpperCase r else generateCode (pg_random p)
            | None => generateCode (pg_random p)
            end
  /\ step (EvTimer 1) (boot p) = None
  /\ exists w1,
       run [EvTick 100; EvTimer 1] (boot p) = Some w1
       /\ added (boot p) w1 = [AStatus "Connecting..." StDisconnected; ANewSocket 0 url]
       /\ socket (js w1) = Some 0%nat
       /\ sockets (env w1) !! 0%nat = Some {| ws_url := url; readyState := CONNECTING |}.
Proof.
  intros D H. cbn zeta.
  pose proof (boot_format p D) as F.
  destruct (boot_eq p) as (_ & Rm & Tm & So & Sk & Ns & Ck & Ho & Pr & Tr).
  split; [exact F|]. split; [exact Rm|].
  unfold roomCodeFormat in F. apply andb_prop in F as [L C]. apply Nat.eqb_eq in L.
  split.
  { unfold step. cbn [enabled]. rewrite Tm, lookup_insert_eq. cbn. rewrite Ck.
    destruct (pg_now p + 100 <=? pg_now p) eqn:X; [apply Z.leb_le in X; lia|reflexivity]. }
  set (wa := on_env (fun b => set_clock (clock b + 100) b) (boot p)).
  set (t := {| t_cb := CbConnect; t_due := pg_now p + 100; t_period := None |}).
  set (wb := on_env (rearm 1 t) wa).
  assert (S1 : step (EvTick 100) (boot p) = Some wa) by reflexivity.
  assert (S2 : step (EvTimer 1) wa = Some (exec connect wb)).
  { unfold step. cbn [enabled arrive listener].
    change (timers (env wa)) with (timers (env (boot p))).
    rewrite Tm, lookup_insert_eq. cbn [t_due t_cb runCallback].
    change (clock (env wa)) with (clock (env (boot p)) + 100). rewrite Ck.
    rewrite Z.leb_refl. reflexivity. }
  assert (Lb : String.length (trim (roomInput (dom wb))) = 6%nat).
  { change (roomInput (dom wb)) with (roomInput (dom (boot p))). now rewrite (trim_id _ C). }
  assert (U : socketUrl wb =
              (if String.eqb (pg_protocol p) "https:" then "wss:" else "ws:")
              ++ "//" ++ pg_host p ++ "/ws/" ++ roomInput (dom (boot p))).
  { unfold socketUrl.
    change (roomInput (dom wb)) with (roomInput (dom (boot p))).
    change (locationProtocol (env wb)) with (locationProtocol (env (boot p))).
    change (locationHost (env wb)) with (locationHost (env (boot p))).
    now rewrite Pr, Ho, (trim_id _ C). }
  assert (Fr : has_fragment (socketUrl wb) = false).
  { apply socketUrl_clean.
    - change (locationHost (env wb)) with (locationHost (env (boot p))). now rewrite Ho.
    - exact C. }
  destruct (connect_long wb Lb) as (T1 & _ & T3). destruct (T3 Fr) as [A B].
  rewrite Fr in T1.
  change (socket (js wb)) with (socket (js (boot p))) in T1. rewrite So in T1.
  change (nextSocket (env wb)) with (nextSocket (env (boot p))) in *. rewrite Ns in *.
  rewrite U in *.
  exists (exec connect wb). split; [|split; [|split]].
  - cbn [run]. rewrite S1, S2. reflexivity.
  - unfold added. change (trace (env (boot p))) with (trace (env wb)). exact T1.
  - exact A.
  - exact B.
Qed.

(** ** Exceptions *)















(** ** The heartbeat *)














(** ** Role updates *)

Lemma host_update_eq (w : World) (host : option bool) :
  let now := default false host in
  let w0 := exec updateHostIndicator (on_js (set_isHost now) w) in
  handleMessage (MHostUpdate host) w =
  when (negb (eqb (isHost (js w)) now))
       (startSyncIntervals ;; when now (showToast "You are now the host")) w0.
Proof.
  cbn zeta. unfold handleMessage.
  unfold bind at 1; unfold gets at 1; cbv beta iota.
  unfold bind at 1. cbn [modify].
  rewrite exec_seq by (returns_walk no_known).
  unfold bind at 1; unfold gets at 1; cbv beta iota.
  assert (E : isHost (js (exec updateHostIndicator (on_js (set_isHost (default false host)) w)))
              = default false host).
  { unfold exec, updateHostIndicator, bind, gets, when. cbn.
    destruct (socketOpen _); reflexivity. }
  rewrite E. reflexivity.
Qed.

Lemma indicator_did (w : World) :
  did updateHostIndicator w =
  if socketOpen w
  then [AStatus ("Connected" ++ (if isHost (js w) then " (Host)" else "")) StConnected]
  else [].
Proof.
  unfold did, exec, updateHostIndicator, bind, gets, when. cbn.
  destruct (socketOpen w); cbn; [now rewrite drop_app_length|apply drop_all].
Qed.

Lemma start_trace (w : World) :
  exists id cb ms,
    trace (env (exec startSyncIntervals w)) =
      (trace (env w) ++ [AClearInterval (syncInterval (js w)); ASetInterval id cb ms])%list
    /\ isHost (js (exec startSyncIntervals w)) = isHost (js w).
Proof.
  destruct w as [[? ? ? ? [i|] ? ? ? ? ? []] d b]; unfold exec; cbn;
    rewrite <- ?app_assoc; do 3 eexists; split; reflexivity.
Qed.

(** X24. A [host_update] frame that confirms the role the page already has
    leaves the cadence alone: no timer is cleared or armed, only the status
    is shown again when the socket is open.  When the frame changes the role,
    the toast 'You are now the host' is shown exactly when the viewer becomes
    the host, not when the role is taken away. *)
Theorem host_update_same_role (w : World) (host : option bool) :
  let h := handleMessage (MHostUpdate host) in
  let now := default false host in
  (now = isHost (js w) ->
     timers (env (exec h w)) = timers (env w)
     /\ js (exec h w) = js w
     /\ did h w = (if socketOpen w
                   then [AStatus ("Connected" ++ (if now then " (Host)" else "")) StConnected]
                   else []))
  /\ (now <> isHost (js w) ->
      existsb is_toast (did h w) = now
      /\ isHost (js (exec h w)) = now).
Proof.
  cbn zeta. pose proof (host_update_eq w host) as E. cbn zeta in E.
  set (now := default false host) in *.
  set (w0 := exec updateHostIndicator (on_js (set_isHost now) w)) in *.
  assert (T0 : trace (env w0) =
               (trace (env w) ++ (if socketOpen w
                   then [AStatus ("Connected" ++ (if now then " (Host)" else "")) StConnected]
                   else []))%list).
  { unfold w0, exec, updateHostIndicator, bind, gets, when. cbn.
    change (socketOpen (on_js (set_isHost now) w)) with (socketOpen w).
    destruct (socketOpen w); cbn; [reflexivity|now rewrite app_nil_r]. }
  split.
  - intros Same.
    assert (X : exec (handleMessage (MHostUpdate host)) w = w0).
    { unfold exec. rewrite E, <- Same. destruct now; reflexivity. }
    unfold did. rewrite X, T0, drop_app_length.
    split; [|split; [|reflexivity]].
    + unfold w0, exec, updateHostIndicator, bind, gets, when. cbn.
      destruct (socketOpen _); reflexivity.
    + unfold w0, exec, updateHostIndicator, bind, gets, when. cbn.
      destruct (socketOpen _); cbn; rewrite Same; destruct w as [[] d b]; reflexivity.
  - intros Diff.
    assert (G : negb (eqb (isHost (js w)) now) = true).
    { destruct (isHost (js w)), now; try reflexivity; contradiction. }
    rewrite G in E. cbn [when] in E.
    assert (R1 : returns startSyncIntervals) by returns_walk no_known.
    rewrite exec_seq in E by exact R1.
    set (w1 := exec startSyncIntervals w0) in *.
    destruct (start_trace w0) as (id & cb & ms & T1 & Hn). fold w1 in T1, Hn.
    assert (Hh : isHost (js w0) = now).
    { unfold w0, exec, updateHostIndicator, bind, gets, when. cbn.
      destruct (socketOpen _); reflexivity. }
    rewrite Hh in Hn.
    destruct now eqn:N; cbn [when] in E.
    + assert (X : exec (handleMessage (MHostUpdate host)) w
                  = exec (showToast "You are now the host") w1).
      { unfold exec. now rewrite E. }
      unfold did. rewrite X. split; [|exact Hn].
      unfold exec, showToast, bind, gets. cbn. rewrite T1, T0, <- !app_assoc.
      rewrite drop_app_length. rewrite !existsb_app. cbn. apply orb_true_r.
    + assert (X : exec (handleMessage (MHostUpdate host)) w = w1).
      { unfold exec. now rewrite E. }
      unfold did. rewrite X. split; [|exact Hn].
      rewrite T1, T0, <- !app_assoc, drop_app_length, !existsb_app.
      destruct (socketOpen w); reflexivity.
Qed.

(** ** The scenarios, checked *)

Lemma run_reachable (es : list Event) (w w' : World) :
  reachable w -> run es w = Some w' -> reachable w'.
Proof.
  revert w. induction es as [|e es IH]; intros w R; cbn.
  - now intros [= <-].
  - destruct (step e w) as [w1|] eqn:S; [|discriminate].
    apply IH. exact (reach_step _ _ _ R S).
Qed.

Lemma after_reachable (es : list Event) : runs es = true -> reachable (after es).
Proof.
  unfold runs, after. destruct (run es (boot page0)) as [w|] eqn:E; [|discriminate].
  intros _. apply (run_reachable es (boot page0)); [|exact E].
  apply reach_boot. reflexivity.
Qed.

(** The guest is at 10 s: a seek to 12 changes nothing, a seek to 15 is
    applied. *)
Lemma remote_seek_tolerance_witness :
  exec (handleMessage (MSeek 12)) w_guest = w_guest
  /\ did (handleMessage (MSeek 15)) w_guest =
       [ASuppress true; ASeekTo 15; AToast "Synced";
        ASetTimeout 4 CbHideToast 2000; ASetTimeout 5 CbClearRemote 100].
Proof.
  split.
  - destruct (remote_seek_tolerance w_guest 12) as [H _].
    apply H. vm_compute. discriminate.
  - destruct (remote_seek_tolerance w_guest 15) as [_ H].
    apply H. vm_compute. reflexivity.
Defined.

(** Position 5, latency 200 ms: the seek goes to 5.2, then the play. *)
Lemma remote_play_sequence_witness :
  (latency (js w_measured) == 200)%Q
  /\ exists t, (t == 26 # 5)%Q
       /\ did (handleMessage (MPlay 5 "")) w_measured =
            [ASuppress true; ASeekTo t; APlay; AToast "Playing";
             ASetTimeout 4 CbHideToast 2000; ASetTimeout 5 CbClearRemote 100].
Proof.
  assert (L : (latency (js w_measured) == 200)%Q) by (vm_compute; reflexivity).
  split; [exact L|].
  destruct (remote_play_sequence w_measured 5 "") as (_ & _ & H).
  exact (H eq_refl L).
Defined.

(** After the remote play the flag is set, and the element's play event is
    not forwarded, neither at once nor 50 ms later. *)
Lemma suppression_blocks_echo_witness :
  isRemoteAction (js w_played) = true
  /\ windows_end_from (clock (env w_guest) + 100) w_guest = true
  /\ forall video,
       exec (onVideo VPlay video) w_played = w_played
       /\ exec (onVideo VPlay video) (after (watching ++ [EvMessage 0 (MPlay 5 "Bob"); EvTick 50]))
          = after (watching ++ [EvMessage 0 (MPlay 5 "Bob"); EvTick 50]).
Proof.
  assert (F : isRemoteAction (js w_played) = true) by (vm_compute; reflexivity).
  assert (G : windows_end_from (clock (env w_guest) + 100) w_guest = true)
    by (vm_compute; reflexivity).
  split; [exact F|split; [exact G|]]. intros video.
  destruct (suppression_blocks_echo w_played) as (H & _ & _).
  destruct (suppression_blocks_echo w_guest) as (_ & _ & K).
  split.
  - destruct (H F video VPlay 0) as [[A _] _]; [discriminate|exact A].
  - destruct (K G 5%Q "Bob" [EvTick 50]
                (after (watching ++ [EvMessage 0 (MPlay 5 "Bob"); EvTick 50])) video)
      as (_ & A & _); [vm_compute; reflexivity|vm_compute; reflexivity|exact A].
Defined.

(** The scenario of the spec: guest at 10 s and playing, response (15, not
    playing). *)
Lemma sync_response_corrects_witness :
  isHost (js w_guest) = false
  /\ is_Some (currentMedia (js w_guest))
  /\ did (handleMessage (MSyncResponse 15 false)) w_guest =
       [ASuppress true; ASeekTo 15; AToast "Synced to host";
        ASetTimeout 4 CbHideToast 2000; ASetTimeout 5 CbClearRemote 100;
        ASuppress true; APause; ASetTimeout 6 CbClearRemote 100].
Proof.
  assert (H1 : isHost (js w_guest) = false) by (vm_compute; reflexivity).
  assert (H2 : is_Some (currentMedia (js w_guest))) by (vm_compute; eexists; reflexivity).
  split; [exact H1|split; [exact H2|]].
  destruct (sync_response_corrects w_guest 15 false H1 H2) as (_ & _ & H).
  apply H; vm_compute; reflexivity.
Defined.


(** The room field holds the query parameter in capitals, a code in the
    format: [connect] uses it.  After the viewer has typed "ab" the field
    holds a code that is not in the format, and [connect] rejects it. *)
Lemma connect_rejects_malformed_witness :
  roomCodeFormat (trim (roomInput (dom (boot page0)))) = true
  /\ did connect (boot page0) =
       [AStatus "Connecting..." StDisconnected;
        ANewSocket 0 "wss://watch.example/ws/ABC123"]
  /\ reachable (after [EvRoomInput "ab"])
  /\ roomCodeFormat (trim (roomInput (dom (after [EvRoomInput "ab"])))) = false
  /\ did connect (after [EvRoomInput "ab"]) = [AStatus "Enter 6-char code" StError]
  /\ sockets (env (exec connect (after [EvRoomInput "ab"])))
     = sockets (env (after [EvRoomInput "ab"])).
Proof.
  assert (L : roomCodeFormat (trim (roomInput (dom (boot page0)))) = true)
    by (vm_compute; reflexivity).
  assert (R : reachable (after [EvRoomInput "ab"]))
    by (apply after_reachable; vm_compute; reflexivity).
  assert (F : roomCodeFormat (trim (roomInput (dom (after [EvRoomInput "ab"])))) = false)
    by (vm_compute; reflexivity).
  split; [exact L|split; [|split; [exact R|split; [exact F|]]]].
  - destruct (connect_rejects_malformed (boot page0)) as (_ & H & _).
    destruct (H L) as [T _]. rewrite T. vm_compute. reflexivity.
  - destruct (connect_rejects_malformed (after [EvRoomInput "ab"])) as (H & _).
    destruct (H R F) as (A & _ & _ & _ & B & _). split; [exact A|exact B].
Defined.

(** The guest's first seek is forwarded; a second one 300 ms later is not. *)
Lemma seek_debounce_witness :
  sent (did (onVideoSeeked {| v_src := "film.mp4"; currentTime := 10; paused := false;
                              v_allowed := true |}) w_guest) = [OSeek 10]
  /\ forall video, exec (onVideoSeeked video) w_scrubbed = w_scrubbed.
Proof.
  destruct (seek_debounce w_guest {| v_src := "film.mp4"; currentTime := 10;
                                     paused := false; v_allowed := true |}) as (H & _ & K).
  assert (G : negb (isRemoteAction (js w_guest)) && socketOpen w_guest
              && (300 <? clock (env w_guest) - lastSentSeek (js w_guest)) = true)
    by (vm_compute; reflexivity).
  split.
  - exact (proj1 (H G)).
  - intros video. destruct (K G [EvTick 300] w_scrubbed video) as [A _].
    + vm_compute. reflexivity.
    + vm_compute. discriminate.
    + exact A.
Defined.

(** A first message in an empty transcript is kept as it is. *)
Lemma chat_transcript_bounded_witness :
  reachable w_host
  /\ chatMessages (dom (exec (addChatMessage (Some "Bob") "hi" false) w_host)) =
       [{| cd_system := false; cd_nick := Some "Bob"; cd_text := "hi" |}]
  /\ (length (chatMessages (dom w_host)) <= 100)%nat.
Proof.
  assert (R : reachable w_host) by (apply after_reachable; vm_compute; reflexivity).
  split; [exact R|].
  destruct (chat_transcript_bounded w_host (Some "Bob") "hi" false) as (_ & _ & H & _ & _ & G).
  split; [|exact (G R)].
  rewrite H; [vm_compute; reflexivity|vm_compute; lia].
Defined.

(** The pause from the relay, and the end of its window 100 ms later. *)
Lemma remote_pause_sequence_witness :
  exists w',
    run [EvTick 100; EvTimer 5] (exec (handleMessage (MPause 7 "Bob")) w_guest) = Some w'
    /\ isRemoteAction (js w') = false.
Proof.
  destruct (remote_pause_sequence w_guest 7 "Bob") as (_ & _ & _ & C).
  assert (P : 0 <= 100) by lia. specialize (C 100 P).
  destruct (run [EvTick 100; EvTimer (S (nextTimer (env w_guest)))]
              (exec (handleMessage (MPause 7 "Bob")) w_guest)) as [w'|] eqn:E.
  - exists w'. split; [exact E|apply C].
  - exfalso. lia.
Defined.


(** A trimmed chat line goes out under the viewer's name and the input is
    emptied; on the page just loaded, with no socket yet, nothing is sent. *)
Lemma sendChat_guarded_witness :
  did sendChat w_typing = [ASend 0 (OChat "hi" "Ann")]
  /\ chatInput (dom (exec sendChat w_typing)) = ""
  /\ exec sendChat (on_dom (set_chatInput "hello") (boot page0))
     = on_dom (set_chatInput "hello") (boot page0).
Proof.
  destruct (sendChat_guarded w_typing) as [_ H].
  destruct H as (s & Hs & D & E); [vm_compute; reflexivity|].
  assert (s = 0%nat) as -> by (vm_compute in Hs; congruence).
  split; [rewrite D; vm_compute; reflexivity|].
  split; [rewrite E; reflexivity|].
  destruct (sendChat_guarded (on_dom (set_chatInput "hello") (boot page0))) as [H _].
  apply H. vm_compute. reflexivity.
Defined.

Lemma addToQueue_guarded_witness :
  did addToQueue w_typing = [ASend 0 (OQueue "film.mp4" "Ann")]
  /\ urlInput (dom (exec addToQueue w_typing)) = ""
  /\ exec addToQueue (on_dom (set_urlInput "   ") w_typing)
     = on_dom (set_urlInput "   ") w_typing.
Proof.
  destruct (addToQueue_guarded w_typing) as [_ H].
  destruct H as (s & Hs & D & E); [vm_compute; reflexivity|].
  assert (s = 0%nat) as -> by (vm_compute in Hs; congruence).
  split; [rewrite D; vm_compute; reflexivity|].
  split; [rewrite E; reflexivity|].
  destruct (addToQueue_guarded (on_dom (set_urlInput "   ") w_typing)) as [H _].
  apply H. vm_compute. reflexivity.
Defined.


(** A press on Skip by the guest does not touch playback. *)
Lemma playback_only_on_frames_witness :
  step EvSkip w_guest = Some (after (watching ++ [EvSkip]))
  /\ forallb (fun a => negb (is_adapter a)) (added w_guest (after (watching ++ [EvSkip]))) = true.
Proof.
  assert (S : step EvSkip w_guest = Some (after (watching ++ [EvSkip])))
    by (vm_compute; reflexivity).
  split; [exact S|].
  apply (playback_only_on_frames EvSkip w_guest _ S). discriminate.
Defined.

(** The remote play of the guest's scenario: seek and play come under the
    flag. *)
Lemma operations_flagged_witness :
  step (EvMessage 0 (MPlay 5 "Bob")) w_guest = Some w_played
  /\ suppressed false (added w_guest w_played) = true.
Proof.
  assert (S : step (EvMessage 0 (MPlay 5 "Bob")) w_guest = Some w_played)
    by (vm_compute; reflexivity).
  split; [exact S|].
  apply (operations_flagged _ w_guest _ S). reflexivity.
Defined.

(** A viewer who has just joined is told that the film is playing at 12 s:
    the element is sought and played with the flag clear, and its play event
    goes back to the relay as a play by Ann. *)
Lemma state_play_echoes_witness :
  isRemoteAction (js w_joined) = false
  /\ socketOpen w_joined = true
  /\ exists w1 w2,
       step (EvMessage 0 (MState 2 (Some [film]) (Some false) (Some film) 12 true)) w_joined
         = Some w1
       /\ isRemoteAction (js w1) = false
       /\ step (EvVideo VPlay) w1 = Some w2
       /\ sent (added w1 w2) = [OPlay 12 "Ann"].
Proof.
  assert (F : isRemoteAction (js w_joined) = false) by (vm_compute; reflexivity).
  assert (O : socketOpen w_joined = true) by (vm_compute; reflexivity).
  split; [exact F|]. split; [exact O|].
  destruct (state_play_echoes w_joined 2 (Some [film]) (Some false) film 12 eq_refl F O)
    as (_ & _ & A & _ & w2 & S & E).
  exists (exec (handleMessage (MState 2 (Some [film]) (Some false) (Some film) 12 true))
            w_joined), w2.
  split; [vm_compute; reflexivity|].
  split; [exact A|]. split; [exact S|]. rewrite E. vm_compute. reflexivity.
Defined.

(** In the guest's scenario socket 0 is the only socket and the current one. *)
Lemma one_live_socket_witness :
  reachable w_guest
  /\ socket (js w_guest) = Some 0%nat
  /\ forall s m, enabled (EvMessage s m) w_guest = true -> s = 0%nat.
Proof.
  assert (R : reachable w_guest) by (apply after_reachable; vm_compute; reflexivity).
  split; [exact R|].
  assert (S : socket (js w_guest) = Some 0%nat) by (vm_compute; reflexivity).
  split; [exact S|]. intros s m En.
  destruct (one_live_socket w_guest R) as (_ & _ & _ & H).
  specialize (H s m En). congruence.
Defined.

(** The first socket of the page opens: join, heartbeat, first ping. *)
Lemma open_joins_witness :
  reachable (after [EvTick 100; EvTimer 1])
  /\ step (EvOpen 0) (after [EvTick 100; EvTimer 1]) = Some w_joined
  /\ added (after [EvTick 100; EvTimer 1]) w_joined =
       [AStatus "Connected" StConnected; ASend 0 (OJoin "Ann");
        ASetInterval 2 CbPing 5000; ASend 0 (OPing 1700000000100)].
Proof.
  assert (R : reachable (after [EvTick 100; EvTimer 1]))
    by (apply after_reachable; vm_compute; reflexivity).
  assert (S : step (EvOpen 0) (after [EvTick 100; EvTimer 1]) = Some w_joined)
    by (vm_compute; reflexivity).
  split; [exact R|]. split; [exact S|].
  destruct (open_joins _ _ _ R S) as (_ & A & _). rewrite A. vm_compute. reflexivity.
Defined.

(** The old socket of the host closes after the new one has been confirmed:
    the new socket stays open, and the page is left non-host, without the
    new heartbeat and without a cadence timer. *)
Lemma stale_close_witness :
  socketOpen w_rejoined = true
  /\ isHost (js w_rejoined) = true
  /\ exists w', step (EvClose 0) w_rejoined = Some w'
       /\ socketOpen w' = true
       /\ isHost (js w') = false
       /\ timers (env w') !! 4%nat = None
       /\ timers (env w') !! 5%nat = None
       /\ statusText (dom w') = "Disconnected".
Proof.
  split; [vm_compute; reflexivity|]. split; [vm_compute; reflexivity|].
  eexists. split; [vm_compute; reflexivity|].
  match goal with
  | |- socketOpen ?w' = _ /\ _ =>
    assert (S : step (EvClose 0) w_rejoined = Some w') by (vm_compute; reflexivity);
    destruct (stale_close w_rejoined w' 0 1 S) as (_ & _ & O & H & P & Y & T & _)
  end.
  - vm_compute. reflexivity.
  - discriminate.
  - split; [rewrite O; vm_compute; reflexivity|]. split; [exact H|].
    split; [apply P; vm_compute; reflexivity|].
    split; [apply Y; vm_compute; reflexivity|exact T].
Defined.

(** After the clip the relay loads the film: the adapter still reads the
    widget, at 7 s, while the new element is at 0. *)
Lemma loadMedia_keeps_player_witness :
  exists p, ytMethods w_tube = Some p
    /\ yt_time p = 7%Q
    /\ getPosition (exec (loadMedia film) w_tube) = yt_time p
    /\ directVideo (exec (loadMedia film) w_tube)
       = Some {| v_src := "film.mp4"; currentTime := 0; paused := true; v_allowed := true |}.
Proof.
  assert (Y : exists p, ytMethods w_tube = Some p /\ yt_time p = 7%Q)
    by (vm_compute; eexists; split; reflexivity).
  destruct Y as (p & Y & T). exists p. split; [exact Y|]. split; [exact T|].
  assert (N : m_type film <> youtube \/ ytReady (js w_tube) = false) by (left; discriminate).
  pose proof (loadMedia_keeps_player w_tube film p N Y) as H. cbv zeta in H.
  destruct H as (_ & _ & G & _ & D).
  split; [exact G|]. exact (proj1 (D eq_refl)).
Defined.

(** Nothing is loaded: a remote seek to 20 s is answered, and would be
    answered again. *)
Lemma adapter_inert_witness :
  ytMethods w_joined = None
  /\ directVideo w_joined = None
  /\ seeks (did (handleMessage (MSeek 20)) w_joined) = [20%Q]
  /\ seeks (did (handleMessage (MSeek 20)) (exec (handleMessage (MSeek 20)) w_joined)) = [20%Q].
Proof.
  assert (Y : ytMethods w_joined = None) by (vm_compute; reflexivity).
  assert (V : directVideo w_joined = None) by (vm_compute; reflexivity).
  split; [exact Y|]. split; [exact V|].
  destruct (adapter_inert w_joined 20 Y V) as (_ & _ & _ & _ & _ & _ & A & B).
  rewrite B, A. split; reflexivity.
Defined.

(** The host's reporting timer fires after 5 s and sends the position. *)
Lemma cadence_frames_by_role_witness :
  reachable (after (hosting ++ [EvTick 5000]))
  /\ exists w', step (EvTimer 3) (after (hosting ++ [EvTick 5000])) = Some w'
       /\ added (after (hosting ++ [EvTick 5000])) w' = [ASend 0 (OHostPosition 0)].
Proof.
  assert (R : reachable (after (hosting ++ [EvTick 5000])))
    by (apply after_reachable; vm_compute; reflexivity).
  split; [exact R|].
  eexists. split; [vm_compute; reflexivity|].
  match goal with
  | |- added ?w ?w' = _ =>
    assert (S : step (EvTimer 3) w = Some w') by (vm_compute; reflexivity);
    destruct (cadence_frames_by_role (EvTimer 3) w w' R S) as (id & s & _ & _ & _ & _ & A)
  end.
  - vm_compute. reflexivity.
  - vm_compute. reflexivity.
Defined.

(** The start-up timer opens the first socket, and is gone afterwards. *)
Lemma connects_on_request_witness :
  reachable (after [EvTick 100])
  /\ step (EvTimer 1) (after [EvTick 100]) = Some (after [EvTick 100; EvTimer 1])
  /\ existsb is_new_socket (added (after [EvTick 100]) (after [EvTick 100; EvTimer 1])) = true
  /\ forall id t, timers (env w_guest) !! id = Some t -> t_cb t <> CbConnect.
Proof.
  assert (R : reachable (after [EvTick 100]))
    by (apply after_reachable; vm_compute; reflexivity).
  assert (S : step (EvTimer 1) (after [EvTick 100]) = Some (after [EvTick 100; EvTimer 1]))
    by (vm_compute; reflexivity).
  split; [exact R|]. split; [exact S|]. split; [vm_compute; reflexivity|].
  destruct (connects_on_request _ _ _ R S) as [_ H].
  apply (H 1%nat eq_refl ltac:(vm_compute; reflexivity)
           [EvOpen 0; EvMessage 0 (MState 2 (Some [film]) (Some false) (Some film) 0 true);
            EvVideoChange 10 false true]).
  vm_compute. reflexivity.
Defined.

(** The widget reports playing at 7 s: a play at 7 by Ann; it reports
    buffering: nothing. *)
Lemma yt_state_frames_witness :
  sent (did (onYTStateChange 1) w_tube) = [OPlay 7 "Ann"]
  /\ sent (did (onYTStateChange 3) w_tube) = [].
Proof.
  assert (Y : exists p, ytMethods w_tube = Some p /\ yt_time p = 7%Q)
    by (vm_compute; eexists; split; reflexivity).
  destruct Y as (p & Y & T).
  assert (F : isRemoteAction (js w_tube) = false) by (vm_compute; reflexivity).
  assert (O : socketOpen w_tube = true) by (vm_compute; reflexivity).
  split.
  - destruct (yt_state_frames w_tube 1) as [H _]. rewrite (H p F O Y), T. reflexivity.
  - destruct (yt_state_frames w_tube 3) as [H _]. rewrite (H p F O Y). reflexivity.
Defined.

(** The page of the scenarios: the code of the link in capitals, and the
    first socket to that room. *)
Lemma boot_connects_witness :
  roomInput (dom (boot page0)) = "ABC123"
  /\ exists w1, run [EvTick 100; EvTimer 1] (boot page0) = Some w1
       /\ added (boot page0) w1 =
            [AStatus "Connecting..." StDisconnected;
             ANewSocket 0 "wss://watch.example/ws/ABC123"].
Proof.
  destruct (boot_connects page0) as (_ & Rm & _ & w1 & Rn & A & _).
  - reflexivity.
  - vm_compute. reflexivity.
  - split; [rewrite Rm; reflexivity|]. exists w1. split; [exact Rn|].
    rewrite A. vm_compute. reflexivity.
Defined.



(** The host is told again that it is the host: no timer changes.  It is
    told that it is not: no toast. *)
Lemma host_update_same_role_witness :
  timers (env (exec (handleMessage (MHostUpdate (Some true))) w_host)) = timers (env w_host)
  /\ existsb is_toast (did (handleMessage (MHostUpdate None)) w_host) = false.
Proof.
  split.
  - destruct (host_update_same_role w_host (Some true)) as [H _].
    destruct H as (A & _); [vm_compute; reflexivity|exact A].
  - destruct (host_update_same_role w_host None) as [_ H].
    destruct H as (A & _); [vm_compute; discriminate|exact A].
Defined.

(** ** Where the code departs from the specification *)



(** C8, counterexample. Exactly 300 ms after a forwarded seek, with the flag
    clear and the socket open, a local seek is not forwarded. *)
Lemma seek_at_300ms_dropped :
  isRemoteAction (js w_scrubbed) = false
  /\ socketOpen w_scrubbed = true
  /\ clock (env w_scrubbed) - lastSentSeek (js w_scrubbed) = 300
  /\ sent (trace (env w_scrubbed)) = [OJoin "Ann"; OPing 1700000000100; OSeek 10]
  /\ forall video, sent (did (onVideoSeeked video) w_scrubbed) = [].
Proof.
  split; [|split; [|split; [|split]]].
  - vm_compute. reflexivity.
  - vm_compute. reflexivity.
  - vm_compute. reflexivity.
  - vm_compute. reflexivity.
  - intros video. apply seeked_off. vm_compute. reflexivity.
Qed.
